(** * Tokage: the entity constructors of [tokage/abc.py]

    A shallow embedding of the four constructors [Anime.__init__],
    [Manga.__init__], [Character.__init__] and [Person.__init__].

    The raw payload is a tree of Python objects.  Dictionaries and lists are
    mutable and are passed by reference, and the constructors write into the
    nested records they are given, so the embedding keeps an explicit store
    of objects and threads it through every statement. *)

From stdpp Require Import gmap strings list fin_maps.
From Stdlib Require Import ZArith Ascii.

Open Scope string_scope.

(** ** Python values and the object store *)

Abbreviation loc := positive.

(** Immediate values are carried by value, dictionaries and lists by
    reference.  [VFloat] holds the bit pattern of a binary64 number: the
    constructors only store numbers and test them for truth. *)
Inductive value : Type :=
| VNone
| VBool (b : bool)
| VInt (n : Z)
| VFloat (bits : Z)
| VStr (s : string)
| VRef (l : loc).

(** A dictionary keeps its items in insertion order; the keys of a decoded
    JSON object are strings. *)
Inductive object : Type :=
| ODict (items : list (string * value))
| OList (elems : list value).

Inductive exn : Type :=
| TypeError
| AttributeError
| KeyError
| IndexError
| ValueError
| RuntimeError
| MalformedReferenceError
| UnknownEntityKindError
| DanglingReference.

(** The state of one constructor call: the dictionary bound to [**kwargs]
    (a fresh dictionary, private to the call, never iterated) and the store
    holding every object reachable from the payload. *)
Record state : Type := State {
  kwargs : gmap string value;
  heap : gmap loc object
}.

(** An exception leaves the store as it was when it was raised. *)
Inductive outcome (A : Type) : Type :=
| Ok (a : A) (σ : state)
| Raise (e : exn) (σ : state).
Arguments Ok {A} a σ.
Arguments Raise {A} e σ.

Definition M (A : Type) : Type := state → outcome A.

#[global] Instance M_ret : MRet M := λ A a σ, Ok a σ.
#[global] Instance M_bind : MBind M := λ A B f m σ,
  match m σ with
  | Ok a σ' => f a σ'
  | Raise e σ' => Raise e σ'
  end.

Definition raise {A} (e : exn) : M A := λ σ, Raise e σ.

Definition lift {A} (r : exn + A) : M A :=
  match r with
  | inl e => raise e
  | inr a => mret a
  end.

(** ** Dictionaries in insertion order *)

Fixpoint dict_get (k : string) (d : list (string * value)) : option value :=
  match d with
  | [] => None
  | (k', v) :: d' => if String.eqb k k' then Some v else dict_get k d'
  end.

(** [d[k] = v]: an existing key keeps its position, a new key goes last. *)
Fixpoint dict_set (k : string) (v : value) (d : list (string * value))
  : list (string * value) :=
  match d with
  | [] => [(k, v)]
  | (k', v') :: d' =>
      if String.eqb k k' then (k, v) :: d' else (k', v') :: dict_set k v d'
  end.

(** ** Strings *)

Fixpoint startswith (p s : string) : bool :=
  match p, s with
  | EmptyString, _ => true
  | String a p', String b s' => if Ascii.eqb a b then startswith p' s' else false
  | String _ _, EmptyString => false
  end.

Fixpoint skip (n : nat) (s : string) : string :=
  match n, s with
  | O, _ => s
  | S n', String _ s' => skip n' s'
  | S _, EmptyString => EmptyString
  end.

(** [partition sep s]: the text before and after the first occurrence of
    [sep] in [s], as [str.partition] finds it. *)
Fixpoint partition (sep s : string) : option (string * string) :=
  if startswith sep s then Some (EmptyString, skip (String.length sep) s)
  else match s with
       | EmptyString => None
       | String c s' =>
           match partition sep s' with
           | Some (a, b) => Some (String c a, b)
           | None => None
           end
       end.

(** [sep in s] for two strings. *)
Definition str_contains (sep s : string) : bool :=
  match partition sep s with
  | Some _ => true
  | None => false
  end.

(** [s.split(sep)] for a non-empty [sep]: cut at the first occurrence and go
    on in the rest.  Each cut removes at least one character, so a budget of
    [String.length s] cuts is never exhausted. *)
Fixpoint split_upto (n : nat) (sep s : string) : list string :=
  match n with
  | O => [s]
  | S n' =>
      match partition sep s with
      | None => [s]
      | Some (a, b) => a :: split_upto n' sep b
      end
  end.

Definition str_split (sep s : string) : list string :=
  split_upto (String.length s) sep s.

(** A Python string is kept as the bytes of its UTF-8 text, so that
    searching and splitting work on the bytes.  A character is a leading
    byte with the continuation bytes, [10xxxxxx], that follow it. *)
Definition continuation (c : ascii) : bool :=
  let n := nat_of_ascii c in (128 <=? n)%nat && (n <? 192)%nat.

(** The continuation bytes [s] begins with. *)
Fixpoint continuations (s : string) : string :=
  match s with
  | String c s' =>
      if continuation c then String c (continuations s') else EmptyString
  | EmptyString => EmptyString
  end.

(** [lead c cs]: the byte [c] put before the first of the characters [cs]. *)
Definition lead (c : ascii) (cs : list value) : list value :=
  match cs with
  | VStr g :: rest => VStr (String c g) :: rest
  | _ => VStr (String c EmptyString) :: cs
  end.

(** The characters of [s], as iterating over a string gives them: a byte
    followed by a continuation byte belongs to the character that byte is
    in. *)
Fixpoint chars (s : string) : list value :=
  match s with
  | EmptyString => []
  | String c s' =>
      let cs := chars s' in
      match s' with
      | String c' _ =>
          if continuation c' then lead c cs
          else VStr (String c EmptyString) :: cs
      | EmptyString => [VStr (String c EmptyString)]
      end
  end.

(** ** The operations of the constructors on values *)

Definition pop (k : string) : M value := λ σ,
  Ok (default VNone (kwargs σ !! k)) (State (delete k (kwargs σ)) (heap σ)).

Definition deref (l : loc) : M object := λ σ,
  match heap σ !! l with
  | Some o => Ok o σ
  | None => Raise DanglingReference σ
  end.

Definition store (l : loc) (o : object) : M unit := λ σ,
  Ok tt (State (kwargs σ) (<[l := o]> (heap σ))).

(** [sep in x] *)
Definition contains (sep : string) (x : value) : M bool :=
  match x with
  | VStr s => mret (str_contains sep s)
  | VRef l =>
      o ← deref l;
      match o with
      | ODict d => mret (bool_decide (is_Some (dict_get sep d)))
      | OList xs =>
          mret (existsb (λ y, match y with
                              | VStr s => String.eqb sep s
                              | _ => false
                              end) xs)
      end
  | _ => raise TypeError
  end.

(** [x.split(sep)] *)
Definition split (x : value) (sep : string) : M (list value) :=
  match x with
  | VStr s => mret (VStr <$> str_split sep s)
  | _ => raise AttributeError
  end.

(** [a, b = xs] *)
Definition unpack2 (xs : list value) : M (value * value) :=
  match xs with
  | [a; b] => mret (a, b)
  | _ => raise ValueError
  end.

(** [x[k]] for a string key. *)
Definition getitem (x : value) (k : string) : M value :=
  match x with
  | VRef l =>
      o ← deref l;
      match o with
      | ODict d =>
          match dict_get k d with
          | Some v => mret v
          | None => raise KeyError
          end
      | OList _ => raise TypeError
      end
  | _ => raise TypeError
  end.

(** [x[0]] *)
Definition first (x : value) : M value :=
  match x with
  | VStr (String c s') => mret (VStr (String c (continuations s')))
  | VStr EmptyString => raise IndexError
  | VRef l =>
      o ← deref l;
      match o with
      | OList (v :: _) => mret v
      | OList [] => raise IndexError
      | ODict _ => raise KeyError
      end
  | _ => raise TypeError
  end.

(** [x[k] = v] for a string key. *)
Definition setitem (x : value) (k : string) (v : value) : M unit :=
  match x with
  | VRef l =>
      o ← deref l;
      match o with
      | ODict d => store l (ODict (dict_set k v d))
      | OList _ => raise TypeError
      end
  | _ => raise TypeError
  end.

(** The truth value of [x], as [if x] tests it. *)
Definition truthy (x : value) : M bool :=
  match x with
  | VNone => mret false
  | VBool b => mret b
  | VInt n => mret (negb (n =? 0)%Z)
  | VFloat bits => mret (negb ((bits =? 0) || (bits =? 2 ^ 63))%Z)
  | VStr s => mret (negb (String.eqb s EmptyString))
  | VRef l =>
      o ← deref l;
      match o with
      | ODict d => mret (negb (bool_decide (d = [])))
      | OList xs => mret (negb (bool_decide (xs = [])))
      end
  end.

(** Iterating over [x] in a [for] loop or a comprehension.  The program
    never writes into a list, and the loop bodies below reject a string or
    a dictionary key before they write anything, so the elements found when
    the loop starts are the ones it visits. *)
Definition iter (x : value) : M (list value) :=
  match x with
  | VStr s => mret (chars s)
  | VRef l =>
      o ← deref l;
      match o with
      | ODict d => mret ((λ kv, VStr kv.1) <$> d)
      | OList xs => mret xs
      end
  | _ => raise TypeError
  end.

(** [x.items()]: only a dictionary has the method. *)
Definition items (x : value) : M loc :=
  match x with
  | VRef l =>
      o ← deref l;
      match o with
      | ODict _ => mret l
      | OList _ => raise AttributeError
      end
  | _ => raise AttributeError
  end.

(** [[f(x) for x in xs]] *)
Fixpoint comprehension {A} (f : value → M A) (xs : list value) : M (list A) :=
  match xs with
  | [] => mret []
  | x :: xs' =>
      y ← f x;
      ys ← comprehension f xs';
      mret (y :: ys)
  end.

(** ** Looking a field up in the payload *)

(** [kwargs.get(k)]: the value of the payload for [k], [None] when the key
    is absent. *)
Definition get (k : string) (kw : gmap string value) : value :=
  default VNone (kw !! k).

(** The raw genres of a payload: the field ["genre"], and the field
    ["genres"] when the first is absent or null. *)
Definition chosen_genres (kw : gmap string value) : value :=
  match get "genre" kw with
  | VNone => get "genres" kw
  | g => g
  end.

(** ** Lightweight references *)

(** Modelled from the spec: [tokage/partial.py] is not among the sources.
    The spec describes a partial reference as a minimal stand-in object
    holding an identifier and the basic identifying fields of another
    entity; a related title is in addition tagged with its relation type. *)
Inductive reference_kind : Type :=
| AnimeReference
| MangaReference
| PersonReference.

Record reference : Type := Reference {
  ref_kind : reference_kind;
  ref_id : value;
  ref_name : value;
  ref_url : value;
  ref_relation : value
}.

(** The functions [abc.py] imports from [.utils] and [.partial].  They are
    outside the sources at hand, so the constructors take them as
    parameters.  Each one receives the contents of the record it is called
    on and either returns a result or raises; the spec gives them no side
    effect. *)
Class Collaborators : Type := {
  parse_id : value → exn + value;
  create_relation : list (string * value) → exn + reference;
  PartialPerson_from_author : list (string * value) → exn + reference;
  PartialAnime_from_character : list (string * value) → exn + reference;
  PartialManga_from_character : list (string * value) → exn + reference
}.

(** Calling a collaborator on the record [x] refers to. *)
Definition on_record {A} (f : list (string * value) → exn + A) (x : value) : M A :=
  match x with
  | VRef l =>
      o ← deref l;
      match o with
      | ODict d => lift (f d)
      | OList _ => raise TypeError
      end
  | _ => raise TypeError
  end.

(** ** The blocks shared by [Anime.__init__] and [Manga.__init__] *)

(** Lines 107-111 and 234-238: the start and the end of a date range. *)
Definition date_range (time : value) : M (value * value) :=
  found ← contains " to " time;
  if negb found then mret (time, VNone)
  else parts ← split time " to "; unpack2 parts.

(** Lines 124 and 247: the names in the raw genres. *)
Definition names_of (_raw_genres : value) : M (option (list value)) :=
  nonempty ← truthy _raw_genres;
  if nonempty : bool
  then gs ← iter _raw_genres;
       names ← comprehension (λ g, getitem g "name") gs;
       mret (Some names)
  else mret None.

(** Lines 121-124 and 244-247: the raw genres and the names in them. *)
Definition genres_of_payload : M (value * option (list value)) :=
  _raw_genres ← pop "genre";
  _raw_genres ← match _raw_genres with
                | VNone => pop "genres"
                | _ => mret _raw_genres
                end;
  genres ← names_of _raw_genres;
  mret (_raw_genres, genres).

Section with_collaborators.
Context `{!Collaborators}.

(** Lines 138-141 and 260-263: the records of one relation type. *)
Fixpoint for_relation (relation_type : string) (relations : list value)
    (related : list reference) : M (list reference) :=
  match relations with
  | [] => mret related
  | relation :: relations' =>
      setitem relation "relation" (VStr relation_type);;
      obj ← on_record create_relation relation;
      for_relation relation_type relations' (related ++ [obj])
  end.

(** Lines 137 and 259: the loop over the items of the mapping at [d].  The
    dictionary iterator reads the dictionary on every step and raises when
    its size is no longer the one it had when the loop started; [pos] is
    the index of the next item and [fuel] bounds the items left. *)
Fixpoint for_items (fuel pos size : nat) (d : loc) (related : list reference)
  : M (list reference) :=
  o ← deref d;
  match o with
  | OList _ => raise TypeError
  | ODict its =>
      if negb (Nat.eqb (length its) size) then raise RuntimeError
      else match its !! pos, fuel with
           | Some (relation_type, relations), S fuel' =>
               rs ← iter relations;
               related' ← for_relation relation_type rs related;
               for_items fuel' (S pos) size d related'
           | _, _ => mret related
           end
  end.

(** Lines 137-141 and 259-263: the loop over [_raw_related.items()]. *)
Definition related_from (_raw_related : value) : M (list reference) :=
  d ← items _raw_related;
  o ← deref d;
  let size := match o with ODict its => length its | OList _ => 0 end in
  for_items size 0 size d [].

(** Lines 135-141 and 257-263. *)
Definition related_of_payload : M (value * list reference) :=
  _raw_related ← pop "related";
  related ← related_from _raw_related;
  mret (_raw_related, related).

(** Lines 312-315 and 319-322 of [Character.__init__]. *)
Fixpoint for_appearances (from_character : list (string * value) → exn + reference)
    (records : list value) (appearances : list reference) : M (list reference) :=
  match records with
  | [] => mret appearances
  | record :: records' =>
      url ← getitem record "url";
      i ← lift (parse_id url);
      setitem record "id" i;;
      obj ← on_record from_character record;
      for_appearances from_character records' (appearances ++ [obj])
  end.

End with_collaborators.

(** ** class Anime *)

Module Anime.

Record t : Type := new {
  id : value;
  title : value;
  type : value;
  synonyms : value;
  image : value;
  japanese_title : value;
  status : value;
  episodes : value;
  airing : value;
  _air_time : value;
  air_start : value;
  air_end : value;
  premiered : value;
  broadcast : value;
  synopsis : value;
  producers : value;
  licensors : value;
  studios : value;
  source : value;
  _raw_genres : value;
  genres : option (list value);
  duration : value;
  link : value;
  rating : value;
  score : value;
  rank : value;
  popularity : value;
  members : value;
  favorites : value;
  related : list reference;
  _raw_related : value
}.

Section init.
Context `{!Collaborators}.

Definition __init__ (anime_id : value) : M t :=
  title ← pop "title";
  type ← pop "type";
  synonyms ← pop "title_synonyms";
  image ← pop "image_url";
  japanese_title ← pop "title_japanese";
  status ← pop "status";
  episodes ← pop "episodes";
  airing ← pop "airing";
  _air_time ← pop "aired_string";
  '(air_start, air_end) ← date_range _air_time;
  premiered ← pop "premiered";
  broadcast ← pop "broadcast";
  synopsis ← pop "synopsis";
  producers ← pop "producer";
  licensors ← pop "licensor";
  studios ← pop "studio";
  source ← pop "source";
  '(_raw_genres, genres) ← genres_of_payload;
  duration ← pop "duration";
  link ← pop "link_canonical";
  rating ← pop "rating";
  score ← pop "score";
  rank ← pop "rank";
  popularity ← pop "popularity";
  members ← pop "members";
  favorites ← pop "favorites";
  '(_raw_related, related) ← related_of_payload;
  mret {| id := anime_id; title := title; type := type; synonyms := synonyms;
          image := image; japanese_title := japanese_title; status := status;
          episodes := episodes; airing := airing; _air_time := _air_time;
          air_start := air_start; air_end := air_end; premiered := premiered;
          broadcast := broadcast; synopsis := synopsis; producers := producers;
          licensors := licensors; studios := studios; source := source;
          _raw_genres := _raw_genres; genres := genres; duration := duration;
          link := link; rating := rating; score := score; rank := rank;
          popularity := popularity; members := members; favorites := favorites;
          related := related; _raw_related := _raw_related |}.

(** The object of spec 4.3: every plain field is looked up in the payload,
    an absent one gives [None]; the normalised fields are given. *)
Definition of_parts (anime_id : value) (kw : gmap string value)
    (p : value * value * option (list value) * list reference) : t :=
  let '(air_start, air_end, genres, related) := p in
  {| id := anime_id; title := get "title" kw; type := get "type" kw;
    synonyms := get "title_synonyms" kw; image := get "image_url" kw;
    japanese_title := get "title_japanese" kw;
    status := get "status" kw; episodes := get "episodes" kw;
    airing := get "airing" kw; _air_time := get "aired_string" kw;
    air_start := air_start; air_end := air_end;
    premiered := get "premiered" kw; broadcast := get "broadcast" kw;
    synopsis := get "synopsis" kw; producers := get "producer" kw;
    licensors := get "licensor" kw; studios := get "studio" kw;
    source := get "source" kw; _raw_genres := chosen_genres kw;
    genres := genres; duration := get "duration" kw;
    link := get "link_canonical" kw; rating := get "rating" kw;
    score := get "score" kw; rank := get "rank" kw;
    popularity := get "popularity" kw; members := get "members" kw;
    favorites := get "favorites" kw; related := related;
    _raw_related := get "related" kw |}.

(** The normalisations of spec 4.3, each on the field it is looked up
    under. *)
Definition parts (kw : gmap string value)
  : M (value * value * option (list value) * list reference) :=
  dates ← date_range (get "aired_string" kw);
  genres ← names_of (chosen_genres kw);
  related ← related_from (get "related" kw);
  mret (dates, genres, related).

(** The constructor as spec 4.3 words it: nothing is popped. *)
Definition by_lookup (anime_id : value) (kw : gmap string value) : M t :=
  p ← parts kw;
  mret (of_parts anime_id kw p).

End init.
End Anime.

(** ** class Manga *)

Module Manga.

Record t : Type := new {
  id : value;
  title : value;
  type : value;
  synonyms : value;
  image : value;
  japanese_title : value;
  status : value;
  volumes : value;
  chapters : value;
  publishing : value;
  synopsis : value;
  _publish_time : value;
  publish_start : value;
  publish_end : value;
  _raw_author : value;
  author : reference;
  _raw_genres : value;
  genres : option (list value);
  serialization : value;
  link : value;
  score : value;
  rank : value;
  popularity : value;
  members : value;
  favorites : value;
  related : list reference;
  _raw_related : value
}.

Section init.
Context `{!Collaborators}.

(** Lines 240-242: the first author, enriched and referenced. *)
Definition author_from (authors : value) : M (value * reference) :=
  _raw_author ← first authors;
  url ← getitem _raw_author "url";
  i ← lift (parse_id url);
  setitem _raw_author "id" i;;
  author ← on_record PartialPerson_from_author _raw_author;
  mret (_raw_author, author).

Definition __init__ (manga_id : value) : M t :=
  title ← pop "title";
  type ← pop "type";
  synonyms ← pop "title_synonyms";
  image ← pop "image_url";
  japanese_title ← pop "title_japanese";
  status ← pop "status";
  volumes ← pop "volumes";
  chapters ← pop "chapters";
  publishing ← pop "publishing";
  synopsis ← pop "synopsis";
  _publish_time ← pop "published_string";
  '(publish_start, publish_end) ← date_range _publish_time;
  authors ← pop "author";
  '(_raw_author, author) ← author_from authors;
  '(_raw_genres, genres) ← genres_of_payload;
  serializations ← pop "serialization";
  serialization ← first serializations;
  link ← pop "link_canonical";
  score ← pop "score";
  rank ← pop "rank";
  popularity ← pop "popularity";
  members ← pop "members";
  favorites ← pop "favorites";
  '(_raw_related, related) ← related_of_payload;
  mret {| id := manga_id; title := title; type := type; synonyms := synonyms;
          image := image; japanese_title := japanese_title; status := status;
          volumes := volumes; chapters := chapters; publishing := publishing;
          synopsis := synopsis; _publish_time := _publish_time;
          publish_start := publish_start; publish_end := publish_end;
          _raw_author := _raw_author; author := author;
          _raw_genres := _raw_genres; genres := genres;
          serialization := serialization; link := link; score := score;
          rank := rank; popularity := popularity; members := members;
          favorites := favorites; related := related;
          _raw_related := _raw_related |}.

(** The object of spec 4.3: every plain field is looked up in the payload,
    an absent one gives [None]; the normalised fields are given. *)
Definition of_parts (manga_id : value) (kw : gmap string value)
    (p : value * value * (value * reference) * option (list value) * value
         * list reference) : t :=
  let '(publish_start, publish_end, (_raw_author, author), genres,
        serialization, related) := p in
  {| id := manga_id; title := get "title" kw; type := get "type" kw;
    synonyms := get "title_synonyms" kw; image := get "image_url" kw;
    japanese_title := get "title_japanese" kw;
    status := get "status" kw; volumes := get "volumes" kw;
    chapters := get "chapters" kw; publishing := get "publishing" kw;
    synopsis := get "synopsis" kw;
    _publish_time := get "published_string" kw;
    publish_start := publish_start; publish_end := publish_end;
    _raw_author := _raw_author; author := author;
    _raw_genres := chosen_genres kw; genres := genres;
    serialization := serialization; link := get "link_canonical" kw;
    score := get "score" kw; rank := get "rank" kw;
    popularity := get "popularity" kw; members := get "members" kw;
    favorites := get "favorites" kw; related := related;
    _raw_related := get "related" kw |}.

(** The normalisations of spec 4.3, each on the field it is looked up
    under. *)
Definition parts (kw : gmap string value)
  : M (value * value * (value * reference) * option (list value) * value
       * list reference) :=
  dates ← date_range (get "published_string" kw);
  author ← author_from (get "author" kw);
  genres ← names_of (chosen_genres kw);
  serialization ← first (get "serialization" kw);
  related ← related_from (get "related" kw);
  mret (dates, author, genres, serialization, related).

(** The constructor as spec 4.3 words it: nothing is popped. *)
Definition by_lookup (manga_id : value) (kw : gmap string value) : M t :=
  p ← parts kw;
  mret (of_parts manga_id kw p).

End init.
End Manga.

(** ** class Character *)

Module Character.

Record t : Type := new {
  id : value;
  link : value;
  name : value;
  image : value;
  favorites : value;
  animeography : list reference;
  _raw_animeography : value;
  mangaography : list reference;
  _raw_mangaography : value;
  japanese_name : value;
  about : value;
  voice_actors : value
}.

Section init.
Context `{!Collaborators}.

(** Lines 310-315 and 317-322: the references of one list of appearances. *)
Definition appearances_from
    (from_character : list (string * value) → exn + reference)
    (raw : value) : M (list reference) :=
  records ← iter raw;
  for_appearances from_character records [].

Definition __init__ (char_id : value) : M t :=
  link ← pop "link_canonical";
  name ← pop "name";
  image ← pop "image_url";
  favorites ← pop "member_favorites";
  _raw_animeography ← pop "animeography";
  animeography ←
    appearances_from PartialAnime_from_character _raw_animeography;
  _raw_mangaography ← pop "mangaography";
  mangaography ←
    appearances_from PartialManga_from_character _raw_mangaography;
  japanese_name ← pop "name_kanji";
  about ← pop "about";
  voice_actors ← pop "voice_actors";
  mret {| id := char_id; link := link; name := name; image := image;
          favorites := favorites; animeography := animeography;
          _raw_animeography := _raw_animeography;
          mangaography := mangaography;
          _raw_mangaography := _raw_mangaography;
          japanese_name := japanese_name; about := about;
          voice_actors := voice_actors |}.

(** The object of spec 4.3: every plain field is looked up in the payload,
    an absent one gives [None]; the normalised fields are given. *)
Definition of_parts (char_id : value) (kw : gmap string value)
    (p : list reference * list reference) : t :=
  let '(animeography, mangaography) := p in
  {| id := char_id; link := get "link_canonical" kw;
    name := get "name" kw; image := get "image_url" kw;
    favorites := get "member_favorites" kw;
    animeography := animeography;
    _raw_animeography := get "animeography" kw;
    mangaography := mangaography;
    _raw_mangaography := get "mangaography" kw;
    japanese_name := get "name_kanji" kw; about := get "about" kw;
    voice_actors := get "voice_actors" kw |}.

(** The normalisations of spec 4.3, each on the field it is looked up
    under. *)
Definition parts (kw : gmap string value)
  : M (list reference * list reference) :=
  animeography ←
    appearances_from PartialAnime_from_character (get "animeography" kw);
  mangaography ←
    appearances_from PartialManga_from_character (get "mangaography" kw);
  mret (animeography, mangaography).

(** The constructor as spec 4.3 words it: nothing is popped. *)
Definition by_lookup (char_id : value) (kw : gmap string value) : M t :=
  p ← parts kw;
  mret (of_parts char_id kw p).

End init.
End Character.

(** ** class Person *)

Module Person.

Record t : Type := new {
  id : value;
  link : value;
  name : value;
  image : value;
  favorites : value;
  anime : value;
  manga : value;
  birthday : value;
  more : value;
  website : value;
  voice_acting : value
}.

Definition __init__ (person_id : value) : M t :=
  link ← pop "link_canonical";
  name ← pop "name";
  image ← pop "image_url";
  favorites ← pop "member_favorites";
  anime ← pop "anime_staff_position";
  manga ← pop "published_manga";
  birthday ← pop "birthday";
  more ← pop "more";
  website ← pop "website";
  voice_acting ← pop "voice_acting_role";
  mret {| id := person_id; link := link; name := name; image := image;
          favorites := favorites; anime := anime; manga := manga;
          birthday := birthday; more := more; website := website;
          voice_acting := voice_acting |}.

(** The constructor as spec 4.3 words it: every field name is looked up in
    the payload and an absent one gives [None]; nothing is popped. *)
Definition by_lookup (person_id : value) (kw : gmap string value) : t :=
  {| id := person_id; link := get "link_canonical" kw; name := get "name" kw;
     image := get "image_url" kw; favorites := get "member_favorites" kw;
     anime := get "anime_staff_position" kw;
     manga := get "published_manga" kw; birthday := get "birthday" kw;
     more := get "more" kw; website := get "website" kw;
     voice_acting := get "voice_acting_role" kw |}.

End Person.

(** [construct init payload h]: the body of the call [Cls(id, **payload)]
    run in the store [h], once the payload is bound to [**kwargs] (the
    binding itself is [call], further down).  The keyword expansion copies
    the items of the caller's mapping into the fresh dictionary the
    constructor pops from; what is left of that dictionary is dropped when
    the call ends.  The result is the new object or the exception, and the
    store the call leaves. *)
Definition result {A} (o : outcome A) : (exn + A) * gmap loc object :=
  match o with
  | Ok a σ => (inr a, heap σ)
  | Raise e σ => (inl e, heap σ)
  end.

Definition construct {A} (init : M A) (payload : gmap string value)
    (h : gmap loc object) : (exn + A) * gmap loc object :=
  result (init (State payload h)).

(** [run m h]: a computation that does not use the keyword dictionary, run
    in the store [h]. *)
Definition run {A} (m : M A) (h : gmap loc object) : (exn + A) * gmap loc object :=
  result (m (State ∅ h)).

Definition resume {A} (kw : gmap string value)
    (r : (exn + A) * gmap loc object) : outcome A :=
  match r with
  | (inr a, h) => Ok a (State kw h)
  | (inl e, h) => Raise e (State kw h)
  end.

(** A computation that neither reads nor writes the keyword dictionary. *)
Definition kwargs_free {A} (m : M A) : Prop :=
  ∀ kw h, m (State kw h) = resume kw (run m h).

(** [agree ks kw' kw]: what is left of the keyword dictionary after the keys
    [ks] were popped still holds the payload's value for every other key. *)
Definition agree (ks : list string) (kw' kw : gmap string value) : Prop :=
  ∀ k, existsb (String.eqb k) ks = false → get k kw' = get k kw.

(** The keyword dictionary once lines 121-123 have popped the genres. *)
Definition after_genres (kw : gmap string value) : gmap string value :=
  match get "genre" kw with
  | VNone => delete "genres" (delete "genre" kw)
  | _ => delete "genre" kw
  end.

(** ** The collaborators as the spec describes them *)

Definition digit (c : ascii) : option Z :=
  let n := Z.of_nat (nat_of_ascii c) in
  if ((48 <=? n) && (n <=? 57))%Z then Some (n - 48)%Z else None.

(** The number a string of decimal digits denotes, read from the left with
    [acc] the value of the digits already read. *)
Fixpoint decimal (acc : Z) (s : string) : option Z :=
  match s with
  | EmptyString => Some acc
  | String c s' =>
      match digit c with
      | Some n => decimal (10 * acc + n)%Z s'
      | None => None
      end
  end.

Definition numeric_segment (s : string) : option Z :=
  match s with
  | EmptyString => None
  | _ => decimal 0 s
  end.

(** Modelled from the spec: [parse_id] of [tokage/utils.py], which is not
    among the sources.  Spec 4.1: given a URL-like string, return the
    numeric identifier embedded as a segment of its path; a URL without
    such a segment fails with a MalformedReferenceError.  The segment taken
    is the first one made of digits only. *)
Definition spec_parse_id (url : value) : exn + value :=
  match url with
  | VStr s =>
      match omap numeric_segment (str_split "/" s) with
      | n :: _ => inr (VInt n)
      | [] => inl MalformedReferenceError
      end
  | _ => inl MalformedReferenceError
  end.

Definition field (k : string) (record : list (string * value)) : value :=
  default VNone (dict_get k record).

(** Modelled from the spec: the reference [create_relation] builds once the
    kind is known.  Spec 3: the identifier of a nested reference is parsed
    from its URL, and a related title is tagged with its relation type. *)
Definition spec_related (kind : reference_kind)
    (record : list (string * value)) : exn + reference :=
  match spec_parse_id (field "url" record) with
  | inr i =>
      inr (Reference kind i (field "title" record) (field "url" record)
             (field "relation" record))
  | inl e => inl e
  end.

(** Modelled from the spec: [create_relation] of [tokage/utils.py], which
    is not among the sources.  Spec 4.2: given a relation record carrying a
    [type] discriminator and its relation label, build an Anime-reference
    or a Manga-reference; an unrecognised discriminator fails with an
    UnknownEntityKindError. *)
Definition spec_create_relation (record : list (string * value)) : exn + reference :=
  match dict_get "type" record with
  | Some (VStr kind) =>
      if String.eqb kind "anime" then spec_related AnimeReference record
      else if String.eqb kind "manga" then spec_related MangaReference record
      else inl UnknownEntityKindError
  | _ => inl UnknownEntityKindError
  end.

(** Modelled from the spec: the constructors of the partial references in
    [tokage/partial.py], which is not among the sources.  Spec 4.3: a
    reference is built from a record the constructor has enriched with the
    identifier parsed from its URL. *)
Definition spec_from_record (kind : reference_kind)
    (record : list (string * value)) : exn + reference :=
  inr (Reference kind (field "id" record) (field "name" record)
         (field "url" record) VNone).

#[global] Instance spec_collaborators : Collaborators := {
  parse_id := spec_parse_id;
  create_relation := spec_create_relation;
  PartialPerson_from_author := spec_from_record PersonReference;
  PartialAnime_from_character := spec_from_record AnimeReference;
  PartialManga_from_character := spec_from_record MangaReference
}.



(** The state a computation ends in, whether it returns or raises. *)
Definition final {A} (o : outcome A) : state :=
  match o with
  | Ok _ σ => σ
  | Raise _ σ => σ
  end.

(** A computation that leaves the state as it found it. *)
Definition read_only {A} (m : M A) : Prop := ∀ σ, final (m σ) = σ.

(** [by_parts init of_parts parts]: the call of [init] on a payload runs the
    normalisations [parts] and returns the object [of_parts] makes of them. *)
Definition by_parts {A P} (init : value → M A)
    (of_parts : value → gmap string value → P → A)
    (parts : gmap string value → M P) : Prop :=
  ∀ id kw h,
    construct (init id) kw h =
    match run (parts kw) h with
    | (inr p, h') => (inr (of_parts id kw p), h')
    | (inl e, h') => (inl e, h')
    end.

(** ** Notions the properties are stated with *)

(** The call returned an object. *)
Definition constructs {A} (r : (exn + A) * gmap loc object) : Prop :=
  ∃ x, r.1 = inr x.

(** The fields a constructor stores as it finds them, each with the
    attribute it is stored in. *)
Definition Anime_optional : list (string * (Anime.t → value)) :=
  [("title", Anime.title); ("type", Anime.type);
   ("title_synonyms", Anime.synonyms); ("image_url", Anime.image);
   ("title_japanese", Anime.japanese_title); ("status", Anime.status);
   ("episodes", Anime.episodes); ("airing", Anime.airing);
   ("premiered", Anime.premiered); ("broadcast", Anime.broadcast);
   ("synopsis", Anime.synopsis); ("producer", Anime.producers);
   ("licensor", Anime.licensors); ("studio", Anime.studios);
   ("source", Anime.source); ("duration", Anime.duration);
   ("link_canonical", Anime.link); ("rating", Anime.rating);
   ("score", Anime.score); ("rank", Anime.rank);
   ("popularity", Anime.popularity); ("members", Anime.members);
   ("favorites", Anime.favorites)].

Definition Manga_optional : list (string * (Manga.t → value)) :=
  [("title", Manga.title); ("type", Manga.type);
   ("title_synonyms", Manga.synonyms); ("image_url", Manga.image);
   ("title_japanese", Manga.japanese_title); ("status", Manga.status);
   ("volumes", Manga.volumes); ("chapters", Manga.chapters);
   ("publishing", Manga.publishing); ("synopsis", Manga.synopsis);
   ("link_canonical", Manga.link); ("score", Manga.score);
   ("rank", Manga.rank); ("popularity", Manga.popularity);
   ("members", Manga.members); ("favorites", Manga.favorites)].

Definition Character_optional : list (string * (Character.t → value)) :=
  [("link_canonical", Character.link); ("name", Character.name);
   ("image_url", Character.image); ("member_favorites", Character.favorites);
   ("name_kanji", Character.japanese_name); ("about", Character.about);
   ("voice_actors", Character.voice_actors)].

Definition Person_optional : list (string * (Person.t → value)) :=
  [("link_canonical", Person.link); ("name", Person.name);
   ("image_url", Person.image); ("member_favorites", Person.favorites);
   ("anime_staff_position", Person.anime); ("published_manga", Person.manga);
   ("birthday", Person.birthday); ("more", Person.more);
   ("website", Person.website); ("voice_acting_role", Person.voice_acting)].

(** [name_in h g n]: [g] is a record of the store [h] whose ["name"] is [n]. *)
Definition name_in (h : gmap loc object) (g n : value) : Prop :=
  ∃ r d, g = VRef r ∧ h !! r = Some (ODict d) ∧ dict_get "name" d = Some n.

(** [annotated ks d d']: the dictionary [d'] is [d] after keys among [ks]
    were assigned any number of times. *)
Inductive annotated (ks : list string)
  : list (string * value) → list (string * value) → Prop :=
| annotated_refl d : annotated ks d d
| annotated_set d d' k v :
    k ∈ ks → annotated ks d d' → annotated ks d (dict_set k v d').

(** [frame ks h h']: the store [h'] has the objects of [h], the lists as they
    were and the dictionaries annotated under the keys [ks]. *)
Definition frame (ks : list string) (h h' : gmap loc object) : Prop :=
  ∀ l, match h !! l with
       | None => h' !! l = None
       | Some (OList xs) => h' !! l = Some (OList xs)
       | Some (ODict d) => ∃ d', h' !! l = Some (ODict d') ∧ annotated ks d d'
       end.

(** A computation whose only writes are such annotations, whether it
    returns or raises. *)
Definition frames {A} (ks : list string) (m : M A) : Prop :=
  ∀ σ, frame ks (heap σ) (heap (final (m σ))).

(** ** A sample store and sample payloads *)

(** The objects of a decoded response: a mapping of related titles, a list
    of genres, a list of authors, an empty list, and the lists of
    appearances of a character. *)
Definition sample_store : gmap loc object :=
  list_to_map
    [(1%positive, ODict [("Sequel", VRef 2)]);
     (2%positive, OList [VRef 3]);
     (3%positive, ODict [("type", VStr "anime");
                          ("url", VStr "https://myanimelist.net/anime/5/Name");
                          ("title", VStr "Name")]);
     (4%positive, OList [VRef 5; VRef 6]);
     (5%positive, ODict [("name", VStr "Action")]);
     (6%positive, ODict [("name", VStr "Drama")]);
     (7%positive, OList [VRef 8]);
     (8%positive, ODict [("name", VStr "Author");
                          ("url", VStr "https://myanimelist.net/people/1868/Author")]);
     (9%positive, OList []);
     (10%positive, OList [VRef 11]);
     (11%positive, ODict [("name", VStr "Name");
                           ("url", VStr "https://myanimelist.net/anime/5/Name")]);
     (12%positive, OList [VRef 13]);
     (13%positive, ODict [("name", VStr "Name");
                           ("url", VStr "https://myanimelist.net/manga/2/Name")]);
     (14%positive, OList [VStr "Magazine"])].

Definition sample_anime (aired genre : value) : gmap string value :=
  {[ "aired_string" := aired; "genre" := genre; "related" := VRef 1 ]}.

Definition sample_manga (published genre : value) : gmap string value :=
  {[ "published_string" := published; "genre" := genre; "author" := VRef 7;
     "serialization" := VRef 14; "related" := VRef 1 ]}.

Definition sample_character : gmap string value :=
  {[ "name" := VStr "Name"; "animeography" := VRef 10;
     "mangaography" := VRef 12 ]}.

(** ** A record enriched with its identifier *)

Section enrichment.
Context `{!Collaborators}.

(** [enriches h r d']: [d'] is the record at [r] in the store [h] once its
    ['id'] is the identifier parsed from its ['url']. *)
Definition enriches (h : gmap loc object) (r : loc)
    (d' : list (string * value)) : Prop :=
  ∃ d url i,
    h !! r = Some (ODict d) ∧ dict_get "url" d = Some url ∧
    parse_id url = inr i ∧ d' = dict_set "id" i d.

(** [enriched h0 h]: the store [h] is [h0] with some records enriched. *)
Definition enriched (h0 h : gmap loc object) : Prop :=
  ∀ l, h !! l = h0 !! l ∨
       ∃ d', enriches h0 l d' ∧ h !! l = Some (ODict d').


End enrichment.

(** ** What the spec says of the collaborators *)

(** A record with a ['type'] discriminator: a non-empty string. *)
Definition typed (d : list (string * value)) : Prop :=
  ∃ s, dict_get "type" d = Some (VStr s) ∧ s ≠ EmptyString.

(** Modelled from the spec: [create_relation] of [tokage/utils.py] is not
    among the sources.  Spec 4.2: it inspects the type discriminator of the
    record, "anime" or "manga", and fails on any other; so it returns only
    on a record that has one. *)
Class TypedRelations `{!Collaborators} : Prop :=
  create_relation_typed :
    ∀ d obj, create_relation d = inr obj → typed d.

(** ** The related titles, item by item *)

(** [label k o]: the record [o] once line 139 has run on it with the
    relation type [k]. *)
Definition label (k : string) (o : object) : object :=
  match o with
  | ODict d => ODict (dict_set "relation" (VStr k) d)
  | OList xs => OList xs
  end.

(** The store after the records at [steps] were labelled, in order. *)
Definition apply_steps (steps : list (string * loc)) (h : gmap loc object)
  : gmap loc object :=
  foldl (λ h '(k, r), alter (label k) r h) h steps.

Definition record_of (x : value) : option loc :=
  match x with
  | VRef r => Some r
  | _ => None
  end.

(** The records a loop over [v] visits in the store [h]. *)
Definition targets (h : gmap loc object) (v : value) : list loc :=
  match v with
  | VRef l =>
      match h !! l with
      | Some (OList xs) => omap record_of xs
      | _ => []
      end
  | _ => []
  end.

(** The records the loop over the items [its] labels, each with its
    relation type, in the order of the loop. *)
Definition steps (h : gmap loc object) (its : list (string * value))
  : list (string * loc) :=
  its ≫= (λ '(k, v), (λ r, (k, r)) <$> targets h v).

(** [relabelled h g]: the store [g] is [h] but for the relation label of
    records that have a type. *)
Definition relabelled (h g : gmap loc object) : Prop :=
  ∀ l, match h !! l with
       | None => g !! l = None
       | Some (OList xs) => g !! l = Some (OList xs)
       | Some (ODict d) =>
           g !! l = Some (ODict d) ∨
           (typed d ∧ ∃ v, g !! l = Some (ODict (dict_set "relation" v d)))
       end.

Section related.
Context `{!Collaborators}.

(** [relation_obj h k r obj]: [obj] is the reference [create_relation]
    builds from the record at [r] in [h] labelled with [k]. *)
Definition relation_obj (h : gmap loc object) (k : string) (r : loc)
    (obj : reference) : Prop :=
  ∃ d, h !! r = Some (ODict d) ∧
       create_relation (dict_set "relation" (VStr k) d) = inr obj.

(** [item_spec h (k, v) objs]: the loop over [v] visits records only, and
    [objs] are the references of these records labelled with [k]. *)
Definition item_spec (h : gmap loc object) (it : string * value)
    (objs : list reference) : Prop :=
  run (iter it.2) h = (inr (VRef <$> targets h it.2), h) ∧
  Forall2 (relation_obj h it.1) (targets h it.2) objs.

End related.

(** ** The keys a constructor pops *)

(** Lines 97-136: the keys [Anime.__init__] pops. *)
Definition Anime_keys : list string :=
  ["title"; "type"; "title_synonyms"; "image_url"; "title_japanese";
   "status"; "episodes"; "airing"; "aired_string"; "premiered"; "broadcast";
   "synopsis"; "producer"; "licensor"; "studio"; "source"; "genre"; "genres";
   "duration"; "link_canonical"; "rating"; "score"; "rank"; "popularity";
   "members"; "favorites"; "related"].

(** Lines 222-258: the keys [Manga.__init__] pops. *)
Definition Manga_keys : list string :=
  ["title"; "type"; "title_synonyms"; "image_url"; "title_japanese";
   "status"; "volumes"; "chapters"; "publishing"; "synopsis";
   "published_string"; "author"; "genre"; "genres"; "serialization";
   "link_canonical"; "score"; "rank"; "popularity"; "members"; "favorites";
   "related"].

(** Lines 305-326: the keys [Character.__init__] pops. *)
Definition Character_keys : list string :=
  ["link_canonical"; "name"; "image_url"; "member_favorites"; "animeography";
   "mangaography"; "name_kanji"; "about"; "voice_actors"].

(** Lines 368-377: the keys [Person.__init__] pops. *)
Definition Person_keys : list string :=
  ["link_canonical"; "name"; "image_url"; "member_favorites";
   "anime_staff_position"; "published_manga"; "birthday"; "more"; "website";
   "voice_acting_role"].

(** Two payloads that give the same value, or both none, for every key of
    [ks]: a key bound to [None] counts as an absent one. *)
Definition same_on (ks : list string) (kw1 kw2 : gmap string value) : Prop :=
  Forall (λ k, get k kw1 = get k kw2) ks.

(** Lines 95, 220, 303 and 366: the names of the parameters.  A call
    [Cls(id, **payload)] whose payload has one of them for a key is refused
    with a TypeError before the body runs, so [construct] is the call for a
    payload that binds none of them. *)
Definition Anime_parameters : list string := ["self"; "anime_id"].
Definition Manga_parameters : list string := ["self"; "manga_id"].
Definition Character_parameters : list string := ["self"; "char_id"].
Definition Person_parameters : list string := ["self"; "person_id"].

(** A payload the call accepts: no key of it is the name of a parameter. *)
Definition unbound (ps : list string) (kw : gmap string value) : Prop :=
  Forall (λ p, kw !! p = None) ps.

(** Some key of the payload is the name of a parameter. *)
Definition binds (ps : list string) (kw : gmap string value) : bool :=
  existsb (λ p, bool_decide (is_Some (kw !! p))) ps.

(** [call ps init payload h]: the call [Cls(id, **payload)] of a
    constructor whose parameters are named [ps].  A payload that binds one
    of them gives the parameter a second value: the call raises a TypeError
    before the body runs and nothing is written.  Otherwise the body runs
    on the keyword dictionary made of the payload. *)
Definition call {A} (ps : list string) (init : M A)
    (payload : gmap string value) (h : gmap loc object)
  : (exn + A) * gmap loc object :=
  if binds ps payload then (inl TypeError, h) else construct init payload h.

(** The relation type of the last of [steps] that labels the record [r]:
    line 139 overwrites the label an earlier step left. *)
Fixpoint last_label (steps : list (string * loc)) (r : loc) : option string :=
  match steps with
  | [] => None
  | (k, r') :: steps' =>
      match last_label steps' r with
      | Some k' => Some k'
      | None => if decide (r' = r) then Some k else None
      end
  end.

(** The object at [r] after [steps]: labelled by the last step on [r],
    untouched when no step is on [r]. *)
Definition labelled (steps : list (string * loc)) (h : gmap loc object)
    (r : loc) : option object :=
  match last_label steps r with
  | Some k => label k <$> h !! r
  | None => h !! r
  end.

Section acceptance.
Context `{!Collaborators}.

(** [accepted f h x obj]: [x] is a record of the store [h] with a URL
    [parse_id] accepts, and [obj] is the reference [f] builds from the
    record once it holds the identifier. *)
Definition accepted (f : list (string * value) → exn + reference)
    (h : gmap loc object) (x : value) (obj : reference) : Prop :=
  ∃ r d', x = VRef r ∧ enriches h r d' ∧ f d' = inr obj.

End acceptance.

Section author_record.
Context `{!Collaborators}.


End author_record.

(** * Properties *)

(** ** The monad *)

Lemma bind_unfold {A B} (m : M A) (f : A → M B) σ :
  (m ≫= f) σ =
  match m σ with
  | Ok a σ' => f a σ'
  | Raise e σ' => Raise e σ'
  end.
Proof. reflexivity. Qed.

Lemma bind_bind {A B C} (m : M A) (g : A → M B) (f : B → M C) σ :
  ((m ≫= g) ≫= f) σ = (m ≫= λ a, g a ≫= f) σ.
Proof. rewrite !bind_unfold. by destruct (m σ). Qed.

Lemma bind_ret {A B} (a : A) (f : A → M B) σ : (mret a ≫= f) σ = f a σ.
Proof. reflexivity. Qed.

Lemma bind_pop {B} k (f : value → M B) kw h :
  (pop k ≫= f) (State kw h) = f (get k kw) (State (delete k kw) h).
Proof. reflexivity. Qed.

(** ** Computations that leave the keyword dictionary alone *)

Lemma kwargs_free_ret {A} (a : A) : kwargs_free (mret a).
Proof. by intros kw h. Qed.

Lemma kwargs_free_raise {A} e : kwargs_free (@raise A e).
Proof. by intros kw h. Qed.

Lemma kwargs_free_bind {A B} (m : M A) (f : A → M B) :
  kwargs_free m → (∀ a, kwargs_free (f a)) → kwargs_free (m ≫= f).
Proof.
  intros Hm Hf kw h. unfold run. rewrite !bind_unfold, (Hm kw h), (Hm ∅ h).
  destruct (run m h) as [[e|a] h']; simpl; [done|].
  rewrite (Hf a kw h'), (Hf a ∅ h'). unfold run.
  by destruct (result (f a (State ∅ h'))) as [[?|?] ?].
Qed.

Lemma kwargs_free_deref l : kwargs_free (deref l).
Proof. intros kw h. unfold run, deref. simpl. by destruct (h !! l). Qed.

Lemma kwargs_free_store l o : kwargs_free (store l o).
Proof. by intros kw h. Qed.

Lemma kwargs_free_lift {A} (r : exn + A) : kwargs_free (lift r).
Proof. by destruct r. Qed.

Create HintDb free discriminated.
#[export] Hint Resolve kwargs_free_ret kwargs_free_raise kwargs_free_deref
  kwargs_free_store kwargs_free_lift : free.

Ltac free :=
  repeat first
    [ match goal with |- ∀ _, _ => intro end
    | solve [eauto with free]
    | apply kwargs_free_bind
    | match goal with
      | |- kwargs_free (match ?x with _ => _ end) => destruct x
      | |- kwargs_free (if ?x then _ else _) => destruct x
      end ].

Lemma kwargs_free_contains sep x : kwargs_free (contains sep x).
Proof. unfold contains. free. Qed.

Lemma kwargs_free_split x sep : kwargs_free (split x sep).
Proof. unfold split. free. Qed.

Lemma kwargs_free_unpack2 xs : kwargs_free (unpack2 xs).
Proof. unfold unpack2. free. Qed.

Lemma kwargs_free_getitem x k : kwargs_free (getitem x k).
Proof. unfold getitem. free. Qed.

Lemma kwargs_free_first x : kwargs_free (first x).
Proof. unfold first. free. Qed.

Lemma kwargs_free_setitem x k v : kwargs_free (setitem x k v).
Proof. unfold setitem. free. Qed.

Lemma kwargs_free_truthy x : kwargs_free (truthy x).
Proof. unfold truthy. free. Qed.

Lemma kwargs_free_iter x : kwargs_free (iter x).
Proof. unfold iter. free. Qed.

Lemma kwargs_free_items x : kwargs_free (items x).
Proof. unfold items. free. Qed.

Lemma kwargs_free_on_record {A} (f : list (string * value) → exn + A) x :
  kwargs_free (on_record f x).
Proof. unfold on_record. free. Qed.

#[export] Hint Resolve kwargs_free_contains kwargs_free_split kwargs_free_unpack2
  kwargs_free_getitem kwargs_free_first kwargs_free_setitem kwargs_free_truthy
  kwargs_free_iter kwargs_free_items kwargs_free_on_record : free.

Lemma kwargs_free_comprehension {A} (f : value → M A) xs :
  (∀ x, kwargs_free (f x)) → kwargs_free (comprehension f xs).
Proof. intros Hf. induction xs; simpl; free. Qed.

Lemma kwargs_free_date_range t : kwargs_free (date_range t).
Proof. unfold date_range. free. Qed.

Lemma kwargs_free_names_of g : kwargs_free (names_of g).
Proof. unfold names_of. free. apply kwargs_free_comprehension. free. Qed.

Lemma bind_free {A B} (m : M A) (f : A → M B) kw h :
  kwargs_free m →
  (m ≫= f) (State kw h) =
  match run m h with
  | (inr a, h') => f a (State kw h')
  | (inl e, h') => Raise e (State kw h')
  end.
Proof.
  intros Hm. rewrite bind_unfold, (Hm kw h). by destruct (run m h) as [[?|?] ?].
Qed.

Lemma run_bind {A B} (m : M A) (f : A → M B) h :
  kwargs_free m →
  run (m ≫= f) h =
  match run m h with
  | (inr a, h') => run (f a) h'
  | (inl e, h') => (inl e, h')
  end.
Proof.
  intros Hm. unfold run at 1. rewrite bind_free by done.
  by destruct (run m h) as [[?|?] ?].
Qed.

Lemma run_ret {A} (a : A) h : run (mret a) h = (inr a, h).
Proof. reflexivity. Qed.

(** ** What is left in the keyword dictionary *)

Lemma get_delete_ne k k' kw : k ≠ k' → get k' (delete k kw) = get k' kw.
Proof. intros. unfold get. by rewrite lookup_delete_ne. Qed.

Lemma get_insert_ne k k' v kw : k ≠ k' → get k' (<[k := v]> kw) = get k' kw.
Proof. intros. unfold get. by rewrite lookup_insert_ne. Qed.

Lemma agree_refl kw : agree [] kw kw.
Proof. by intros k _. Qed.

Lemma agree_delete k ks kw' kw :
  agree ks kw' kw → agree (k :: ks) (delete k kw') kw.
Proof.
  intros Hkw k' Hk'. simpl in Hk'. apply orb_false_iff in Hk' as [Hne Hk'].
  apply String.eqb_neq in Hne. rewrite get_delete_ne by done. by apply Hkw.
Qed.

Lemma agree_after_genres ks kw' kw :
  agree ks kw' kw → agree ("genres" :: "genre" :: ks) (after_genres kw') kw.
Proof.
  intros Hkw k' Hk'. simpl in Hk'.
  apply orb_false_iff in Hk' as [Hne1 Hk']. apply orb_false_iff in Hk' as [Hne2 Hk'].
  apply String.eqb_neq in Hne1, Hne2. unfold after_genres.
  destruct (get "genre" kw'); rewrite ?get_delete_ne by done; by apply Hkw.
Qed.

Lemma agree_chosen_genres ks kw' kw :
  agree ks kw' kw →
  existsb (String.eqb "genre") ks = false →
  existsb (String.eqb "genres") ks = false →
  chosen_genres kw' = chosen_genres kw.
Proof. intros Hkw H1 H2. unfold chosen_genres. by rewrite !Hkw. Qed.

Lemma genres_of_payload_bind {B} (f : value * option (list value) → M B) kw h :
  (genres_of_payload ≫= f) (State kw h) =
  match run (names_of (chosen_genres kw)) h with
  | (inr g, h') => f (chosen_genres kw, g) (State (after_genres kw) h')
  | (inl e, h') => Raise e (State (after_genres kw) h')
  end.
Proof.
  unfold genres_of_payload, chosen_genres, after_genres.
  rewrite bind_bind, bind_pop.
  destruct (get "genre" kw) eqn:Hg; rewrite bind_bind.
  1: rewrite bind_pop, get_delete_ne by done.
  2-6: rewrite bind_ret.
  all: rewrite bind_bind, bind_free by apply kwargs_free_names_of.
  all: destruct (run _ h) as [[?|?] ?]; [done|by rewrite bind_ret].
Qed.

Ltac pops :=
  repeat match goal with
  | H : agree ?ks ?kw' ?kw |- context [(pop ?k ≫= _) (State ?kw' _)] =>
      rewrite bind_pop; try rewrite (H k eq_refl); apply (agree_delete k) in H
  end.

(** ** Popping the fields is looking them up *)

Lemma Person_construct id kw h :
  construct (Person.__init__ id) kw h = (inr (Person.by_lookup id kw), h).
Proof.
  pose proof (agree_refl kw) as Hkw.
  unfold construct, Person.__init__, Person.by_lookup. pops. reflexivity.
Qed.

Section normal_forms.
Context `{!Collaborators}.

Lemma kwargs_free_for_relation k rs acc : kwargs_free (for_relation k rs acc).
Proof. revert acc. induction rs; simpl; free. Qed.

Lemma kwargs_free_for_items fuel pos size d acc :
  kwargs_free (for_items fuel pos size d acc).
Proof.
  revert pos acc. induction fuel; intros; simpl; free.
  all: try apply kwargs_free_for_relation.
Qed.

Lemma kwargs_free_related_from x : kwargs_free (related_from x).
Proof. unfold related_from. free. all: apply kwargs_free_for_items. Qed.

Lemma kwargs_free_for_appearances f rs acc :
  kwargs_free (for_appearances f rs acc).
Proof. revert acc. induction rs; simpl; free. Qed.

Lemma kwargs_free_appearances_from f raw :
  kwargs_free (Character.appearances_from f raw).
Proof.
  unfold Character.appearances_from. free. apply kwargs_free_for_appearances.
Qed.

Lemma kwargs_free_author_from authors : kwargs_free (Manga.author_from authors).
Proof. unfold Manga.author_from. free. Qed.

Lemma related_of_payload_bind {B} (f : value * list reference → M B) kw h :
  (related_of_payload ≫= f) (State kw h) =
  match run (related_from (get "related" kw)) h with
  | (inr r, h') => f (get "related" kw, r) (State (delete "related" kw) h')
  | (inl e, h') => Raise e (State (delete "related" kw) h')
  end.
Proof.
  unfold related_of_payload. rewrite bind_bind, bind_pop.
  rewrite bind_bind, bind_free by apply kwargs_free_related_from.
  destruct (run _ h) as [[?|?] ?]; [done|by rewrite bind_ret].
Qed.

Lemma Anime_construct : by_parts Anime.__init__ Anime.of_parts Anime.parts.
Proof.
  intros id kw h. pose proof (agree_refl kw) as Hkw.
  unfold construct, run, Anime.__init__, Anime.parts.
  pops.
  rewrite !(bind_free (date_range _)) by apply kwargs_free_date_range.
  destruct (run (date_range _) h) as [[e|[s e]] h1]; [reflexivity|].
  pops.
  rewrite genres_of_payload_bind, (agree_chosen_genres _ _ _ Hkw eq_refl eq_refl).
  apply agree_after_genres in Hkw.
  rewrite !(bind_free (names_of _)) by apply kwargs_free_names_of.
  destruct (run (names_of _) h1) as [[?|g] h2]; [reflexivity|].
  pops.
  rewrite related_of_payload_bind, (Hkw "related" eq_refl).
  rewrite !(bind_free (related_from _)) by apply kwargs_free_related_from.
  destruct (run (related_from _) h2) as [[?|g'] h3]; reflexivity.
Qed.

Lemma Manga_construct : by_parts Manga.__init__ Manga.of_parts Manga.parts.
Proof.
  intros id kw h. pose proof (agree_refl kw) as Hkw.
  unfold construct, run, Manga.__init__, Manga.parts.
  pops.
  rewrite !(bind_free (date_range _)) by apply kwargs_free_date_range.
  destruct (run (date_range _) h) as [[e|[s e]] h1]; [reflexivity|].
  pops.
  rewrite !(bind_free (Manga.author_from _)) by apply kwargs_free_author_from.
  destruct (run (Manga.author_from _) h1) as [[?|[a r]] h2]; [reflexivity|].
  rewrite genres_of_payload_bind, (agree_chosen_genres _ _ _ Hkw eq_refl eq_refl).
  apply agree_after_genres in Hkw.
  rewrite !(bind_free (names_of _)) by apply kwargs_free_names_of.
  destruct (run (names_of _) h2) as [[?|g] h3]; [reflexivity|].
  pops.
  rewrite !(bind_free (first _)) by apply kwargs_free_first.
  destruct (run (first _) h3) as [[?|ser] h4]; [reflexivity|].
  pops.
  rewrite related_of_payload_bind, (Hkw "related" eq_refl).
  rewrite !(bind_free (related_from _)) by apply kwargs_free_related_from.
  destruct (run (related_from _) h4) as [[?|g'] h5]; reflexivity.
Qed.

Lemma Character_construct :
  by_parts Character.__init__ Character.of_parts Character.parts.
Proof.
  intros id kw h. pose proof (agree_refl kw) as Hkw.
  unfold construct, run, Character.__init__, Character.parts.
  pops.
  rewrite !(bind_free (Character.appearances_from _ _))
    by apply kwargs_free_appearances_from.
  destruct (run (Character.appearances_from _ _) h) as [[?|a] h1]; [reflexivity|].
  pops.
  rewrite !(bind_free (Character.appearances_from _ _))
    by apply kwargs_free_appearances_from.
  destruct (run (Character.appearances_from _ _) h1) as [[?|m] h2]; [reflexivity|].
  pops. reflexivity.
Qed.

End normal_forms.


(** ** Strings *)

Lemma append_nil y : "" +:+ y = y.
Proof. reflexivity. Qed.

Lemma append_cons c x y : String c x +:+ y = String c (x +:+ y).
Proof. reflexivity. Qed.

Lemma startswith_app p x y :
  (String.length p ≤ String.length x)%nat →
  startswith p (x +:+ y) = startswith p x.
Proof.
  revert x. induction p as [|a p IH]; intros [|b x] Hlen;
    rewrite ?append_cons; simpl in *; try done.
  - lia.
  - destruct (Ascii.eqb a b); [apply IH; lia|done].
Qed.

Lemma startswith_self p y : startswith p (p +:+ y) = true.
Proof.
  induction p as [|a p IH]; [done|].
  rewrite append_cons. simpl. by rewrite Ascii.eqb_refl.
Qed.

Lemma skip_app p y : skip (String.length p) (p +:+ y) = y.
Proof. induction p as [|a p IH]; [by destruct y|exact IH]. Qed.

Lemma length_app x y :
  String.length (x +:+ y) = String.length x + String.length y.
Proof. induction x; rewrite ?append_cons; simpl; [done|by f_equal]. Qed.

Lemma append_assoc x y z : (x +:+ y) +:+ z = x +:+ (y +:+ z).
Proof. induction x; rewrite ?append_cons; [done|by f_equal]. Qed.

(** The first occurrence of [" to "] in [a +:+ " to " +:+ b] is the one after
    [a] when none starts earlier, that is when [a +:+ " to"] has none. *)
Lemma partition_first a b :
  str_contains " to " (a +:+ " to") = false →
  partition " to " (a +:+ " to " +:+ b) = Some (a, b).
Proof.
  unfold str_contains. induction a as [|c a IH]; intros Hno.
  - reflexivity.
  - rewrite append_cons in Hno |- *. cbn [partition] in Hno |- *.
    replace (String c (a +:+ " to " +:+ b))
      with (String c (a +:+ " to") +:+ (" " +:+ b))
      by (rewrite append_cons, append_assoc; reflexivity).
    rewrite startswith_app
      by (cbn [String.length]; rewrite length_app; cbn [String.length]; lia).
    destruct (startswith " to " (String c (a +:+ " to"))); [done|].
    destruct (partition " to " (a +:+ " to")) as [[??]|] eqn:Hp; [done|].
    by rewrite IH.
Qed.

Lemma startswith_length p s :
  startswith p s = true →
  String.length s = String.length p + String.length (skip (String.length p) s).
Proof.
  revert s. induction p as [|x p IH]; intros [|y s]; simpl; try done.
  destruct (Ascii.eqb x y); [|done]. intros Hs. by rewrite (IH s).
Qed.

Lemma partition_length sep s a b :
  partition sep s = Some (a, b) →
  String.length s = String.length a + String.length sep + String.length b.
Proof.
  revert a b. induction s as [|c s IH]; intros a b; cbn [partition].
  - destruct (startswith sep "") eqn:Hs; [|done].
    intros [= <- <-]. by apply startswith_length in Hs.
  - destruct (startswith sep (String c s)) eqn:Hs.
    + intros [= <- <-]. by apply startswith_length in Hs.
    + destruct (partition sep s) as [[a' b']|]; [|done].
      intros [= <- <-]. simpl. by rewrite (IH a' b').
Qed.

(** The budget of [str_split] is enough: a larger one gives the same parts. *)
Lemma split_upto_enough sep n s :
  sep ≠ EmptyString → (String.length s ≤ n)%nat →
  split_upto n sep s = str_split sep s.
Proof.
  intros Hsep. unfold str_split.
  assert (∀ m s, (String.length s ≤ m)%nat → ∀ n, (String.length s ≤ n)%nat →
          split_upto n sep s = split_upto m sep s) as Hgen.
  { clear n s. induction m as [|m IH]; intros s Hm n Hn.
    - destruct s; [|simpl in Hm; lia]. destruct n; simpl; [done|].
      destruct sep; [done|]. reflexivity.
    - destruct n as [|n].
      + destruct s; [|simpl in Hn; lia]. simpl. destruct sep; [done|]. reflexivity.
      + simpl. destruct (partition sep s) as [[a b]|] eqn:Hp; [|done].
        apply partition_length in Hp. f_equal.
        assert (0 < String.length sep)%nat by (destruct sep; [done|simpl; lia]).
        apply IH; lia. }
  intros Hn. by apply Hgen.
Qed.

Lemma str_split_two a b :
  partition " to " (a +:+ " to " +:+ b) = Some (a, b) →
  str_contains " to " b = false →
  str_split " to " (a +:+ " to " +:+ b) = [a; b].
Proof.
  intros Hp Hb. unfold str_split.
  rewrite length_app. simpl String.length. rewrite Nat.add_succ_r.
  cbn [split_upto]. rewrite Hp. f_equal.
  unfold str_contains in Hb.
  destruct (String.length a + _); simpl; [done|].
  by destruct (partition " to " b).
Qed.

(** ** Computations that only read *)

Lemma read_only_ret {A} (a : A) : read_only (mret a).
Proof. by intros σ. Qed.

Lemma read_only_raise {A} e : read_only (@raise A e).
Proof. by intros σ. Qed.

Lemma read_only_bind {A B} (m : M A) (f : A → M B) :
  read_only m → (∀ a, read_only (f a)) → read_only (m ≫= f).
Proof.
  intros Hm Hf σ. rewrite bind_unfold. specialize (Hm σ).
  destruct (m σ) as [a σ'|e σ']; simpl in Hm; subst; [apply Hf|done].
Qed.

Lemma read_only_deref l : read_only (deref l).
Proof. intros σ. unfold deref. by destruct (heap σ !! l). Qed.

Lemma read_only_lift {A} (r : exn + A) : read_only (lift r).
Proof. by destruct r. Qed.

Create HintDb reads discriminated.
#[export] Hint Resolve read_only_ret read_only_raise read_only_deref
  read_only_lift : reads.

Ltac reads :=
  repeat first
    [ match goal with |- ∀ _, _ => intro end
    | solve [eauto with reads]
    | apply read_only_bind
    | match goal with
      | |- read_only (match ?x with _ => _ end) => destruct x
      | |- read_only (if ?x then _ else _) => destruct x
      end ].

Lemma read_only_contains sep x : read_only (contains sep x).
Proof. unfold contains. reads. Qed.

Lemma read_only_split x sep : read_only (split x sep).
Proof. unfold split. reads. Qed.

Lemma read_only_unpack2 xs : read_only (unpack2 xs).
Proof. unfold unpack2. reads. Qed.

Lemma read_only_getitem x k : read_only (getitem x k).
Proof. unfold getitem. reads. Qed.

Lemma read_only_first x : read_only (first x).
Proof. unfold first. reads. Qed.

Lemma read_only_truthy x : read_only (truthy x).
Proof. unfold truthy. reads. Qed.

Lemma read_only_iter x : read_only (iter x).
Proof. unfold iter. reads. Qed.

Lemma read_only_items x : read_only (items x).
Proof. unfold items. reads. Qed.

Lemma read_only_on_record {A} (f : list (string * value) → exn + A) x :
  read_only (on_record f x).
Proof. unfold on_record. reads. Qed.

#[export] Hint Resolve read_only_contains read_only_split read_only_unpack2
  read_only_getitem read_only_first read_only_truthy read_only_iter
  read_only_items read_only_on_record : reads.

Lemma read_only_comprehension {A} (f : value → M A) xs :
  (∀ x, read_only (f x)) → read_only (comprehension f xs).
Proof. intros Hf. induction xs; simpl; reads. Qed.

Lemma read_only_date_range t : read_only (date_range t).
Proof. unfold date_range. reads. Qed.

Lemma read_only_names_of g : read_only (names_of g).
Proof. unfold names_of. reads. apply read_only_comprehension. reads. Qed.

Lemma read_only_run {A} (m : M A) h r h' :
  read_only m → run m h = (r, h') → h' = h.
Proof.
  intros Hm. unfold run. specialize (Hm (State ∅ h)).
  destruct (m (State ∅ h)); simpl in *; subst; by intros [= _ <-].
Qed.

(** ** The date range *)

Lemma date_range_split a b σ :
  str_contains " to " (a +:+ " to") = false →
  str_contains " to " b = false →
  date_range (VStr (a +:+ " to " +:+ b)) σ = Ok (VStr a, VStr b) σ.
Proof.
  intros Ha Hb. pose proof (partition_first a b Ha) as Hp.
  unfold date_range, contains. rewrite bind_ret.
  unfold str_contains. rewrite Hp. cbn [negb].
  unfold split. rewrite bind_ret, (str_split_two a b) by done. reflexivity.
Qed.

Lemma date_range_whole s σ :
  str_contains " to " s = false →
  date_range (VStr s) σ = Ok (VStr s, VNone) σ.
Proof.
  intros Hs. unfold date_range, contains. rewrite bind_ret, Hs. reflexivity.
Qed.

Lemma date_range_none σ : date_range VNone σ = Raise TypeError σ.
Proof. reflexivity. Qed.

(** ** Annotated dictionaries and framed stores *)

Lemma dict_get_set_ne k k' v d :
  k ≠ k' → dict_get k' (dict_set k v d) = dict_get k' d.
Proof.
  intros Hne. induction d as [|[k0 v0] d IH]; simpl.
  - destruct (String.eqb_spec k' k); congruence.
  - destruct (String.eqb_spec k k0) as [->|]; simpl.
    + destruct (String.eqb_spec k' k0); congruence.
    + by rewrite IH.
Qed.

Lemma dict_get_set_eq k v d : dict_get k (dict_set k v d) = Some v.
Proof.
  induction d as [|[k0 v0] d IH]; simpl.
  - by rewrite String.eqb_refl.
  - destruct (String.eqb_spec k k0) as [->|Hne]; simpl.
    + by rewrite String.eqb_refl.
    + by destruct (String.eqb_spec k k0).
Qed.

Lemma dict_set_set k v v' d : dict_set k v' (dict_set k v d) = dict_set k v' d.
Proof.
  induction d as [|[k0 v0] d IH]; simpl.
  - by rewrite String.eqb_refl.
  - destruct (String.eqb_spec k k0) as [->|Hne]; simpl.
    + by rewrite String.eqb_refl.
    + destruct (String.eqb_spec k k0); [done|]. by rewrite IH.
Qed.

Lemma annotated_trans ks d1 d2 d3 :
  annotated ks d1 d2 → annotated ks d2 d3 → annotated ks d1 d3.
Proof. intros H12 H23. induction H23; eauto using annotated_set. Qed.

Lemma annotated_mono ks ks' d d' :
  ks ⊆ ks' → annotated ks d d' → annotated ks' d d'.
Proof.
  intros Hks Hd. induction Hd; [constructor|].
  apply annotated_set; [by apply Hks|done].
Qed.

Lemma annotated_get ks k d d' :
  annotated ks d d' → k ∉ ks → dict_get k d' = dict_get k d.
Proof.
  intros Hd Hk. induction Hd as [|d d' k' v Hk' Hd IH]; [done|].
  rewrite dict_get_set_ne; [done|]. by intros ->.
Qed.

Lemma frame_refl ks h : frame ks h h.
Proof.
  intros l. destruct (h !! l) as [[d|xs]|]; [|done..].
  exists d. split; [done|constructor].
Qed.

Lemma frame_trans ks h1 h2 h3 :
  frame ks h1 h2 → frame ks h2 h3 → frame ks h1 h3.
Proof.
  intros H12 H23 l. specialize (H12 l). specialize (H23 l).
  destruct (h1 !! l) as [[d|xs]|].
  - destruct H12 as (d2 & Hd2 & Ha). rewrite Hd2 in H23.
    destruct H23 as (d3 & Hd3 & Ha'). exists d3. eauto using annotated_trans.
  - by rewrite H12 in H23.
  - by rewrite H12 in H23.
Qed.

Lemma frame_mono ks ks' h h' : ks ⊆ ks' → frame ks h h' → frame ks' h h'.
Proof.
  intros Hks Hf l. specialize (Hf l). destruct (h !! l) as [[d|xs]|]; [|done..].
  destruct Hf as (d' & Hd' & Ha). eauto using annotated_mono.
Qed.

Lemma frame_list ks h h' l xs :
  frame ks h h' → h' !! l = Some (OList xs) ↔ h !! l = Some (OList xs).
Proof.
  intros Hf. specialize (Hf l). destruct (h !! l) as [[d|ys]|].
  - destruct Hf as (d' & -> & _). split; by intros.
  - by rewrite Hf.
  - by rewrite Hf.
Qed.

Lemma frame_dict ks h h' l d' :
  frame ks h h' → h' !! l = Some (ODict d') →
  ∃ d, h !! l = Some (ODict d) ∧ annotated ks d d'.
Proof.
  intros Hf Hl. specialize (Hf l). destruct (h !! l) as [[d|ys]|].
  - destruct Hf as (d0 & Hd0 & Ha). exists d. split; [done|congruence].
  - congruence.
  - congruence.
Qed.

Lemma frame_dict_fwd ks h h' l d :
  frame ks h h' → h !! l = Some (ODict d) →
  ∃ d', h' !! l = Some (ODict d') ∧ annotated ks d d'.
Proof. intros Hf Hl. specialize (Hf l). by rewrite Hl in Hf. Qed.

Lemma frame_name_in ks h h' g n :
  "name" ∉ ks → frame ks h h' → name_in h' g n → name_in h g n.
Proof.
  intros Hks Hf (r & d' & -> & Hr & Hn).
  destruct (frame_dict _ _ _ _ _ Hf Hr) as (d & Hd & Ha).
  exists r, d. split_and!; [done..|].
  by rewrite <- (annotated_get ks "name" d d').
Qed.

Lemma frames_mono {A} ks ks' (m : M A) : ks ⊆ ks' → frames ks m → frames ks' m.
Proof. intros Hks Hm σ. eapply frame_mono; [done|apply Hm]. Qed.

Lemma frames_read_only {A} ks (m : M A) : read_only m → frames ks m.
Proof. intros Hm σ. rewrite Hm. apply frame_refl. Qed.

Lemma frames_bind {A B} ks (m : M A) (f : A → M B) :
  frames ks m → (∀ a, frames ks (f a)) → frames ks (m ≫= f).
Proof.
  intros Hm Hf σ. rewrite bind_unfold. specialize (Hm σ).
  destruct (m σ) as [a σ'|e σ']; simpl in *; [|done].
  eapply frame_trans; [done|apply Hf].
Qed.

Lemma frames_pop ks k : frames ks (pop k).
Proof. intros σ. apply frame_refl. Qed.

Lemma frames_setitem ks x k v : k ∈ ks → frames ks (setitem x k v).
Proof.
  intros Hk [kw h]. destruct x as [| | | | |l]; try apply frame_refl.
  unfold setitem. rewrite bind_unfold. unfold deref. simpl.
  destruct (h !! l) as [[d|xs]|] eqn:Hl; simpl; try apply frame_refl.
  intros l'. destruct (decide (l' = l)) as [->|Hne].
  - rewrite Hl, lookup_insert_eq. eexists. split; [done|].
    apply annotated_set; [done|constructor].
  - rewrite lookup_insert_ne by done. apply frame_refl.
Qed.

Create HintDb frames discriminated.
#[export] Hint Resolve frames_pop : frames.
#[export] Hint Extern 5 (frames _ _) =>
  (apply frames_read_only; solve [eauto with reads]) : frames.
#[export] Hint Extern 5 (frames _ (setitem _ _ _)) =>
  (apply frames_setitem; set_solver) : frames.

Ltac frames :=
  repeat first
    [ match goal with |- ∀ _, _ => intro end
    | solve [eauto with frames]
    | apply frames_bind
    | match goal with
      | |- frames _ (match ?x with _ => _ end) => destruct x
      | |- frames _ (if ?x then _ else _) => destruct x
      end ].

Lemma frames_date_range ks t : frames ks (date_range t).
Proof. apply frames_read_only, read_only_date_range. Qed.

Lemma frames_names_of ks g : frames ks (names_of g).
Proof. apply frames_read_only, read_only_names_of. Qed.

#[export] Hint Resolve frames_date_range frames_names_of : frames.

Lemma frames_run {A} ks (m : M A) h : frames ks m → frame ks h (run m h).2.
Proof.
  intros Hm. specialize (Hm (State ∅ h)). unfold run.
  by destruct (m (State ∅ h)).
Qed.

Section framed.
Context `{!Collaborators}.

Lemma frames_for_relation k rs acc :
  frames ["relation"] (for_relation k rs acc).
Proof. revert acc. induction rs; simpl; frames. Qed.

#[local] Hint Resolve frames_for_relation : frames.

Lemma frames_for_items fuel pos size d acc :
  frames ["relation"] (for_items fuel pos size d acc).
Proof. revert pos acc. induction fuel; intros; simpl; frames. Qed.

#[local] Hint Resolve frames_for_items : frames.

Lemma frames_related_from x : frames ["relation"] (related_from x).
Proof. unfold related_from. frames. Qed.

Lemma frames_for_appearances f rs acc :
  frames ["id"] (for_appearances f rs acc).
Proof. revert acc. induction rs; simpl; frames. Qed.

#[local] Hint Resolve frames_for_appearances : frames.

Lemma frames_appearances_from f raw :
  frames ["id"] (Character.appearances_from f raw).
Proof. unfold Character.appearances_from. frames. Qed.

Lemma frames_author_from authors : frames ["id"] (Manga.author_from authors).
Proof. unfold Manga.author_from. frames. Qed.

#[local] Hint Resolve frames_related_from frames_appearances_from : frames.

Lemma frames_Anime_parts kw : frames ["relation"] (Anime.parts kw).
Proof. unfold Anime.parts. frames. Qed.

Lemma frames_Manga_author authors :
  frames ["id"; "relation"] (Manga.author_from authors).
Proof.
  eapply frames_mono; [|apply frames_author_from].
  intros k Hk. apply list_elem_of_singleton in Hk as ->. by left.
Qed.

Lemma frames_Manga_related x : frames ["id"; "relation"] (related_from x).
Proof.
  eapply frames_mono; [|apply frames_related_from].
  intros k Hk. apply list_elem_of_singleton in Hk as ->. right. by left.
Qed.

#[local] Hint Resolve frames_Manga_author frames_Manga_related : frames.

Lemma frames_Manga_parts kw : frames ["id"; "relation"] (Manga.parts kw).
Proof. unfold Manga.parts. frames. Qed.

Lemma frames_Character_parts kw : frames ["id"] (Character.parts kw).
Proof. unfold Character.parts. frames. Qed.

Lemma by_parts_heap {A P} (init : value → M A) of_parts (parts : _ → M P) id kw h :
  by_parts init of_parts parts →
  (construct (init id) kw h).2 = (run (parts kw) h).2.
Proof. intros ->. by destruct (run (parts kw) h) as [[?|?] ?]. Qed.

End framed.

(** ** Running the normalisations in sequence *)

Lemma run_bind_ok {A B} (m : M A) (f : A → M B) h b h' :
  kwargs_free m →
  run (m ≫= f) h = (inr b, h') →
  ∃ a h1, run m h = (inr a, h1) ∧ run (f a) h1 = (inr b, h').
Proof.
  intros Hm. rewrite run_bind by done.
  destruct (run m h) as [[e|a] h1]; [done|]. eauto.
Qed.

Lemma run_bind_raise {A B} (m : M A) (f : A → M B) h e h1 :
  kwargs_free m → run m h = (inl e, h1) → run (m ≫= f) h = (inl e, h1).
Proof. intros Hm Hr. by rewrite run_bind, Hr. Qed.

Lemma run_date_range t h r h' :
  run (date_range t) h = (r, h') → h' = h.
Proof. apply read_only_run, read_only_date_range. Qed.

Lemma run_names_of g h r h' :
  run (names_of g) h = (r, h') → h' = h.
Proof. apply read_only_run, read_only_names_of. Qed.

Lemma run_first x h r h' : run (first x) h = (r, h') → h' = h.
Proof. apply read_only_run, read_only_first. Qed.

Lemma by_parts_ok {A P} (init : value → M A) of_parts (parts : _ → M P)
    id kw h x h' :
  by_parts init of_parts parts →
  construct (init id) kw h = (inr x, h') →
  ∃ p, run (parts kw) h = (inr p, h') ∧ x = of_parts id kw p.
Proof.
  intros ->. destruct (run (parts kw) h) as [[e|p] h1]; [done|].
  intros [= <- <-]. eauto.
Qed.

Lemma by_parts_raise {A P} (init : value → M A) of_parts (parts : _ → M P)
    id kw h e h' :
  by_parts init of_parts parts →
  run (parts kw) h = (inl e, h') →
  construct (init id) kw h = (inl e, h').
Proof. by intros -> ->. Qed.

(** Omitting a field that is only stored neither makes the call fail nor
    leaves anything but [None] in its attribute. *)
Lemma by_parts_optional {A P} (init : value → M A) of_parts (parts : _ → M P)
    (k : string) (proj : A → value) id kw h :
  by_parts init of_parts parts →
  (∀ v, parts (<[k := v]> kw) = parts kw) →
  (∀ p, proj (of_parts id kw p) = get k kw) →
  kw !! k = None →
  (∀ v, constructs (construct (init id) (<[k := v]> kw) h) →
        constructs (construct (init id) kw h)) ∧
  (∀ x h', construct (init id) kw h = (inr x, h') → proj x = VNone).
Proof.
  intros Hinit Hparts Hproj Hk. split.
  - intros v. rewrite !Hinit, Hparts.
    destruct (run (parts kw) h) as [[e|p] h1]; intros [x Hx]; [done|].
    by eexists.
  - intros x h' Hx. apply (by_parts_ok _ _ _ _ _ _ _ _ Hinit) in Hx as (p & _ & ->).
    rewrite Hproj. unfold get. by rewrite Hk.
Qed.

Lemma chosen_genres_insert_ne k v kw :
  k ≠ "genre" → k ≠ "genres" →
  chosen_genres (<[k := v]> kw) = chosen_genres kw.
Proof. intros. unfold chosen_genres. by rewrite !get_insert_ne. Qed.

(** ** The names of the genres *)

Lemma run_getitem_ok x k h v h' :
  run (getitem x k) h = (inr v, h') →
  ∃ r d, x = VRef r ∧ h !! r = Some (ODict d) ∧ dict_get k d = Some v.
Proof.
  unfold run, getitem. destruct x as [| | | | |r]; try done.
  rewrite bind_unfold. unfold deref. cbn [heap].
  destruct (h !! r) as [o|] eqn:Hl; [|done].
  destruct o as [d|xs]; [|done].
  destruct (dict_get k d) as [v'|] eqn:Hk; [|done].
  intros Heq. injection Heq as Hv Hh. subst. by exists r, d.
Qed.

Lemma comprehension_names gs h names h' :
  run (comprehension (λ g, getitem g "name") gs) h = (inr names, h') →
  Forall2 (name_in h) gs names.
Proof.
  revert names. induction gs as [|g gs IH]; intros names; simpl.
  - rewrite run_ret. intros Hr. injection Hr as Hn Hh. subst names h'.
    constructor.
  - intros Hr. apply run_bind_ok in Hr as (n & h1 & Hg & Hr); [|eauto with free].
    pose proof (read_only_run _ _ _ _ (read_only_getitem _ _) Hg) as Heq; subst h1.
    apply run_bind_ok in Hr as (ns & h2 & Hgs & Hr);
      [|apply kwargs_free_comprehension; eauto with free].
    pose proof (read_only_run _ _ _ _
      (read_only_comprehension _ _ (λ x, read_only_getitem x _)) Hgs) as Heq; subst h2.
    rewrite run_ret in Hr. injection Hr as Hn Hh. subst names h'.
    constructor; [|by apply IH].
    by apply run_getitem_ok in Hg.
Qed.

Lemma names_of_none h : run (names_of VNone) h = (inr None, h).
Proof. reflexivity. Qed.

Lemma names_of_empty l h :
  h !! l = Some (OList []) → run (names_of (VRef l)) h = (inr None, h).
Proof.
  intros Hl. unfold run, names_of, truthy.
  rewrite bind_bind, bind_unfold. unfold deref. simpl. by rewrite Hl.
Qed.

Lemma names_of_list l gs h r h' :
  h !! l = Some (OList gs) → gs ≠ [] →
  run (names_of (VRef l)) h = (inr r, h') →
  ∃ names, r = Some names ∧ Forall2 (name_in h) gs names.
Proof.
  intros Hl Hgs. unfold run at 1, names_of, truthy.
  rewrite bind_bind, bind_unfold. unfold deref at 1. cbn [heap].
  rewrite Hl, bind_ret.
  rewrite bool_decide_eq_false_2 by done. cbn [negb].
  unfold iter. rewrite bind_bind, bind_unfold. unfold deref at 1. cbn [heap].
  rewrite Hl, bind_ret. intros Hr.
  change (run (names ← comprehension (λ g, getitem g "name") gs; mret (Some names)) h
          = (inr r, h')) in Hr.
  apply run_bind_ok in Hr as (ns & h2 & Hns & Hr);
    [|apply kwargs_free_comprehension; eauto with free].
  rewrite run_ret in Hr. injection Hr as Hn Hh. subst r h'.
  exists ns. split; [done|]. by eapply comprehension_names.
Qed.

(** What the constructors make of the raw genres [g] read in the store [h]. *)
Lemma genres_spec g h r h' :
  run (names_of g) h = (inr r, h') →
  (g = VNone → r = None) ∧
  (∀ l, g = VRef l → h !! l = Some (OList []) → r = None) ∧
  (∀ l gs, g = VRef l → h !! l = Some (OList gs) → gs ≠ [] →
     ∃ names, r = Some names ∧ Forall2 (name_in h) gs names).
Proof.
  intros Hr. split_and!.
  - intros ->. rewrite names_of_none in Hr. by simplify_eq.
  - intros l -> Hl. rewrite names_of_empty in Hr by done. by simplify_eq.
  - intros l gs -> Hl Hgs. by eapply names_of_list.
Qed.

Section parts.
Context `{!Collaborators}.

Lemma Anime_parts_ok kw h p h' :
  run (Anime.parts kw) h = (inr p, h') →
  ∃ d g r,
    run (date_range (get "aired_string" kw)) h = (inr d, h) ∧
    run (names_of (chosen_genres kw)) h = (inr g, h) ∧
    run (related_from (get "related" kw)) h = (inr r, h') ∧
    p = (d, g, r).
Proof.
  unfold Anime.parts. intros Hr.
  apply run_bind_ok in Hr as (d & h1 & Hd & Hr); [|apply kwargs_free_date_range].
  pose proof (run_date_range _ _ _ _ Hd) as Heq; subst h1.
  apply run_bind_ok in Hr as (g & h2 & Hg & Hr); [|apply kwargs_free_names_of].
  pose proof (run_names_of _ _ _ _ Hg) as Heq; subst h2.
  apply run_bind_ok in Hr as (r & h3 & Hrel & Hr); [|apply kwargs_free_related_from].
  rewrite run_ret in Hr. injection Hr as Hp Hh. subst p h'. by exists d, g, r.
Qed.

Lemma Manga_parts_ok kw h p h' :
  run (Manga.parts kw) h = (inr p, h') →
  ∃ d a g s r h1,
    run (date_range (get "published_string" kw)) h = (inr d, h) ∧
    run (Manga.author_from (get "author" kw)) h = (inr a, h1) ∧
    run (names_of (chosen_genres kw)) h1 = (inr g, h1) ∧
    run (first (get "serialization" kw)) h1 = (inr s, h1) ∧
    run (related_from (get "related" kw)) h1 = (inr r, h') ∧
    p = (d, a, g, s, r).
Proof.
  unfold Manga.parts. intros Hr.
  apply run_bind_ok in Hr as (d & h0 & Hd & Hr); [|apply kwargs_free_date_range].
  pose proof (run_date_range _ _ _ _ Hd) as Heq; subst h0.
  apply run_bind_ok in Hr as (a & h1 & Ha & Hr); [|apply kwargs_free_author_from].
  apply run_bind_ok in Hr as (g & h2 & Hg & Hr); [|apply kwargs_free_names_of].
  pose proof (run_names_of _ _ _ _ Hg) as Heq; subst h2.
  apply run_bind_ok in Hr as (s & h3 & Hs & Hr); [|apply kwargs_free_first].
  pose proof (run_first _ _ _ _ Hs) as Heq; subst h3.
  apply run_bind_ok in Hr as (r & h4 & Hrel & Hr); [|apply kwargs_free_related_from].
  rewrite run_ret in Hr. injection Hr as Hp Hh. subst p h'.
  by exists d, a, g, s, r, h1.
Qed.


End parts.

(** * The claims *)

(** ** The date range *)

(** ** The binding of the payload to the parameters *)

Lemma unbound_binds ps kw : unbound ps kw → binds ps kw = false.
Proof.
  unfold unbound, binds. induction 1 as [|p ps Hp _ IH]; [done|].
  cbn [existsb]. rewrite IH, Hp. by rewrite bool_decide_eq_false_2 by by inversion 1.
Qed.

Lemma binds_unbound ps kw : binds ps kw = false → unbound ps kw.
Proof.
  unfold unbound, binds. induction ps as [|p ps IH]; [by constructor|].
  cbn [existsb]. intros [Hp Hps]%orb_false_elim. constructor; [|by apply IH].
  apply bool_decide_eq_false_1 in Hp. by apply eq_None_not_Some.
Qed.

Lemma call_unbound {A} ps (init : M A) kw h :
  unbound ps kw → call ps init kw h = construct init kw h.
Proof. intros Hu. unfold call. by rewrite unbound_binds. Qed.

Lemma call_bound {A} ps (init : M A) kw h :
  ¬ unbound ps kw → call ps init kw h = (inl TypeError, h).
Proof.
  intros Hu. unfold call. destruct (binds ps kw) eqn:Hb; [done|].
  by apply binds_unbound in Hb.
Qed.

Lemma call_returns {A} ps (init : M A) kw h x h' :
  call ps init kw h = (inr x, h') →
  unbound ps kw ∧ construct init kw h = (inr x, h').
Proof.
  unfold call. destruct (binds ps kw) eqn:Hb; [done|].
  intros Hx. split; [by apply binds_unbound|done].
Qed.

Lemma call_raises {A} ps (init : M A) kw h e h' :
  unbound ps kw → construct init kw h = (inl e, h') →
  call ps init kw h = (inl e, h').
Proof. intros Hu Hx. by rewrite call_unbound. Qed.

Ltac sample_unbound :=
  unfold unbound, Anime_parameters, Manga_parameters, Character_parameters,
    Person_parameters;
  repeat (apply Forall_cons_2; [vm_compute; reflexivity|]);
  apply Forall_nil_2.

Lemma unbound_insert ps k v kw : unbound ps (<[k := v]> kw) → unbound ps kw.
Proof.
  unfold unbound. intros Hu. eapply Forall_impl; [exact Hu|].
  intros p Hp. by apply lookup_insert_None in Hp as [? _].
Qed.

Section dates.
Context `{!Collaborators}.

(** C1 (as amended).  The date-range block itself returns: for a string
    [a +:+ " to " +:+ b] in which the separator occurs after [a] for the
    first time and does not occur again in [b], the start is [a] and the
    end is [b]; for a string without the separator the start is the whole
    string and the end is None.  Whenever [Anime.__init__] (resp.
    [Manga.__init__]) returns an object for a payload whose ['aired_string']
    (resp. ['published_string']) is such a string, its [air_start] and
    [air_end] (resp. [publish_start] and [publish_end]) are these values. *)
Theorem C1_date_range_start_and_end (id : value) (kw : gmap string value)
    (h : gmap loc object) (time : string) :
  (∀ σ,
     (∀ a b, time = a +:+ " to " +:+ b →
        str_contains " to " (a +:+ " to") = false →
        str_contains " to " b = false →
        date_range (VStr time) σ = Ok (VStr a, VStr b) σ) ∧
     (str_contains " to " time = false →
        date_range (VStr time) σ = Ok (VStr time, VNone) σ)) ∧
  (∀ x h', kw !! "aired_string" = Some (VStr time) →
     construct (Anime.__init__ id) kw h = (inr x, h') →
     (∀ a b, time = a +:+ " to " +:+ b →
        str_contains " to " (a +:+ " to") = false →
        str_contains " to " b = false →
        Anime.air_start x = VStr a ∧ Anime.air_end x = VStr b) ∧
     (str_contains " to " time = false →
        Anime.air_start x = VStr time ∧ Anime.air_end x = VNone)) ∧
  (∀ x h', kw !! "published_string" = Some (VStr time) →
     construct (Manga.__init__ id) kw h = (inr x, h') →
     (∀ a b, time = a +:+ " to " +:+ b →
        str_contains " to " (a +:+ " to") = false →
        str_contains " to " b = false →
        Manga.publish_start x = VStr a ∧ Manga.publish_end x = VStr b) ∧
     (str_contains " to " time = false →
        Manga.publish_start x = VStr time ∧ Manga.publish_end x = VNone)).
Proof.
  split_and!.
  - intros σ. split.
    + intros a b -> Ha Hb. by apply date_range_split.
    + apply date_range_whole.
  - intros x h' Hkw Hx.
    apply (by_parts_ok _ _ _ _ _ _ _ _ Anime_construct) in Hx as (p & Hp & ->).
    apply Anime_parts_ok in Hp as (d & g & r & Hd & _ & _ & ->).
    unfold get in Hd. rewrite Hkw in Hd. simpl in Hd. unfold run in Hd. split.
    + intros a b -> Ha Hb. rewrite date_range_split in Hd by done.
      injection Hd as <-. done.
    + intros Hno. rewrite date_range_whole in Hd by done.
      injection Hd as <-. done.
  - intros x h' Hkw Hx.
    apply (by_parts_ok _ _ _ _ _ _ _ _ Manga_construct) in Hx as (p & Hp & ->).
    apply Manga_parts_ok in Hp as (d & [a0 a1] & g & s & r & h1 & Hd & _ & _ & _ & _ & ->).
    unfold get in Hd. rewrite Hkw in Hd. simpl in Hd. unfold run in Hd. split.
    + intros a b -> Ha Hb. rewrite date_range_split in Hd by done.
      injection Hd as <-. done.
    + intros Hno. rewrite date_range_whole in Hd by done.
      injection Hd as <-. done.
Qed.

(** C5.  A payload without ['aired_string'] makes [Anime.__init__] raise a
    TypeError, and one without ['published_string'] makes [Manga.__init__]
    raise a TypeError: the membership test of line 107 (resp. 234) runs on
    the None the pop defaulted to.  The store is left as it was. *)
Theorem C5_absent_date_raises (id : value) (kw : gmap string value)
    (h : gmap loc object) :
  (kw !! "aired_string" = None →
     construct (Anime.__init__ id) kw h = (inl TypeError, h)) ∧
  (kw !! "published_string" = None →
     construct (Manga.__init__ id) kw h = (inl TypeError, h)).
Proof.
  split; intros Hkw.
  - apply (by_parts_raise _ _ _ _ _ _ _ _ Anime_construct).
    unfold Anime.parts. apply run_bind_raise; [apply kwargs_free_date_range|].
    unfold get. by rewrite Hkw.
  - apply (by_parts_raise _ _ _ _ _ _ _ _ Manga_construct).
    unfold Manga.parts. apply run_bind_raise; [apply kwargs_free_date_range|].
    unfold get. by rewrite Hkw.
Qed.

End dates.

(** The two strings of the spec, in a payload on which the constructor
    returns. *)
Lemma C1_witness :
  (∃ x h', construct (Anime.__init__ (VInt 1))
             (sample_anime (VStr "Apr 3, 2020 to ?") (VRef 4)) sample_store
           = (inr x, h') ∧
           Anime.air_start x = VStr "Apr 3, 2020" ∧ Anime.air_end x = VStr "?") ∧
  (∃ x h', construct (Manga.__init__ (VInt 1))
             (sample_manga (VStr "Apr 3, 2020") (VRef 4)) sample_store
           = (inr x, h') ∧
           Manga.publish_start x = VStr "Apr 3, 2020" ∧
           Manga.publish_end x = VNone).
Proof.
  split.
  - destruct (construct (Anime.__init__ (VInt 1))
                (sample_anime (VStr "Apr 3, 2020 to ?") (VRef 4)) sample_store)
      as [[e|x] h'] eqn:Hx; [vm_compute in Hx; discriminate|].
    exists x, h'. split; [reflexivity|].
    apply (proj1 (proj1 (proj2 (C1_date_range_start_and_end (VInt 1)
      (sample_anime (VStr "Apr 3, 2020 to ?") (VRef 4)) sample_store
      "Apr 3, 2020 to ?")) x h' eq_refl Hx) "Apr 3, 2020" "?"); reflexivity.
  - destruct (construct (Manga.__init__ (VInt 1))
                (sample_manga (VStr "Apr 3, 2020") (VRef 4)) sample_store)
      as [[e|x] h'] eqn:Hx; [vm_compute in Hx; discriminate|].
    exists x, h'. split; [reflexivity|].
    apply (proj2 (proj2 (proj2 (C1_date_range_start_and_end (VInt 1)
      (sample_manga (VStr "Apr 3, 2020") (VRef 4)) sample_store
      "Apr 3, 2020")) x h' eq_refl Hx)); reflexivity.
Defined.

(** C1 as stated fails: a date range in which the separator occurs twice
    makes the constructor raise a ValueError at the unpacking of lines 111
    and 238, on a payload that is accepted with a single separator. *)
Lemma C1_counterexample :
  str_contains " to " "a to b to c" = true ∧
  (construct (Anime.__init__ (VInt 1))
     (sample_anime (VStr "a to b to c") (VRef 4)) sample_store).1
  = inl ValueError ∧
  (construct (Manga.__init__ (VInt 1))
     (sample_manga (VStr "a to b to c") (VRef 4)) sample_store).1
  = inl ValueError ∧
  constructs (construct (Anime.__init__ (VInt 1))
     (sample_anime (VStr "a to b") (VRef 4)) sample_store).
Proof.
  split_and!; [vm_compute; reflexivity..|].
  destruct (construct (Anime.__init__ (VInt 1))
              (sample_anime (VStr "a to b") (VRef 4)) sample_store)
    as [[e|x] h'] eqn:Hx; [vm_compute in Hx; discriminate|].
  by exists x.
Qed.

Lemma C5_witness :
  construct (Anime.__init__ (VInt 1)) (sample_manga (VStr "2020") (VRef 4))
    sample_store = (inl TypeError, sample_store) ∧
  construct (Manga.__init__ (VInt 1)) (sample_anime (VStr "2020") (VRef 4))
    sample_store = (inl TypeError, sample_store).
Proof.
  split.
  - apply (proj1 (C5_absent_date_raises _ _ _)). reflexivity.
  - apply (proj2 (C5_absent_date_raises _ _ _)). reflexivity.
Defined.

(** ** The Person constructor *)

(** C10 (as amended).  A call of the Person constructor whose payload has
    neither ['self'] nor ['person_id'] for a key returns for every
    identifier, leaves the store as it was, and each attribute holds the
    value the payload has for its key, or None when the key is absent.  A
    payload with one of these keys is refused with a TypeError. *)
Theorem C10_person_constructor_total (person_id : value)
    (kw : gmap string value) (h : gmap loc object) :
  (unbound Person_parameters kw →
   ∃ p, call Person_parameters (Person.__init__ person_id) kw h = (inr p, h) ∧
        Person.id p = person_id ∧
        Person.link p = default VNone (kw !! "link_canonical") ∧
        Person.name p = default VNone (kw !! "name") ∧
        Person.image p = default VNone (kw !! "image_url") ∧
        Person.favorites p = default VNone (kw !! "member_favorites") ∧
        Person.anime p = default VNone (kw !! "anime_staff_position") ∧
        Person.manga p = default VNone (kw !! "published_manga") ∧
        Person.birthday p = default VNone (kw !! "birthday") ∧
        Person.more p = default VNone (kw !! "more") ∧
        Person.website p = default VNone (kw !! "website") ∧
        Person.voice_acting p = default VNone (kw !! "voice_acting_role")) ∧
  (¬ unbound Person_parameters kw →
   call Person_parameters (Person.__init__ person_id) kw h
   = (inl TypeError, h)).
Proof.
  split.
  - intros Hu. exists (Person.by_lookup person_id kw).
    split; [by rewrite call_unbound, Person_construct|]. by split_and!.
  - apply call_bound.
Qed.

(** The empty mapping. *)
Lemma C10_witness :
  ∃ p, call Person_parameters (Person.__init__ (VInt 1)) ∅ sample_store
       = (inr p, sample_store) ∧
       Person.id p = VInt 1 ∧ Person.name p = VNone ∧
       Person.website p = VNone.
Proof.
  destruct (proj1 (C10_person_constructor_total (VInt 1)
              (∅ : gmap string value) sample_store))
    as (p & Hp & Hid & _ & Hname & _ & _ & _ & _ & _ & _ & Hweb & _).
  - unfold unbound, Person_parameters.
    repeat (apply Forall_cons_2; [apply lookup_empty|]). apply Forall_nil_2.
  - exists p. split_and!; [exact Hp|exact Hid|exact Hname|exact Hweb].
Defined.

(** C10 as stated fails: a mapping with the key ['person_id'], or with the
    key ['self'], gives the parameter a second value, and the call raises a
    TypeError before the body of line 366 runs. *)
Lemma C10_counterexample :
  call Person_parameters (Person.__init__ (VInt 1))
    {[ "person_id" := VInt 7 ]} sample_store = (inl TypeError, sample_store) ∧
  call Person_parameters (Person.__init__ (VInt 1))
    {[ "self" := VInt 7 ]} sample_store = (inl TypeError, sample_store).
Proof. split; reflexivity. Qed.

(** ** Fields that default to None *)

Section optional.
Context `{!Collaborators}.

Ltac optional_field :=
  match goal with
  | H : _ ∈ _ |- _ =>
      repeat (apply elem_of_cons in H as [H|H];
              [injection H as -> ->|]);
      [..|by apply elem_of_nil in H]
  end.

Lemma Anime_optional_field k proj id kw h :
  (k, proj) ∈ Anime_optional → kw !! k = None →
  (∀ v, constructs (construct (Anime.__init__ id) (<[k := v]> kw) h) →
        constructs (construct (Anime.__init__ id) kw h)) ∧
  (∀ x h', construct (Anime.__init__ id) kw h = (inr x, h') → proj x = VNone).
Proof.
  intros Hin Hk. unfold Anime_optional in Hin. optional_field.
  all: apply (by_parts_optional _ _ _ _ _ _ _ _ Anime_construct); [|by intros [[[??]?]?]|done].
  all: intros v; unfold Anime.parts;
    by rewrite !get_insert_ne, chosen_genres_insert_ne by done.
Qed.

Lemma Manga_optional_field k proj id kw h :
  (k, proj) ∈ Manga_optional → kw !! k = None →
  (∀ v, constructs (construct (Manga.__init__ id) (<[k := v]> kw) h) →
        constructs (construct (Manga.__init__ id) kw h)) ∧
  (∀ x h', construct (Manga.__init__ id) kw h = (inr x, h') → proj x = VNone).
Proof.
  intros Hin Hk. unfold Manga_optional in Hin. optional_field.
  all: apply (by_parts_optional _ _ _ _ _ _ _ _ Manga_construct);
    [|by intros [[[[[??][??]]?]?]?]|done].
  all: intros v; unfold Manga.parts;
    by rewrite !get_insert_ne, chosen_genres_insert_ne by done.
Qed.

Lemma Character_optional_field k proj id kw h :
  (k, proj) ∈ Character_optional → kw !! k = None →
  (∀ v, constructs (construct (Character.__init__ id) (<[k := v]> kw) h) →
        constructs (construct (Character.__init__ id) kw h)) ∧
  (∀ x h', construct (Character.__init__ id) kw h = (inr x, h') →
           proj x = VNone).
Proof.
  intros Hin Hk. unfold Character_optional in Hin. optional_field.
  all: apply (by_parts_optional _ _ _ _ _ _ _ _ Character_construct);
    [|by intros [??]|done].
  all: intros v; unfold Character.parts; by rewrite !get_insert_ne by done.
Qed.

Lemma Person_optional_field k proj id kw h :
  (k, proj) ∈ Person_optional → kw !! k = None →
  ∃ p, construct (Person.__init__ id) kw h = (inr p, h) ∧ proj p = VNone.
Proof.
  intros Hin Hk. exists (Person.by_lookup id kw).
  split; [apply Person_construct|].
  unfold Person_optional in Hin. optional_field.
  all: simpl; unfold get; by rewrite Hk.
Qed.

Lemma call_optional {A} ps (init : M A) k v kw h :
  (constructs (construct init (<[k := v]> kw) h) →
   constructs (construct init kw h)) →
  constructs (call ps init (<[k := v]> kw) h) → constructs (call ps init kw h).
Proof.
  intros Himp [x Hx].
  destruct (call ps init (<[k := v]> kw) h) as [r h'] eqn:Hc.
  cbn [fst] in Hx. subst r. apply call_returns in Hc as [Hu Hc].
  rewrite (call_unbound _ _ _ _ (unbound_insert _ _ _ _ Hu)).
  apply Himp. exists x. by rewrite Hc.
Qed.

(** C2 (as amended).  Let [k] be a field the payload omits.  If [k] is one
    of the fields [Anime.__init__], [Manga.__init__] or
    [Character.__init__] only stores, then whenever the call returns an
    object the attribute of [k] is None, and the omission is not what makes
    a call fail: the call returns on the payload whenever it returns on the
    payload completed with any value for [k].  If [k] is a field of
    [Person.__init__] and the payload binds no parameter, the call returns
    and the attribute of [k] is None. *)
Theorem C2_omitted_field_is_none (id : value) (kw : gmap string value)
    (h : gmap loc object) (k : string) :
  kw !! k = None →
  (∀ proj, (k, proj) ∈ Anime_optional →
     (∀ v, constructs (call Anime_parameters (Anime.__init__ id)
                         (<[k := v]> kw) h) →
           constructs (call Anime_parameters (Anime.__init__ id) kw h)) ∧
     (∀ x h', call Anime_parameters (Anime.__init__ id) kw h = (inr x, h') →
              proj x = VNone)) ∧
  (∀ proj, (k, proj) ∈ Manga_optional →
     (∀ v, constructs (call Manga_parameters (Manga.__init__ id)
                         (<[k := v]> kw) h) →
           constructs (call Manga_parameters (Manga.__init__ id) kw h)) ∧
     (∀ x h', call Manga_parameters (Manga.__init__ id) kw h = (inr x, h') →
              proj x = VNone)) ∧
  (∀ proj, (k, proj) ∈ Character_optional →
     (∀ v, constructs (call Character_parameters (Character.__init__ id)
                         (<[k := v]> kw) h) →
           constructs (call Character_parameters (Character.__init__ id) kw h)) ∧
     (∀ x h', call Character_parameters (Character.__init__ id) kw h
              = (inr x, h') →
              proj x = VNone)) ∧
  (∀ proj, (k, proj) ∈ Person_optional →
     unbound Person_parameters kw →
     ∃ p, call Person_parameters (Person.__init__ id) kw h = (inr p, h) ∧
          proj p = VNone).
Proof.
  intros Hk. split_and!; intros proj Hin.
  - destruct (Anime_optional_field k proj id kw h Hin Hk) as [Hc Hn]. split.
    + intros v. apply call_optional, Hc.
    + intros x h' [_ Hx]%call_returns. by apply (Hn x h').
  - destruct (Manga_optional_field k proj id kw h Hin Hk) as [Hc Hn]. split.
    + intros v. apply call_optional, Hc.
    + intros x h' [_ Hx]%call_returns. by apply (Hn x h').
  - destruct (Character_optional_field k proj id kw h Hin Hk) as [Hc Hn]. split.
    + intros v. apply call_optional, Hc.
    + intros x h' [_ Hx]%call_returns. by apply (Hn x h').
  - intros Hu. rewrite (call_unbound _ _ _ _ Hu).
    exact (Person_optional_field k proj id kw h Hin Hk).
Qed.

End optional.

(** A payload without a title: the constructors return and the title, or
    the name, is None. *)
Lemma C2_witness :
  (∃ x h', call Anime_parameters (Anime.__init__ (VInt 1))
             (sample_anime (VStr "2020") (VRef 4)) sample_store = (inr x, h') ∧
           Anime.title x = VNone) ∧
  (∃ x h', call Manga_parameters (Manga.__init__ (VInt 1))
             (sample_manga (VStr "2020") (VRef 4)) sample_store = (inr x, h') ∧
           Manga.title x = VNone) ∧
  (∃ p, call Person_parameters (Person.__init__ (VInt 1)) ∅ sample_store
        = (inr p, sample_store) ∧ Person.name p = VNone).
Proof.
  split_and!.
  - destruct (call Anime_parameters (Anime.__init__ (VInt 1))
                (sample_anime (VStr "2020") (VRef 4)) sample_store)
      as [[e|x] h'] eqn:Hx; [vm_compute in Hx; discriminate|].
    exists x, h'. split; [reflexivity|].
    apply (proj2 (proj1 (C2_omitted_field_is_none (VInt 1)
      (sample_anime (VStr "2020") (VRef 4)) sample_store "title" eq_refl)
      Anime.title ltac:(by left)) x h' Hx).
  - destruct (call Manga_parameters (Manga.__init__ (VInt 1))
                (sample_manga (VStr "2020") (VRef 4)) sample_store)
      as [[e|x] h'] eqn:Hx; [vm_compute in Hx; discriminate|].
    exists x, h'. split; [reflexivity|].
    apply (proj2 (proj1 (proj2 (C2_omitted_field_is_none (VInt 1)
      (sample_manga (VStr "2020") (VRef 4)) sample_store "title" eq_refl))
      Manga.title ltac:(by left)) x h' Hx).
  - apply (proj2 (proj2 (proj2 (C2_omitted_field_is_none (VInt 1)
      (∅ : gmap string value) sample_store "name" (lookup_empty _))))
      Person.name).
    + right. left.
    + unfold unbound, Person_parameters.
      repeat (apply Forall_cons_2; [apply lookup_empty|]). apply Forall_nil_2.
Defined.

(** C2 as stated fails: the empty payload omits the title of an Anime and
    of a Manga and the name of a Character, fields of the default-to-null
    set, and the three constructors raise a TypeError on it, at the date
    range of lines 107 and 234 and at the loop of line 312. *)
Lemma C2_counterexample :
  (∅ : gmap string value) !! "title" = None ∧
  ("title", Anime.title) ∈ Anime_optional ∧
  ("title", Manga.title) ∈ Manga_optional ∧
  ("name", Character.name) ∈ Character_optional ∧
  call Anime_parameters (Anime.__init__ (VInt 1)) ∅ sample_store
  = (inl TypeError, sample_store) ∧
  call Manga_parameters (Manga.__init__ (VInt 1)) ∅ sample_store
  = (inl TypeError, sample_store) ∧
  call Character_parameters (Character.__init__ (VInt 1)) ∅ sample_store
  = (inl TypeError, sample_store).
Proof.
  split_and!; [apply lookup_empty|by left|by left|right; by left|..];
    vm_compute; reflexivity.
Qed.

(** ** Genres *)

Section genres.
Context `{!Collaborators}.

(** C3 (as amended).  The raw genres are the field ['genre'], or the field
    ['genres'] when ['genre'] is absent or null.  Whenever [Anime.__init__]
    or [Manga.__init__] returns an object, its [genres] attribute is None
    when the payload omits both fields and also when the raw genres are an
    empty list; when they are a non-empty list of records, [genres] is the
    list of the ['name'] of each record, in order. *)
Theorem C3_genres_names_or_none (id : value) (kw : gmap string value)
    (h : gmap loc object) :
  ((∀ v, kw !! "genre" = Some v → v ≠ VNone → chosen_genres kw = v) ∧
   (kw !! "genre" = None → chosen_genres kw = default VNone (kw !! "genres"))) ∧
  (∀ x h', construct (Anime.__init__ id) kw h = (inr x, h') →
     Anime._raw_genres x = chosen_genres kw ∧
     (kw !! "genre" = None → kw !! "genres" = None → Anime.genres x = None) ∧
     (∀ l, chosen_genres kw = VRef l → h !! l = Some (OList []) →
        Anime.genres x = None) ∧
     (∀ l gs, chosen_genres kw = VRef l → h !! l = Some (OList gs) →
        gs ≠ [] →
        ∃ names, Anime.genres x = Some names ∧ Forall2 (name_in h) gs names)) ∧
  (∀ x h', construct (Manga.__init__ id) kw h = (inr x, h') →
     Manga._raw_genres x = chosen_genres kw ∧
     (kw !! "genre" = None → kw !! "genres" = None → Manga.genres x = None) ∧
     (∀ l, chosen_genres kw = VRef l → h !! l = Some (OList []) →
        Manga.genres x = None) ∧
     (∀ l gs, chosen_genres kw = VRef l → h !! l = Some (OList gs) →
        gs ≠ [] →
        ∃ names, Manga.genres x = Some names ∧ Forall2 (name_in h) gs names)).
Proof.
  assert (kw !! "genre" = None → kw !! "genres" = None →
          chosen_genres kw = VNone) as Hnone.
  { intros Hg Hgs. unfold chosen_genres, get. by rewrite Hg, Hgs. }
  split_and!.
  - intros v Hv Hne. unfold chosen_genres, get. rewrite Hv. simpl. by destruct v.
  - intros Hg. unfold chosen_genres, get. by rewrite Hg.
  - intros x h' Hx.
    apply (by_parts_ok _ _ _ _ _ _ _ _ Anime_construct) in Hx as (p & Hp & ->).
    apply Anime_parts_ok in Hp as (d & g & r & _ & Hg & _ & ->).
    destruct d as [s e]. apply genres_spec in Hg as (Hg1 & Hg2 & Hg3).
    simpl. split_and!; [done| |done..].
    intros. apply Hg1. by apply Hnone.
  - intros x h' Hx.
    apply (by_parts_ok _ _ _ _ _ _ _ _ Manga_construct) in Hx as (p & Hp & ->).
    apply Manga_parts_ok in Hp
      as (d & [a0 a1] & g & s & r & h1 & _ & Ha & Hg & _ & _ & ->).
    destruct d as [s0 e0]. apply genres_spec in Hg as (Hg1 & Hg2 & Hg3).
    assert (frame ["id"] h h1) as Hf.
    { pose proof (frames_run ["id"] _ h (frames_author_from (get "author" kw))) as Hf.
      by rewrite Ha in Hf. }
    simpl. split_and!; [done|..].
    + intros. apply Hg1. by apply Hnone.
    + intros l Hl Hh. apply (Hg2 l Hl). by apply (frame_list _ _ _ _ _ Hf).
    + intros l gs Hl Hh Hgs.
      destruct (Hg3 l gs Hl) as (names & -> & Hall); [|done|].
      { by apply (frame_list _ _ _ _ _ Hf). }
      exists names. split; [done|].
      eapply Forall2_impl; [done|]. intros g' n. apply frame_name_in with ["id"]; [|done].
      by intros Hn%list_elem_of_singleton.
Qed.

End genres.

(** The payload of the spec: two genre records named Action and Drama. *)
Lemma C3_witness :
  ∃ x h', construct (Anime.__init__ (VInt 1))
            (sample_anime (VStr "2020") (VRef 4)) sample_store = (inr x, h') ∧
          Anime.genres x = Some [VStr "Action"; VStr "Drama"].
Proof.
  destruct (construct (Anime.__init__ (VInt 1))
              (sample_anime (VStr "2020") (VRef 4)) sample_store)
    as [[e|x] h'] eqn:Hx; [vm_compute in Hx; discriminate|].
  exists x, h'. split; [reflexivity|].
  destruct (proj2 (proj2 (proj2 (proj1 (proj2 (C3_genres_names_or_none (VInt 1)
    (sample_anime (VStr "2020") (VRef 4)) sample_store)) x h' Hx)))
    4%positive [VRef 5; VRef 6] eq_refl eq_refl ltac:(done))
    as (names & -> & Hall).
  apply Forall2_cons_inv_l in Hall as (n1 & ns & (r1 & d1 & Hr1 & Hd1 & Hn1) & Hall & ->).
  apply Forall2_cons_inv_l in Hall as (n2 & ns' & (r2 & d2 & Hr2 & Hd2 & Hn2) & Hall & ->).
  apply Forall2_nil_inv_l in Hall as ->.
  injection Hr1 as <-. injection Hr2 as <-.
  vm_compute in Hd1, Hd2. injection Hd1 as <-. injection Hd2 as <-.
  vm_compute in Hn1, Hn2. injection Hn1 as <-. injection Hn2 as <-.
  reflexivity.
Defined.

(** C3 as stated fails: the payload has a ['genre'] field, an empty list,
    and the [genres] of the object is None. *)
Lemma C3_counterexample :
  sample_anime (VStr "2020") (VRef 9) !! "genre" = Some (VRef 9) ∧
  sample_store !! 9%positive = Some (OList []) ∧
  ∃ x h', construct (Anime.__init__ (VInt 1))
            (sample_anime (VStr "2020") (VRef 9)) sample_store = (inr x, h') ∧
          Anime.genres x = None.
Proof.
  split_and!; [reflexivity..|].
  destruct (construct (Anime.__init__ (VInt 1))
              (sample_anime (VStr "2020") (VRef 9)) sample_store)
    as [[e|x] h'] eqn:Hx; vm_compute in Hx; [discriminate|].
  exists x, h'. split; [reflexivity|]. by injection Hx as <- _.
Qed.

(** ** What a call leaves in the store *)

Section store.
Context `{!Collaborators}.

(** C7 (as amended).  Whether it returns or raises, a constructor call
    leaves in the store the objects it found: every list as it was, and
    every dictionary as it was except for assignments to the key
    ['relation'] ([Anime.__init__]), to the keys ['id'] and ['relation']
    ([Manga.__init__]) or to the key ['id'] ([Character.__init__]).
    [Person.__init__] leaves the store as it was.  The payload mapping
    itself is read through a private copy and is not part of what a call
    can change. *)
Theorem C7_store_only_annotated (id : value) (kw : gmap string value)
    (h : gmap loc object) :
  frame ["relation"] h (construct (Anime.__init__ id) kw h).2 ∧
  frame ["id"; "relation"] h (construct (Manga.__init__ id) kw h).2 ∧
  frame ["id"] h (construct (Character.__init__ id) kw h).2 ∧
  (construct (Person.__init__ id) kw h).2 = h.
Proof.
  split_and!.
  - rewrite (by_parts_heap _ _ _ _ _ _ Anime_construct).
    apply frames_run, frames_Anime_parts.
  - rewrite (by_parts_heap _ _ _ _ _ _ Manga_construct).
    apply frames_run, frames_Manga_parts.
  - rewrite (by_parts_heap _ _ _ _ _ _ Character_construct).
    apply frames_run, frames_Character_parts.
  - by rewrite Person_construct.
Qed.

End store.

(** C7 as stated fails: after [Anime.__init__] the relation record at 3 has
    the key ['relation'], after [Manga.__init__] the author record at 8 has
    the key ['id'], and after [Character.__init__] the record at 11 has the
    key ['id']; none of them had it before. *)
Lemma C7_counterexample :
  (∃ d, sample_store !! 3%positive = Some (ODict d) ∧
        dict_get "relation" d = None) ∧
  (∃ d, (construct (Anime.__init__ (VInt 1))
           (sample_anime (VStr "2020") (VRef 4)) sample_store).2 !! 3%positive
        = Some (ODict d) ∧ dict_get "relation" d = Some (VStr "Sequel")) ∧
  (∃ d, sample_store !! 8%positive = Some (ODict d) ∧ dict_get "id" d = None) ∧
  (∃ d, (construct (Manga.__init__ (VInt 1))
           (sample_manga (VStr "2020") (VRef 4)) sample_store).2 !! 8%positive
        = Some (ODict d) ∧ dict_get "id" d = Some (VInt 1868)) ∧
  (∃ d, sample_store !! 11%positive = Some (ODict d) ∧ dict_get "id" d = None) ∧
  (∃ d, (construct (Character.__init__ (VInt 1)) sample_character
           sample_store).2 !! 11%positive
        = Some (ODict d) ∧ dict_get "id" d = Some (VInt 5)).
Proof. split_and!; eexists; split; vm_compute; reflexivity. Qed.

(** ** Single operations, run in a store *)

Lemma run_lift_ok {A} (r : exn + A) h a h' :
  run (lift r) h = (inr a, h') → r = inr a ∧ h' = h.
Proof.
  destruct r as [e|a']; [done|]. unfold run. simpl.
  intros Heq. injection Heq as Ha Hh. by subst.
Qed.

Lemma run_setitem_ok x k v h u h' :
  run (setitem x k v) h = (inr u, h') →
  ∃ r d, x = VRef r ∧ h !! r = Some (ODict d) ∧
         h' = <[r := ODict (dict_set k v d)]> h.
Proof.
  unfold run, setitem. destruct x as [| | | | |r]; try done.
  rewrite bind_unfold. unfold deref. cbn [heap].
  destruct (h !! r) as [o|] eqn:Hl; [|done].
  destruct o as [d|xs]; [|done].
  intros Heq. injection Heq as Hh. subst. by exists r, d.
Qed.

Lemma run_on_record_ok {A} (f : list (string * value) → exn + A) x h a h' :
  run (on_record f x) h = (inr a, h') →
  ∃ r d, x = VRef r ∧ h !! r = Some (ODict d) ∧ f d = inr a ∧ h' = h.
Proof.
  unfold run, on_record. destruct x as [| | | | |r]; try done.
  rewrite bind_unfold. unfold deref. cbn [heap].
  destruct (h !! r) as [o|] eqn:Hl; [|done].
  destruct o as [d|xs]; [|done].
  destruct (f d) as [e|a'] eqn:Hf; [done|].
  intros Heq. injection Heq as Ha Hh. subst. by exists r, d.
Qed.

Lemma run_getitem x k h :
  ∀ r d v, x = VRef r → h !! r = Some (ODict d) → dict_get k d = Some v →
  run (getitem x k) h = (inr v, h).
Proof.
  intros r d v -> Hr Hk. unfold run, getitem.
  rewrite bind_unfold. unfold deref. cbn [heap]. by rewrite Hr, Hk.
Qed.

Lemma run_setitem r k v d h :
  h !! r = Some (ODict d) →
  run (setitem (VRef r) k v) h = (inr tt, <[r := ODict (dict_set k v d)]> h).
Proof.
  intros Hr. unfold run, setitem.
  rewrite bind_unfold. unfold deref. cbn [heap]. by rewrite Hr.
Qed.

Lemma run_on_record {A} (f : list (string * value) → exn + A) r d a h :
  h !! r = Some (ODict d) → f d = inr a →
  run (on_record f (VRef r)) h = (inr a, h).
Proof.
  intros Hr Hf. unfold run, on_record.
  rewrite bind_unfold. unfold deref. cbn [heap]. by rewrite Hr, Hf.
Qed.

Lemma run_lift {A} (a : A) h : run (lift (inr a)) h = (inr a, h).
Proof. reflexivity. Qed.

Lemma dict_set_same k v d : dict_get k d = Some v → dict_set k v d = d.
Proof.
  induction d as [|[k0 v0] d IH]; simpl; [done|].
  destruct (String.eqb_spec k k0) as [->|Hne].
  - by intros [= ->].
  - intros Hk. by rewrite IH.
Qed.

(** ** The appearances of a character *)

Section appearances.
Context `{!Collaborators}.

Lemma enriches_fun h r d1 d2 : enriches h r d1 → enriches h r d2 → d1 = d2.
Proof.
  intros (d & url & i & Hr & Hu & Hi & ->) (d' & url' & i' & Hr' & Hu' & Hi' & ->).
  congruence.
Qed.

Lemma enriched_refl h : enriched h h.
Proof. intros l. by left. Qed.

(** Writing the identifier of a record of an enriched store enriches it. *)
Lemma enriched_step h0 h r dcur url i :
  enriched h0 h →
  h !! r = Some (ODict dcur) → dict_get "url" dcur = Some url →
  parse_id url = inr i →
  enriches h0 r (dict_set "id" i dcur).
Proof.
  intros He Hr Hu Hi. destruct (He r) as [Heq|(d' & Hd' & Heq)].
  - exists dcur, url, i. split_and!; [congruence|done..].
  - rewrite Hr in Heq. injection Heq as ->.
    pose proof Hd' as (d & url' & i' & Hr0 & Hu' & Hi' & ->).
    rewrite dict_get_set_ne in Hu by done.
    assert (url' = url) as -> by congruence.
    assert (i' = i) as -> by congruence.
    by rewrite dict_set_set.
Qed.

Lemma enriched_insert h0 h r d' :
  enriched h0 h → enriches h0 r d' → enriched h0 (<[r := ODict d']> h).
Proof.
  intros He Hd' l. destruct (decide (l = r)) as [->|Hne].
  - right. exists d'. by rewrite lookup_insert_eq.
  - rewrite lookup_insert_ne by done. apply He.
Qed.

Lemma enriched_list h0 h l xs :
  enriched h0 h → h !! l = Some (OList xs) ↔ h0 !! l = Some (OList xs).
Proof.
  intros He. destruct (He l) as [Heq|(d' & (d & ? & ? & Hd & _) & Heq)].
  - by rewrite Heq.
  - rewrite Heq, Hd. split; by intros.
Qed.



End appearances.

Lemma dict_set_nonempty k v d : dict_set k v d ≠ [].
Proof. destruct d as [|[k0 v0] d]; simpl; [done|]. by destruct (String.eqb k k0). Qed.

Section character.
Context `{!Collaborators}.








End character.

(** ** The appearances of a character and the author of a manga *)

Lemma run_iter_list l xs h :
  h !! l = Some (OList xs) → run (iter (VRef l)) h = (inr xs, h).
Proof.
  intros Hl. unfold run, iter. rewrite bind_unfold. unfold deref. cbn [heap].
  by rewrite Hl.
Qed.

Lemma run_first_list l x xs h :
  h !! l = Some (OList (x :: xs)) → run (first (VRef l)) h = (inr x, h).
Proof.
  intros Hl. unfold run, first. rewrite bind_unfold. unfold deref. cbn [heap].
  by rewrite Hl.
Qed.

Lemma run_first_empty l h :
  h !! l = Some (OList []) → run (first (VRef l)) h = (inl IndexError, h).
Proof.
  intros Hl. unfold run, first. rewrite bind_unfold. unfold deref. cbn [heap].
  by rewrite Hl.
Qed.

Section character_and_author.
Context `{!Collaborators}.


Lemma author_from_ok authors h a h' :
  run (Manga.author_from authors) h = (inr a, h') →
  ∃ r d url i,
    run (first authors) h = (inr (VRef r), h) ∧ a.1 = VRef r ∧
    h !! r = Some (ODict d) ∧ dict_get "url" d = Some url ∧
    parse_id url = inr i ∧
    PartialPerson_from_author (dict_set "id" i d) = inr a.2 ∧
    h' = <[r := ODict (dict_set "id" i d)]> h.
Proof.
  unfold Manga.author_from. intros Hr.
  apply run_bind_ok in Hr as (x & h1 & Hx & Hr); [|eauto with free].
  pose proof (read_only_run _ _ _ _ (read_only_first _) Hx) as Heq. subst h1.
  apply run_bind_ok in Hr as (url & h1 & Hu & Hr); [|eauto with free].
  pose proof (read_only_run _ _ _ _ (read_only_getitem _ _) Hu) as Heq.
  subst h1. apply run_getitem_ok in Hu as (r & d & -> & Hd & Hu).
  apply run_bind_ok in Hr as (i & h1 & Hi & Hr); [|eauto with free].
  apply run_lift_ok in Hi as [Hi ->].
  apply run_bind_ok in Hr as (u & h1 & Hs & Hr); [|eauto with free].
  apply run_setitem_ok in Hs as (r' & d0 & Heq & Hd0 & ->).
  injection Heq as <-. rewrite Hd in Hd0. injection Hd0 as <-.
  apply run_bind_ok in Hr as (obj & h1 & Ho & Hr); [|eauto with free].
  apply run_on_record_ok in Ho as (r' & d1 & Heq & Hd1 & Hf & ->).
  injection Heq as <-. rewrite lookup_insert_eq in Hd1. injection Hd1 as <-.
  rewrite run_ret in Hr. injection Hr as <- <-.
  by exists r, d, url, i.
Qed.

(** C6.  When [Manga.__init__] returns and the payload's ['author'] is a
    list with a first element, that element is a record; the constructor
    keeps it as [_raw_author], sets its ['id'] to the identifier parsed from
    its ['url'] (the final store holds it), and [author] is the reference
    built from the record so enriched.  When ['author'] is absent or an
    empty list the constructor raises: a TypeError (absent) or an IndexError
    (empty) unless the date range has raised before. *)
Theorem C6_manga_first_author (id : value) (kw : gmap string value)
    (h : gmap loc object) :
  (∀ x h' la a0 rest,
     construct (Manga.__init__ id) kw h = (inr x, h') →
     kw !! "author" = Some (VRef la) → h !! la = Some (OList (a0 :: rest)) →
     Manga._raw_author x = a0 ∧
     ∃ r d url i,
       a0 = VRef r ∧ h !! r = Some (ODict d) ∧ dict_get "url" d = Some url ∧
       parse_id url = inr i ∧
       PartialPerson_from_author (dict_set "id" i d) = inr (Manga.author x) ∧
       ∃ d', h' !! r = Some (ODict d') ∧ dict_get "id" d' = Some i) ∧
  (kw !! "author" = None →
     ∃ e h', construct (Manga.__init__ id) kw h = (inl e, h') ∧
       ∀ dates, run (date_range (get "published_string" kw)) h = (inr dates, h) →
                e = TypeError) ∧
  (∀ la, kw !! "author" = Some (VRef la) → h !! la = Some (OList []) →
     ∃ e h', construct (Manga.__init__ id) kw h = (inl e, h') ∧
       ∀ dates, run (date_range (get "published_string" kw)) h = (inr dates, h) →
                e = IndexError).
Proof.
  split_and!.
  - intros x h' la a0 rest Hx Hkw Hla.
    apply (by_parts_ok _ _ _ _ _ _ _ _ Manga_construct) in Hx as (p & Hp & ->).
    apply Manga_parts_ok in Hp
      as (dts & a & g & s & rel & h1 & _ & Ha & _ & _ & Hrel & ->).
    apply author_from_ok in Ha as (r & d & url & i & Hf & Ha1 & Hd & Hu & Hi & Ho & ->).
    unfold get in Hf. rewrite Hkw in Hf.
    change (default VNone (Some (VRef la))) with (VRef la) in Hf.
    rewrite (run_first_list _ _ _ _ Hla) in Hf. injection Hf as ->.
    destruct dts as [s0 e0], a as [a1 a2]. simpl in *. subst a1.
    split; [done|]. exists r, d, url, i. split_and!; [done..|].
    pose proof (frames_run ["relation"] _ (<[r:=ODict (dict_set "id" i d)]> h)
                  (frames_related_from (get "related" kw))) as Hfr.
    rewrite Hrel in Hfr. simpl in Hfr.
    destruct (frame_dict_fwd _ _ _ r _ Hfr (lookup_insert_eq _ _ _))
      as (d' & Hd' & Han).
    exists d'. split; [done|].
    rewrite (annotated_get _ "id" _ _ Han), dict_get_set_eq; [done|].
    by intros Hin%list_elem_of_singleton.
  - intros Hkw. rewrite Manga_construct. unfold Manga.parts.
    rewrite run_bind by apply kwargs_free_date_range.
    destruct (run (date_range _) h) as [[e|dts] h1] eqn:Hd.
    + exists e, h1. split; [done|]. by intros.
    + pose proof (run_date_range _ _ _ _ Hd) as ->.
      rewrite run_bind by apply kwargs_free_author_from.
      unfold get at 1. rewrite Hkw. by exists TypeError, h.
  - intros la Hkw Hla. rewrite Manga_construct. unfold Manga.parts.
    rewrite run_bind by apply kwargs_free_date_range.
    destruct (run (date_range _) h) as [[e|dts] h1] eqn:Hd.
    + exists e, h1. split; [done|]. by intros.
    + pose proof (run_date_range _ _ _ _ Hd) as ->.
      rewrite run_bind by apply kwargs_free_author_from.
      unfold get at 1. rewrite Hkw. simpl.
      unfold Manga.author_from. rewrite run_bind by eauto with free.
      rewrite (run_first_empty _ _ Hla). by exists IndexError, h.
Qed.

End character_and_author.


(** The sample manga: the author record at 8 gets the identifier 1868. *)
Lemma C6_witness :
  ∃ x h', construct (Manga.__init__ (VInt 1))
            (sample_manga (VStr "2020") (VRef 4)) sample_store = (inr x, h') ∧
    Manga._raw_author x = VRef 8 ∧
    ∃ r d url i,
      VRef 8 = VRef r ∧ sample_store !! r = Some (ODict d) ∧
      dict_get "url" d = Some url ∧ parse_id url = inr i ∧
      PartialPerson_from_author (dict_set "id" i d) = inr (Manga.author x) ∧
      ∃ d', h' !! r = Some (ODict d') ∧ dict_get "id" d' = Some i.
Proof.
  destruct (construct (Manga.__init__ (VInt 1))
              (sample_manga (VStr "2020") (VRef 4)) sample_store)
    as [[e|x] h'] eqn:Hx; [vm_compute in Hx; discriminate|].
  exists x, h'. split; [reflexivity|].
  apply (proj1 (C6_manga_first_author (VInt 1)
    (sample_manga (VStr "2020") (VRef 4)) sample_store) x h' 7%positive
    (VRef 8) [] Hx); reflexivity.
Defined.

(** ** Labelled records *)

Lemma typed_set_relation v d : typed (dict_set "relation" v d) ↔ typed d.
Proof. unfold typed. by rewrite dict_get_set_ne. Qed.

Lemma typed_nil : ¬ typed [].
Proof. by intros (s & ? & _). Qed.

Lemma relabelled_refl h : relabelled h h.
Proof. intros l. destruct (h !! l) as [[d|xs]|]; [by left|done..]. Qed.

Lemma relabelled_list h g l xs :
  relabelled h g → g !! l = Some (OList xs) ↔ h !! l = Some (OList xs).
Proof.
  intros Hr. specialize (Hr l). destruct (h !! l) as [[d|ys]|].
  - destruct Hr as [->|(_ & v & ->)]; split; by intros.
  - by rewrite Hr.
  - by rewrite Hr.
Qed.

(** A record of [h] as the relabelled store [g] has it: the same up to its
    relation label, and the same when it has no type. *)
Lemma relabelled_dict h g l d :
  relabelled h g → h !! l = Some (ODict d) →
  ∃ d', g !! l = Some (ODict d') ∧
        (∀ v, dict_set "relation" v d' = dict_set "relation" v d) ∧
        (∀ k, k ≠ "relation" → dict_get k d' = dict_get k d) ∧
        (¬ typed d → d' = d).
Proof.
  intros Hr Hl. specialize (Hr l). rewrite Hl in Hr.
  destruct Hr as [Hg|(Ht & v & Hg)].
  - exists d. by split_and!.
  - exists (dict_set "relation" v d). split_and!; [done|..].
    + intros v'. apply dict_set_set.
    + intros k Hk. by rewrite dict_get_set_ne.
    + by intros [].
Qed.

Lemma relabelled_dict_inv h g l d' :
  relabelled h g → g !! l = Some (ODict d') →
  ∃ d, h !! l = Some (ODict d) ∧
       (∀ v, dict_set "relation" v d' = dict_set "relation" v d) ∧
       (d' = [] → d = []).
Proof.
  intros Hr Hl. specialize (Hr l). destruct (h !! l) as [[d|ys]|].
  - exists d. split; [done|]. destruct Hr as [Hg|(Ht & v & Hg)].
    + rewrite Hl in Hg. injection Hg as ->. done.
    + rewrite Hl in Hg. injection Hg as ->. split.
      * intros v'. apply dict_set_set.
      * intros Hnil. by apply dict_set_nonempty in Hnil.
  - congruence.
  - congruence.
Qed.

Lemma relabelled_insert h0 g r d dg v :
  relabelled h0 g → h0 !! r = Some (ODict d) → typed d →
  g !! r = Some (ODict dg) →
  relabelled h0 (<[r := ODict (dict_set "relation" v dg)]> g).
Proof.
  intros Hr Hd Ht Hg l. destruct (decide (l = r)) as [->|Hne].
  - rewrite Hd, lookup_insert_eq. right. split; [done|]. exists v.
    destruct (relabelled_dict _ _ _ _ Hr Hd) as (d' & Hd' & Hset & _).
    rewrite Hg in Hd'. injection Hd' as <-. by rewrite Hset.
  - rewrite lookup_insert_ne by done. apply Hr.
Qed.

Lemma relabelled_frame h g : relabelled h g → frame ["relation"] h g.
Proof.
  intros Hr l. specialize (Hr l). destruct (h !! l) as [[d|xs]|]; [|done..].
  destruct Hr as [Hg|(_ & v & Hg)]; eexists; (split; [done|]).
  - constructor.
  - apply annotated_set; [by left|constructor].
Qed.

(** ** Labelling in sequence *)


Lemma apply_steps_cons k r S h :
  apply_steps ((k, r) :: S) h = apply_steps S (alter (label k) r h).
Proof. reflexivity. Qed.

Lemma apply_steps_app S1 S2 h :
  apply_steps (S1 ++ S2) h = apply_steps S2 (apply_steps S1 h).
Proof. unfold apply_steps. by rewrite foldl_app. Qed.

Lemma label_label k k' o : label k (label k' o) = label k o.
Proof. destruct o; simpl; [|done]. by rewrite dict_set_set. Qed.





Lemma alter_insert_dict r k d (h : gmap loc object) :
  h !! r = Some (ODict d) →
  <[r := ODict (dict_set "relation" (VStr k) d)]> h = alter (label k) r h.
Proof.
  intros Hr. apply map_eq. intros l. destruct (decide (l = r)) as [->|Hne].
  - by rewrite lookup_insert_eq, lookup_alter_eq, Hr.
  - by rewrite lookup_insert_ne, lookup_alter_ne.
Qed.

(** ** Positions in a dictionary *)

Lemma dict_get_lookup k d v :
  dict_get k d = Some v → ∃ j, d !! j = Some (k, v).
Proof.
  induction d as [|[k0 v0] d IH]; simpl; [done|].
  destruct (String.eqb_spec k k0) as [->|Hne].
  - intros [= ->]. by exists 0.
  - intros Hk. destruct (IH Hk) as [j Hj]. by exists (S j).
Qed.

Lemma dict_set_lookup_ne k v d j k0 v0 :
  d !! j = Some (k0, v0) → k0 ≠ k → dict_set k v d !! j = Some (k0, v0).
Proof.
  revert j. induction d as [|[k1 v1] d IH]; intros j; simpl; [done|].
  destruct j as [|j]; simpl.
  - intros [= -> ->] Hne. by destruct (String.eqb_spec k k0) as [->|].
  - intros Hj Hne. destruct (String.eqb_spec k k1); simpl; [done|by apply IH].
Qed.

Lemma annotated_lookup_ne ks d d' j k0 v0 :
  annotated ks d d' → d !! j = Some (k0, v0) → k0 ∉ ks →
  d' !! j = Some (k0, v0).
Proof.
  intros Ha Hj Hk. induction Ha as [|d d' k v Hin Ha IH]; [done|].
  apply dict_set_lookup_ne; [by apply IH|]. by intros ->.
Qed.

(** ** The loop over the records of one relation type *)

Lemma record_of_refs (locs : list loc) :
  omap record_of (VRef <$> locs) = locs.
Proof. induction locs as [|r locs IH]; [done|]. cbn. f_equal. exact IH. Qed.

Lemma chars_cons c s : ∃ g rest, chars (String c s) = VStr g :: rest.
Proof.
  cbn [chars]. destruct s as [|c' s']; [by eexists _, _|].
  destruct (continuation c'); [|by eexists _, _].
  unfold lead. destruct (chars (String c' s')) as [|[| | | |g|] rest];
    by eexists _, _.
Qed.

Lemma chars_refs s (locs : list loc) :
  chars s = VRef <$> locs → s = EmptyString ∧ locs = [].
Proof.
  destruct s as [|c s]; [by destruct locs|].
  destruct (chars_cons c s) as (g & rest & ->). by destruct locs.
Qed.

Lemma keys_refs (d : list (string * value)) (locs : list loc) :
  (λ kv, VStr kv.1) <$> d = VRef <$> locs → d = [] ∧ locs = [].
Proof. destruct d, locs; simpl; try done. Qed.

Lemma run_deref d o h : h !! d = Some o → run (deref d) h = (inr o, h).
Proof. intros Hd. unfold run, deref. cbn [heap]. by rewrite Hd. Qed.

Section related_loop.
Context `{!Collaborators, !TypedRelations}.

Lemma relation_obj_typed h k r obj :
  relation_obj h k r obj → ∃ d, h !! r = Some (ODict d) ∧ typed d.
Proof.
  intros (d & Hd & Hc). exists d. split; [done|].
  apply create_relation_typed in Hc. by apply typed_set_relation in Hc.
Qed.

Lemma for_relation_sound h0 k rs acc h out h' :
  relabelled h0 h →
  run (for_relation k rs acc) h = (inr out, h') →
  ∃ objs,
    rs = VRef <$> omap record_of rs ∧ out = (acc ++ objs)%list ∧
    Forall2 (relation_obj h0 k) (omap record_of rs) objs ∧
    h' = apply_steps ((λ r, (k, r)) <$> omap record_of rs) h ∧
    relabelled h0 h'.
Proof.
  revert acc h. induction rs as [|x rs IH]; intros acc h Hrel; cbn [for_relation].
  - rewrite run_ret. intros Heq. injection Heq as Ho Hh. subst.
    exists []. rewrite app_nil_r. by split_and!.
  - intros Hr.
    apply run_bind_ok in Hr as (u & h1 & Hs & Hr); [|eauto with free].
    apply run_setitem_ok in Hs as (r & dcur & -> & Hcur & ->).
    apply run_bind_ok in Hr as (obj & h1 & Ho & Hr); [|eauto with free].
    apply run_on_record_ok in Ho as (r' & d1 & Heq & Hd1 & Hc & ->).
    injection Heq as <-. rewrite lookup_insert_eq in Hd1. injection Hd1 as <-.
    destruct (relabelled_dict_inv _ _ _ _ Hrel Hcur) as (d & Hd & Hset & _).
    rewrite Hset in Hc.
    assert (typed d) as Ht.
    { apply create_relation_typed in Hc. by apply typed_set_relation in Hc. }
    apply IH in Hr as (objs & Hrs & -> & Hall & -> & Hrel');
      [|by eapply relabelled_insert].
    exists (obj :: objs). cbn [omap list_omap record_of fmap list_fmap].
    split_and!; [by f_equal|by rewrite <- app_assoc| |..|done].
    + constructor; [|done]. by exists d.
    + rewrite apply_steps_cons. by erewrite alter_insert_dict.
Qed.

Lemma for_relation_complete h0 k locs objs acc g :
  relabelled h0 g →
  Forall2 (relation_obj h0 k) locs objs →
  run (for_relation k (VRef <$> locs) acc) g
  = (inr (acc ++ objs)%list, apply_steps ((λ r, (k, r)) <$> locs) g).
Proof.
  intros Hrel Hall. revert acc g Hrel.
  induction Hall as [|r obj locs objs Hr Hall IH]; intros acc g Hrel.
  - simpl. by rewrite run_ret, app_nil_r.
  - pose proof (relation_obj_typed _ _ _ _ Hr) as (d & Hd & Ht).
    destruct Hr as (d' & Hd' & Hc). rewrite Hd in Hd'. injection Hd' as <-.
    destruct (relabelled_dict _ _ _ _ Hrel Hd) as (dg & Hg & Hset & _).
    cbn [fmap list_fmap for_relation].
    rewrite run_bind by eauto with free.
    rewrite (run_setitem _ _ _ _ _ Hg).
    rewrite run_bind by eauto with free.
    erewrite run_on_record; [|apply lookup_insert_eq|by rewrite Hset].
    rewrite IH by (by eapply relabelled_insert).
    rewrite apply_steps_cons, <- app_assoc. by erewrite alter_insert_dict.
Qed.

(** What a loop over [v] visits, for a loop that labels what it visits. *)
Lemma iter_records h0 h v rs h1 :
  relabelled h0 h →
  run (iter v) h = (inr rs, h1) →
  rs = VRef <$> omap record_of rs →
  omap record_of rs = targets h0 v ∧ run (iter v) h0 = (inr rs, h0).
Proof.
  intros Hrel Hi Hrs. unfold run, iter, targets in *.
  destruct v as [| | | |s|l]; try done.
  - simpl in Hi. injection Hi as <- _.
    apply chars_refs in Hrs as [-> Hn]. by split.
  - rewrite bind_unfold in *. unfold deref in *. cbn [heap] in *.
    destruct (h !! l) as [o|] eqn:Hl; [|done]. destruct o as [d|xs].
    + simpl in Hi. injection Hi as <- _.
      apply keys_refs in Hrs as [-> Hn].
      destruct (relabelled_dict_inv _ _ _ _ Hrel Hl) as (d & Hd & _ & Hnil).
      rewrite Hd, (Hnil eq_refl). by split.
    + simpl in Hi. injection Hi as <- _.
      apply (relabelled_list _ _ _ _ Hrel) in Hl. by rewrite Hl.
Qed.

Lemma iter_relabelled h0 g v :
  relabelled h0 g →
  run (iter v) h0 = (inr (VRef <$> targets h0 v), h0) →
  run (iter v) g = (inr (VRef <$> targets h0 v), g).
Proof.
  intros Hrel Hi. unfold run, iter, targets in *.
  destruct v as [| | | |s|l]; try done.
  - simpl in *. injection Hi as Hi. by rewrite Hi.
  - rewrite bind_unfold in *. unfold deref in *. cbn [heap] in *.
    destruct (h0 !! l) as [o|] eqn:Hl; [|done]. destruct o as [d|xs].
    + simpl in Hi. injection Hi as Hi. destruct d as [|kv d]; [|done].
      destruct (relabelled_dict _ _ _ _ Hrel Hl) as (d' & Hg & _ & _ & Hsame).
      rewrite Hg, (Hsame typed_nil). done.
    + simpl in Hi. injection Hi as Hi.
      apply (relabelled_list _ _ _ _ Hrel) in Hl. rewrite Hl. simpl.
      by rewrite <- Hi.
Qed.

Lemma for_items_unfold fuel pos size d related :
  for_items fuel pos size d related =
  (o ← deref d;
   match o with
   | OList _ => raise TypeError
   | ODict its =>
       if negb (Nat.eqb (length its) size) then raise RuntimeError
       else match its !! pos, fuel with
            | Some (relation_type, relations), S fuel' =>
                rs ← iter relations;
                related' ← for_relation relation_type rs related;
                for_items fuel' (S pos) size d related'
            | _, _ => mret related
            end
   end).
Proof. by destruct fuel. Qed.

End related_loop.

(** ** The loop over the items of the related mapping *)

Lemma steps_cons h k v its :
  steps h ((k, v) :: its)
  = (((λ r, (k, r)) <$> targets h v) ++ steps h its)%list.
Proof. reflexivity. Qed.

Section related_items.
Context `{!Collaborators, !TypedRelations}.

(** The mapping at [d] has no type, so no label is ever written into it and
    every step of the loop finds the items [its]. *)
Lemma for_items_sound h0 d its fuel pos acc h out h' :
  h0 !! d = Some (ODict its) → ¬ typed its → relabelled h0 h →
  pos + fuel = length its →
  run (for_items fuel pos (length its) d acc) h = (inr out, h') →
  ∃ objss,
    Forall2 (item_spec h0) (drop pos its) objss ∧
    out = (acc ++ concat objss)%list ∧
    h' = apply_steps (steps h0 (drop pos its)) h ∧
    relabelled h0 h'.
Proof.
  intros Hd Hnt. revert pos acc h.
  induction fuel as [|fuel IH]; intros pos acc h Hrel Hlen Hr.
  - rewrite for_items_unfold in Hr.
    destruct (relabelled_dict _ _ _ _ Hrel Hd) as (d' & Hg & _ & _ & Hsame).
    rewrite (Hsame Hnt) in Hg.
    rewrite run_bind, (run_deref _ _ _ Hg) in Hr by eauto with free.
    rewrite Nat.eqb_refl in Hr. cbn [negb] in Hr.
    rewrite lookup_ge_None_2 in Hr by lia.
    rewrite run_ret in Hr. injection Hr as Ho Hh. subst.
    exists []. rewrite drop_ge by lia. rewrite app_nil_r. by split_and!.
  - rewrite for_items_unfold in Hr.
    destruct (relabelled_dict _ _ _ _ Hrel Hd) as (d' & Hg & _ & _ & Hsame).
    rewrite (Hsame Hnt) in Hg.
    rewrite run_bind, (run_deref _ _ _ Hg) in Hr by eauto with free.
    rewrite Nat.eqb_refl in Hr. cbn [negb] in Hr.
    destruct (lookup_lt_is_Some_2 its pos) as [[k v] Hkv]; [lia|].
    rewrite Hkv in Hr.
    apply run_bind_ok in Hr as (rs & h1 & Hi & Hr); [|eauto with free].
    pose proof (read_only_run _ _ _ _ (read_only_iter _) Hi) as Heq. subst h1.
    apply run_bind_ok in Hr as (acc' & h1 & Hf & Hr);
      [|apply kwargs_free_for_relation].
    apply (for_relation_sound h0) in Hf
      as (objs & Hrs & -> & Hall & -> & Hrel1); [|done].
    destruct (iter_records _ _ _ _ _ Hrel Hi Hrs) as [Ht Hi0].
    rewrite Ht in *.
    apply IH in Hr as (objss & Halls & -> & -> & Hrel'); [|done|lia].
    exists (objs :: objss). rewrite (drop_S _ _ _ Hkv).
    split_and!; [|by rewrite concat_cons, app_assoc| |done].
    + constructor; [|done]. split; [|done]. simpl. by rewrite <- Hrs.
    + by rewrite steps_cons, apply_steps_app.
Qed.

Lemma for_items_complete h0 d its fuel pos acc g objss :
  h0 !! d = Some (ODict its) → ¬ typed its → relabelled h0 g →
  pos + fuel = length its →
  Forall2 (item_spec h0) (drop pos its) objss →
  run (for_items fuel pos (length its) d acc) g
  = (inr (acc ++ concat objss)%list, apply_steps (steps h0 (drop pos its)) g).
Proof.
  intros Hd Hnt. revert pos acc g objss.
  induction fuel as [|fuel IH]; intros pos acc g objss Hrel Hlen Hall.
  - rewrite for_items_unfold.
    destruct (relabelled_dict _ _ _ _ Hrel Hd) as (d' & Hg & _ & _ & Hsame).
    rewrite (Hsame Hnt) in Hg.
    rewrite run_bind, (run_deref _ _ _ Hg) by eauto with free.
    rewrite Nat.eqb_refl. cbn [negb].
    rewrite lookup_ge_None_2 by lia.
    rewrite drop_ge in Hall |- * by lia.
    apply Forall2_nil_inv_l in Hall as ->.
    by rewrite run_ret, app_nil_r.
  - rewrite for_items_unfold.
    destruct (relabelled_dict _ _ _ _ Hrel Hd) as (d' & Hg & _ & _ & Hsame).
    rewrite (Hsame Hnt) in Hg.
    rewrite run_bind, (run_deref _ _ _ Hg) by eauto with free.
    rewrite Nat.eqb_refl. cbn [negb].
    destruct (lookup_lt_is_Some_2 its pos) as [[k v] Hkv]; [lia|].
    rewrite Hkv. rewrite (drop_S _ _ _ Hkv) in Hall |- *.
    apply Forall2_cons_inv_l in Hall as (objs & objss' & [Hi Hobjs] & Hall & ->).
    simpl in Hi, Hobjs.
    rewrite run_bind by eauto with free.
    rewrite (iter_relabelled _ _ _ Hrel Hi).
    rewrite run_bind by apply kwargs_free_for_relation.
    pose proof (for_relation_complete _ _ _ _ acc _ Hrel Hobjs) as Hrun.
    rewrite Hrun.
    apply (for_relation_sound h0) in Hrun as (_ & _ & _ & _ & _ & Hrel1); [|done].
    rewrite IH with (objss := objss') by (done || lia).
    by rewrite steps_cons, apply_steps_app, concat_cons, app_assoc.
Qed.

(** A mapping that has a type makes the loop raise: the loop reaches the
    item ['type'], whose value is a non-empty string, and line 139 cannot
    assign into a character of it. *)
Lemma for_items_typed fuel pos size d acc h its j s out h' :
  h !! d = Some (ODict its) →
  its !! j = Some ("type", VStr s) → s ≠ EmptyString → (pos ≤ j)%nat →
  pos + fuel = size →
  run (for_items fuel pos size d acc) h ≠ (inr out, h').
Proof.
  intros Hd Hj Hs. revert pos acc h its Hd Hj.
  induction fuel as [|fuel IH]; intros pos acc h its Hd Hj Hpos Hlen Hr.
  - rewrite for_items_unfold in Hr.
    rewrite run_bind, (run_deref _ _ _ Hd) in Hr by eauto with free.
    destruct (Nat.eqb_spec (length its) size) as [Hl|Hl];
      cbn [negb] in Hr; [|done].
    apply lookup_lt_Some in Hj. lia.
  - rewrite for_items_unfold in Hr.
    rewrite run_bind, (run_deref _ _ _ Hd) in Hr by eauto with free.
    destruct (Nat.eqb_spec (length its) size) as [Hl|Hl];
      cbn [negb] in Hr; [|done].
    pose proof (lookup_lt_Some _ _ _ Hj) as Hjl.
    destruct (lookup_lt_is_Some_2 its pos) as [[k v] Hkv]; [lia|].
    rewrite Hkv in Hr.
    apply run_bind_ok in Hr as (rs & h1 & Hi & Hr); [|eauto with free].
    pose proof (read_only_run _ _ _ _ (read_only_iter _) Hi) as Heq. subst h1.
    apply run_bind_ok in Hr as (acc' & h1 & Hf & Hr);
      [|apply kwargs_free_for_relation].
    destruct (decide (pos = j)) as [->|Hne].
    + rewrite Hj in Hkv. injection Hkv as <- <-.
      destruct s as [|c s]; [done|].
      destruct (chars_cons c s) as (g & rest & Hcs).
      unfold run, iter in Hi. cbn [result] in Hi. rewrite Hcs in Hi.
      injection Hi as <-. by simpl in Hf.
    + pose proof (frames_run ["relation"] _ h (frames_for_relation k rs acc))
        as Hfr.
      rewrite Hf in Hfr. simpl in Hfr.
      destruct (frame_dict_fwd _ _ _ _ _ Hfr Hd) as (its1 & Hd1 & Han).
      eapply (IH (S pos)); [exact Hd1| |lia|lia|exact Hr].
      eapply annotated_lookup_ne; [done..|].
      by intros Hin%list_elem_of_singleton.
Qed.

End related_items.

(** ** The related titles of a payload *)

Lemma run_items_ok x h d h' :
  run (items x) h = (inr d, h') →
  x = VRef d ∧ h' = h ∧ ∃ its, h !! d = Some (ODict its).
Proof.
  unfold run, items. destruct x as [| | | | |l]; try done.
  rewrite bind_unfold. unfold deref. cbn [heap].
  destruct (h !! l) as [o|] eqn:Hl; [|done]. destruct o as [its|xs]; [|done].
  simpl. intros Heq. injection Heq as <- <-. eauto.
Qed.

Lemma run_items d its h :
  h !! d = Some (ODict its) → run (items (VRef d)) h = (inr d, h).
Proof.
  intros Hd. unfold run, items. rewrite bind_unfold. unfold deref. cbn [heap].
  by rewrite Hd.
Qed.

Lemma relabelled_dict_cases h g l d :
  relabelled h g → h !! l = Some (ODict d) →
  g !! l = Some (ODict d) ∨
  ∃ v, g !! l = Some (ODict (dict_set "relation" v d)).
Proof.
  intros Hr Hl. specialize (Hr l). rewrite Hl in Hr.
  destruct Hr as [Hg|(_ & v & Hg)]; eauto.
Qed.

Section related_from.
Context `{!Collaborators, !TypedRelations}.

Lemma related_from_sound h x out h' :
  run (related_from x) h = (inr out, h') →
  ∃ d its objss,
    x = VRef d ∧ h !! d = Some (ODict its) ∧ ¬ typed its ∧
    Forall2 (item_spec h) its objss ∧ out = concat objss ∧
    h' = apply_steps (steps h its) h ∧ relabelled h h'.
Proof.
  unfold related_from. intros Hr.
  apply run_bind_ok in Hr as (d & h1 & Hi & Hr); [|eauto with free].
  apply run_items_ok in Hi as (-> & -> & its & Hd).
  rewrite run_bind, (run_deref _ _ _ Hd) in Hr by eauto with free.
  cbn zeta in Hr.
  assert (¬ typed its) as Hnt.
  { intros (s & Hs & Hne). apply dict_get_lookup in Hs as [j Hj].
    eapply (for_items_typed _ 0); [exact Hd|exact Hj|done|lia| |exact Hr].
    done. }
  apply (for_items_sound h d its) in Hr
    as (objss & Hall & -> & -> & Hrel); [|done|done|apply relabelled_refl|done].
  exists d, its, objss. by split_and!.
Qed.

Lemma related_from_complete h0 g d its objss :
  h0 !! d = Some (ODict its) → ¬ typed its → relabelled h0 g →
  Forall2 (item_spec h0) its objss →
  run (related_from (VRef d)) g
  = (inr (concat objss), apply_steps (steps h0 its) g).
Proof.
  intros Hd Hnt Hrel Hall. unfold related_from.
  destruct (relabelled_dict _ _ _ _ Hrel Hd) as (d' & Hg & _ & _ & Hsame).
  rewrite (Hsame Hnt) in Hg.
  rewrite run_bind, (run_items _ _ _ Hg) by eauto with free.
  rewrite run_bind, (run_deref _ _ _ Hg) by eauto with free.
  cbn zeta.
  by rewrite (for_items_complete h0 d its _ 0 [] g objss).
Qed.


End related_from.

(** ** Reading a store whose records were annotated *)

Lemma contains_frame ks h g sep x :
  frame ks h g → sep ∉ ks →
  run (contains sep x) g = ((run (contains sep x) h).1, g).
Proof.
  intros Hf Hsep. unfold run, contains. destruct x as [| | | | |l]; try done.
  rewrite !bind_unfold. unfold deref. cbn [heap].
  specialize (Hf l). destruct (h !! l) as [[d|xs]|].
  - destruct Hf as (d' & -> & Han). simpl.
    by rewrite (annotated_get _ _ _ _ Han Hsep).
  - by rewrite Hf.
  - by rewrite Hf.
Qed.

Lemma date_range_frame ks h g t :
  frame ks h g → " to " ∉ ks →
  run (date_range t) g = ((run (date_range t) h).1, g).
Proof.
  intros Hf Hsep. unfold date_range.
  rewrite !run_bind by eauto with free.
  rewrite (contains_frame _ _ _ _ _ Hf Hsep).
  pose proof (read_only_run _ h _ _ (read_only_contains " to " t)
                (surjective_pairing _)) as Heq.
  destruct (run (contains " to " t) h) as [[e|found] h1]; simpl in *; [done|].
  subst h1. destruct found; simpl; [|done].
  unfold run, split. destruct t as [| | | |s|]; try done.
  rewrite !bind_ret. unfold unpack2.
  by destruct (VStr <$> str_split " to " s) as [|a [|b [|c l]]].
Qed.


Lemma getitem_relabelled h g x k v h1 :
  relabelled h g → k ≠ "relation" →
  run (getitem x k) h = (inr v, h1) → run (getitem x k) g = (inr v, g).
Proof.
  intros Hrel Hk Hr. apply run_getitem_ok in Hr as (r & d & -> & Hd & Hv).
  destruct (relabelled_dict _ _ _ _ Hrel Hd) as (d' & Hg & _ & Hget & _).
  eapply run_getitem; [done..|]. by rewrite Hget.
Qed.

Lemma comprehension_relabelled h g xs names h1 :
  relabelled h g →
  run (comprehension (λ x, getitem x "name") xs) h = (inr names, h1) →
  run (comprehension (λ x, getitem x "name") xs) g = (inr names, g).
Proof.
  intros Hrel. revert names h1.
  induction xs as [|x xs IH]; intros names h1; simpl.
  - rewrite !run_ret. by intros [= <- _].
  - intros Hr.
    apply run_bind_ok in Hr as (n & h2 & Hn & Hr); [|eauto with free].
    pose proof (read_only_run _ _ _ _ (read_only_getitem _ _) Hn) as Heq.
    subst h2.
    apply run_bind_ok in Hr as (ns & h2 & Hns & Hr);
      [|apply kwargs_free_comprehension; eauto with free].
    rewrite run_ret in Hr. injection Hr as <- _.
    rewrite run_bind by eauto with free.
    assert ("name" ≠ "relation") as Hne by done.
    rewrite (getitem_relabelled _ _ _ _ _ _ Hrel Hne Hn).
    rewrite run_bind by (apply kwargs_free_comprehension; eauto with free).
    by rewrite (IH _ _ Hns), run_ret.
Qed.

Lemma names_of_plain x h g :
  (∀ l, x ≠ VRef l) → run (names_of x) g = ((run (names_of x) h).1, g).
Proof.
  intros Hx. unfold run, names_of, truthy.
  destruct x as [|b|n|bits|s|l]; try done.
  - by destruct b.
  - simpl. by destruct (negb _).
  - simpl. by destruct (negb _).
  - destruct s as [|c s]; [done|].
    destruct (chars_cons c s) as (g0 & rest & Hcs).
    rewrite !bind_ret. change (String.eqb (String c s) "") with false.
    cbn [negb]. unfold iter. rewrite !bind_ret, Hcs. done.
  - by destruct (Hx l).
Qed.

Lemma names_of_ref_dict l d h :
  h !! l = Some (ODict d) →
  run (names_of (VRef l)) h
  = (match d with [] => inr None | _ => inl TypeError end, h).
Proof.
  intros Hl. unfold run, names_of, truthy, iter.
  rewrite !bind_bind, !bind_unfold. unfold deref. cbn [heap].
  rewrite Hl. destruct d as [|[k v] d]; simpl; [done|].
  rewrite bind_ret, !bind_bind, bind_unfold. cbn [heap]. by rewrite Hl.
Qed.

Lemma names_of_ref_list l xs h :
  h !! l = Some (OList xs) →
  run (names_of (VRef l)) h
  = match xs with
    | [] => (inr None, h)
    | _ => match run (comprehension (λ g, getitem g "name") xs) h with
           | (inr ns, h') => (inr (Some ns), h')
           | (inl e, h') => (inl e, h')
           end
    end.
Proof.
  intros Hl. destruct xs as [|x xs].
  - by apply names_of_empty.
  - unfold run at 1, names_of, truthy, iter.
    rewrite !bind_bind, !bind_unfold. unfold deref. cbn [heap].
    rewrite Hl, bind_ret, bool_decide_eq_false_2 by done. cbn [negb].
    rewrite !bind_bind, bind_unfold. cbn [heap]. rewrite Hl.
    rewrite bind_ret, bind_unfold. unfold run.
    by destruct (comprehension _ (x :: xs) _) as [??|??].
Qed.

Lemma names_of_relabelled h g x r h1 :
  relabelled h g →
  run (names_of x) h = (inr r, h1) → run (names_of x) g = (inr r, g).
Proof.
  intros Hrel Hr.
  pose proof (read_only_run _ _ _ _ (read_only_names_of _) Hr) as Heq. subst h1.
  destruct x as [| | | | |l];
    try (rewrite (names_of_plain _ h g), Hr by done; done).
  destruct (h !! l) as [[d|xs]|] eqn:Hl.
  - rewrite (names_of_ref_dict _ _ _ Hl) in Hr.
    destruct d as [|kv d]; [|done]. injection Hr as <-.
    destruct (relabelled_dict _ _ _ _ Hrel Hl) as (d' & Hg & _ & _ & Hsame).
    rewrite (Hsame typed_nil) in Hg. by rewrite (names_of_ref_dict _ _ _ Hg).
  - pose proof Hl as Hg. apply (relabelled_list _ _ _ _ Hrel) in Hg.
    rewrite (names_of_ref_list _ _ _ Hl) in Hr.
    rewrite (names_of_ref_list _ _ _ Hg).
    destruct xs as [|x xs]; [by injection Hr as <-|].
    destruct (run (comprehension _ (x :: xs)) h) as [[e|ns] h2] eqn:Hc; [done|].
    injection Hr as <- <-.
    by rewrite (comprehension_relabelled _ _ _ _ _ Hrel Hc).
  - unfold run, names_of, truthy in Hr.
    rewrite !bind_bind, !bind_unfold in Hr. unfold deref in Hr.
    cbn [heap] in Hr. by rewrite Hl in Hr.
Qed.

Section again.
Context `{!Collaborators, !TypedRelations}.


End again.

(** ** The collaborators of the spec obey its laws *)

#[global] Instance spec_typed_relations : TypedRelations.
Proof.
  intros d obj. unfold create_relation, spec_collaborators, spec_create_relation.
  destruct (dict_get "type" d) as [[| | | |kind|]|] eqn:Ht; try done.
  intros Hobj. exists kind. split; [done|]. by intros ->.
Qed.

(** ** The related titles of an Anime and of a Manga *)

Lemma by_parts_returns {A P} (init : value → M A) of_parts (parts : _ → M P)
    id kw h p h' :
  by_parts init of_parts parts →
  run (parts kw) h = (inr p, h') →
  construct (init id) kw h = (inr (of_parts id kw p), h').
Proof. by intros -> ->. Qed.

Lemma get_ref k kw d : get k kw = VRef d → kw !! k = Some (VRef d).
Proof. unfold get. destruct (kw !! k); simpl; [congruence|done]. Qed.

Lemma ref_get k kw d : kw !! k = Some (VRef d) → get k kw = VRef d.
Proof. unfold get. by intros ->. Qed.

Section related_titles.
Context `{!Collaborators, !TypedRelations}.

Lemma Anime_parts_returns kw h d g r h' :
  run (date_range (get "aired_string" kw)) h = (inr d, h) →
  run (names_of (chosen_genres kw)) h = (inr g, h) →
  run (related_from (get "related" kw)) h = (inr r, h') →
  run (Anime.parts kw) h = (inr (d, g, r), h').
Proof.
  intros Hd Hg Hr. unfold Anime.parts.
  rewrite run_bind, Hd by apply kwargs_free_date_range. cbn beta iota.
  rewrite run_bind, Hg by apply kwargs_free_names_of. cbn beta iota.
  rewrite run_bind, Hr by apply kwargs_free_related_from. cbn beta iota.
  by rewrite run_ret.
Qed.

Lemma Manga_parts_returns kw h d a g s r ha h' :
  run (date_range (get "published_string" kw)) h = (inr d, h) →
  run (Manga.author_from (get "author" kw)) h = (inr a, ha) →
  run (names_of (chosen_genres kw)) ha = (inr g, ha) →
  run (first (get "serialization" kw)) ha = (inr s, ha) →
  run (related_from (get "related" kw)) ha = (inr r, h') →
  run (Manga.parts kw) h = (inr (d, a, g, s, r), h').
Proof.
  intros Hd Ha Hg Hs Hr. unfold Manga.parts.
  rewrite run_bind, Hd by apply kwargs_free_date_range. cbn beta iota.
  rewrite run_bind, Ha by apply kwargs_free_author_from. cbn beta iota.
  rewrite run_bind, Hg by apply kwargs_free_names_of. cbn beta iota.
  rewrite run_bind, Hs by apply kwargs_free_first. cbn beta iota.
  rewrite run_bind, Hr by apply kwargs_free_related_from. cbn beta iota.
  by rewrite run_ret.
Qed.

(** C4.  Whenever [Anime.__init__] returns, the payload holds under
    ['related'] a mapping [its] of relation types to lists of records, and
    the [related] attribute is the concatenation, in the order of the items
    of the mapping, of the references [create_relation] builds from each
    record once it is labelled under ['relation'] with its relation type;
    the store is left with exactly these labels written, in that order.
    Conversely the constructor returns this list whenever the date range
    and the genres are accepted and every record of the mapping is accepted
    by [create_relation].  The same holds of [Manga.__init__], read in the
    store the author block of lines 240-242 leaves. *)
Theorem C4_related_in_order (id : value) (kw : gmap string value)
    (h : gmap loc object) :
  (∀ x h', construct (Anime.__init__ id) kw h = (inr x, h') →
     ∃ d its objss,
       kw !! "related" = Some (VRef d) ∧ h !! d = Some (ODict its) ∧
       Forall2 (item_spec h) its objss ∧
       Anime.related x = concat objss ∧
       h' = apply_steps (steps h its) h) ∧
  (∀ dates g d its objss,
     run (date_range (get "aired_string" kw)) h = (inr dates, h) →
     run (names_of (chosen_genres kw)) h = (inr g, h) →
     kw !! "related" = Some (VRef d) → h !! d = Some (ODict its) →
     ¬ typed its → Forall2 (item_spec h) its objss →
     ∃ x, construct (Anime.__init__ id) kw h
          = (inr x, apply_steps (steps h its) h) ∧
          Anime.related x = concat objss) ∧
  (∀ x h', construct (Manga.__init__ id) kw h = (inr x, h') →
     ∃ a ha d its objss,
       run (Manga.author_from (get "author" kw)) h = (inr a, ha) ∧
       kw !! "related" = Some (VRef d) ∧ ha !! d = Some (ODict its) ∧
       Forall2 (item_spec ha) its objss ∧
       Manga.related x = concat objss ∧
       h' = apply_steps (steps ha its) ha) ∧
  (∀ dates a ha g s d its objss,
     run (date_range (get "published_string" kw)) h = (inr dates, h) →
     run (Manga.author_from (get "author" kw)) h = (inr a, ha) →
     run (names_of (chosen_genres kw)) ha = (inr g, ha) →
     run (first (get "serialization" kw)) ha = (inr s, ha) →
     kw !! "related" = Some (VRef d) → ha !! d = Some (ODict its) →
     ¬ typed its → Forall2 (item_spec ha) its objss →
     ∃ x, construct (Manga.__init__ id) kw h
          = (inr x, apply_steps (steps ha its) ha) ∧
          Manga.related x = concat objss).
Proof.
  split_and!.
  - intros x h' Hx.
    apply (by_parts_ok _ _ _ _ _ _ _ _ Anime_construct) in Hx as (p & Hp & ->).
    apply Anime_parts_ok in Hp as (dts & g & r & _ & _ & Hr & ->).
    apply related_from_sound in Hr
      as (d & its & objss & Hd & Hits & _ & Hall & -> & -> & _).
    exists d, its, objss. split_and!; try done; [by apply get_ref|by destruct dts].
  - intros [start stop] g d its objss Hd Hg Hkw Hits Hnt Hall.
    exists (Anime.of_parts id kw (start, stop, g, concat objss)). split.
    + apply (by_parts_returns _ _ _ id kw h _ _ Anime_construct).
      apply Anime_parts_returns; [exact Hd|exact Hg|].
      rewrite (ref_get _ _ _ Hkw).
      by apply (related_from_complete h h d its objss Hits Hnt (relabelled_refl h)).
    + done.
  - intros x h' Hx.
    apply (by_parts_ok _ _ _ _ _ _ _ _ Manga_construct) in Hx as (p & Hp & ->).
    apply Manga_parts_ok in Hp
      as (dts & [a0 a1] & g & s & r & ha & _ & Ha & _ & _ & Hr & ->).
    apply related_from_sound in Hr
      as (d & its & objss & Hd & Hits & _ & Hall & -> & -> & _).
    exists (a0, a1), ha, d, its, objss.
    split_and!; try done; [by apply get_ref|by destruct dts].
  - intros [start stop] [a0 a1] ha g s d its objss Hd Ha Hg Hs Hkw Hits Hnt Hall.
    exists (Manga.of_parts id kw (start, stop, (a0, a1), g, s, concat objss)).
    split.
    + apply (by_parts_returns _ _ _ id kw h _ _ Manga_construct).
      apply (Manga_parts_returns _ _ _ _ _ _ _ ha); [exact Hd|exact Ha|exact Hg|exact Hs|].
      rewrite (ref_get _ _ _ Hkw).
      by apply (related_from_complete ha ha d its objss Hits Hnt (relabelled_refl ha)).
    + done.
Qed.

End related_titles.

(** The mapping of the spec, [{"Sequel": [{"type": "anime", "url":
    ".../anime/5/Name", ...}]}], with the collaborators as the spec
    describes them: the related list has one entry, an Anime-reference with
    identifier 5 tagged "Sequel", and the record is left labelled. *)
Lemma C4_witness :
  ∃ x h',
    construct (Anime.__init__ (VInt 1))
      (sample_anime (VStr "Apr 3, 2020 to ?") (VRef 4)) sample_store
    = (inr x, h') ∧
    Anime.related x
    = [Reference AnimeReference (VInt 5) (VStr "Name")
         (VStr "https://myanimelist.net/anime/5/Name") (VStr "Sequel")] ∧
    h' = apply_steps [("Sequel", 3%positive)] sample_store.
Proof.
  destruct (construct (Anime.__init__ (VInt 1))
              (sample_anime (VStr "Apr 3, 2020 to ?") (VRef 4)) sample_store)
    as [[e|x] h'] eqn:Hx; [vm_compute in Hx; discriminate|].
  exists x, h'. split; [reflexivity|].
  destruct (proj1 (C4_related_in_order (VInt 1)
              (sample_anime (VStr "Apr 3, 2020 to ?") (VRef 4)) sample_store)
              x h' Hx)
    as (d & its & objss & Hkw & Hd & Hall & Hrel & Hh).
  vm_compute in Hkw. injection Hkw as <-.
  vm_compute in Hd. injection Hd as <-.
  rewrite Hrel, Hh. clear Hx Hrel Hh.
  inversion Hall as [|it objs its' objss' [_ Hobjs] Hnil]; subst.
  inversion Hnil; subst. cbn [fst snd] in Hobjs.
  assert (targets sample_store (VRef 2) = [3%positive]) as Ht
    by (vm_compute; reflexivity).
  rewrite Ht in Hobjs.
  inversion Hobjs as [|r obj rs objs' (d0 & Hr & Hobj) Hnil']; subst.
  inversion Hnil'; subst.
  vm_compute in Hr. injection Hr as <-.
  vm_compute in Hobj. injection Hobj as <-.
  split; reflexivity.
Defined.


(** * Further properties of the constructors *)

(** ** A constructor reads its own keys only *)

Ltac same_on :=
  unfold same_on in *;
  repeat match goal with
         | H : Forall _ (_ :: _) |- _ => apply Forall_cons_1 in H as [? H]
         end;
  cbn beta in *.

Ltac by_keys :=
  repeat match goal with
         | H : get ?k ?kw1 = get ?k ?kw2 |- _ => try rewrite H; clear H
         end.

Section keys.
Context `{!Collaborators}.

(** X1.  The outcome of a constructor, the object or the exception and the
    store it leaves, depends on the payload through the keys the constructor
    pops only, and a key bound to None is as good as an absent one: two
    payloads the call accepts that agree on these keys give the same
    outcome, whatever other keys they hold. *)
Theorem X1_outcome_depends_on_popped_keys (id : value)
    (kw1 kw2 : gmap string value) (h : gmap loc object) :
  (unbound Anime_parameters kw1 → unbound Anime_parameters kw2 →
   same_on Anime_keys kw1 kw2 →
     construct (Anime.__init__ id) kw1 h = construct (Anime.__init__ id) kw2 h) ∧
  (unbound Manga_parameters kw1 → unbound Manga_parameters kw2 →
   same_on Manga_keys kw1 kw2 →
     construct (Manga.__init__ id) kw1 h = construct (Manga.__init__ id) kw2 h) ∧
  (unbound Character_parameters kw1 → unbound Character_parameters kw2 →
   same_on Character_keys kw1 kw2 →
     construct (Character.__init__ id) kw1 h
     = construct (Character.__init__ id) kw2 h) ∧
  (unbound Person_parameters kw1 → unbound Person_parameters kw2 →
   same_on Person_keys kw1 kw2 →
     construct (Person.__init__ id) kw1 h = construct (Person.__init__ id) kw2 h).
Proof.
  split_and!; intros _ _ Hs.
  - rewrite !Anime_construct. unfold Anime_keys in Hs. same_on.
    assert (Anime.parts kw1 = Anime.parts kw2) as ->
      by (unfold Anime.parts, chosen_genres; by by_keys).
    destruct (run (Anime.parts kw2) h) as [[e|[[[s e] g] r]] h']; [done|].
    unfold Anime.of_parts, chosen_genres. by by_keys.
  - rewrite !Manga_construct. unfold Manga_keys in Hs. same_on.
    assert (Manga.parts kw1 = Manga.parts kw2) as ->
      by (unfold Manga.parts, chosen_genres; by by_keys).
    destruct (run (Manga.parts kw2) h) as [[e|[[[[[s e] [a0 a1]] g] z] r]] h'];
      [done|].
    unfold Manga.of_parts, chosen_genres. by by_keys.
  - rewrite !Character_construct. unfold Character_keys in Hs. same_on.
    assert (Character.parts kw1 = Character.parts kw2) as ->
      by (unfold Character.parts; by by_keys).
    destruct (run (Character.parts kw2) h) as [[e|[a m]] h']; [done|].
    unfold Character.of_parts. by by_keys.
  - rewrite !Person_construct. unfold Person_keys in Hs. same_on.
    unfold Person.by_lookup. by by_keys.
Qed.

End keys.

(** A payload with a key no constructor knows and with a title bound to
    None, against the payload without them. *)
Lemma X1_witness :
  construct (Anime.__init__ (VInt 1))
    (<["unknown" := VInt 3]>
       (<["title" := VNone]> (sample_anime (VStr "Apr 3, 2020 to ?") (VRef 4))))
    sample_store
  = construct (Anime.__init__ (VInt 1))
      (sample_anime (VStr "Apr 3, 2020 to ?") (VRef 4)) sample_store.
Proof.
  apply (proj1 (X1_outcome_depends_on_popped_keys (VInt 1)
    (<["unknown" := VInt 3]>
       (<["title" := VNone]> (sample_anime (VStr "Apr 3, 2020 to ?") (VRef 4))))
    (sample_anime (VStr "Apr 3, 2020 to ?") (VRef 4)) sample_store)).
  - unfold unbound, Anime_parameters.
    repeat (apply Forall_cons_2; [vm_compute; reflexivity|]).
    apply Forall_nil_2.
  - unfold unbound, Anime_parameters.
    repeat (apply Forall_cons_2; [vm_compute; reflexivity|]).
    apply Forall_nil_2.
  - unfold same_on, Anime_keys.
    repeat (apply Forall_cons_2; [vm_compute; reflexivity|]).
    apply Forall_nil_2.
Defined.

(** ** Fields stored as they are found *)

Section verbatim.
Context `{!Collaborators}.

Ltac stored_field :=
  match goal with
  | H : _ ∈ _ |- _ =>
      repeat (apply elem_of_cons in H as [H|H];
              [injection H as -> ->|]);
      [..|by apply elem_of_nil in H]
  end.

(** X2.  An object a constructor returns holds the identifier it was called
    with and, in the attribute of every field that is only stored, the
    value the payload has for the field (None when it has none), whatever
    the normalised fields are; the raw date range, the raw genres and the
    raw lists of related titles and of appearances are kept beside the
    values computed from them. *)
Theorem X2_fields_stored_verbatim (id : value) (kw : gmap string value)
    (h : gmap loc object) :
  (∀ x h', construct (Anime.__init__ id) kw h = (inr x, h') →
     Anime.id x = id ∧
     (∀ k proj, (k, proj) ∈ Anime_optional → proj x = get k kw) ∧
     Anime._air_time x = get "aired_string" kw ∧
     Anime._raw_genres x = chosen_genres kw ∧
     Anime._raw_related x = get "related" kw) ∧
  (∀ x h', construct (Manga.__init__ id) kw h = (inr x, h') →
     Manga.id x = id ∧
     (∀ k proj, (k, proj) ∈ Manga_optional → proj x = get k kw) ∧
     Manga._publish_time x = get "published_string" kw ∧
     Manga._raw_genres x = chosen_genres kw ∧
     Manga._raw_related x = get "related" kw) ∧
  (∀ x h', construct (Character.__init__ id) kw h = (inr x, h') →
     Character.id x = id ∧
     (∀ k proj, (k, proj) ∈ Character_optional → proj x = get k kw) ∧
     Character._raw_animeography x = get "animeography" kw ∧
     Character._raw_mangaography x = get "mangaography" kw).
Proof.
  split_and!; intros x h' Hx.
  - apply (by_parts_ok _ _ _ _ _ _ _ _ Anime_construct) in Hx
      as ([[[s e] g] r] & _ & ->).
    split_and!; try done. intros k proj Hin.
    unfold Anime_optional in Hin. stored_field; reflexivity.
  - apply (by_parts_ok _ _ _ _ _ _ _ _ Manga_construct) in Hx
      as ([[[[[s e] [a0 a1]] g] z] r] & _ & ->).
    split_and!; try done. intros k proj Hin.
    unfold Manga_optional in Hin. stored_field; reflexivity.
  - apply (by_parts_ok _ _ _ _ _ _ _ _ Character_construct) in Hx
      as ([a m] & _ & ->).
    split_and!; try done. intros k proj Hin.
    unfold Character_optional in Hin. stored_field; reflexivity.
Qed.

End verbatim.

(** The sample character: its name is the one of the payload, and the
    voice actors, which the payload does not give, are None. *)
Lemma X2_witness :
  ∃ x h', construct (Character.__init__ (VInt 7)) sample_character
            sample_store = (inr x, h') ∧
    Character.id x = VInt 7 ∧
    Character.name x = VStr "Name" ∧ Character.voice_actors x = VNone ∧
    Character._raw_animeography x = VRef 10.
Proof.
  destruct (construct (Character.__init__ (VInt 7)) sample_character
              sample_store) as [[e|x] h'] eqn:Hx;
    [vm_compute in Hx; discriminate|].
  exists x, h'. split; [reflexivity|].
  destruct (proj2 (proj2 (X2_fields_stored_verbatim (VInt 7) sample_character
              sample_store)) x h' Hx) as (Hid & Hall & Ha & _).
  split_and!.
  - exact Hid.
  - apply (Hall "name" Character.name). unfold Character_optional.
    apply elem_of_cons. right. apply elem_of_cons. by left.
  - apply (Hall "voice_actors" Character.voice_actors).
    unfold Character_optional. do 6 (apply elem_of_cons; right).
    apply elem_of_cons. by left.
  - exact Ha.
Defined.

(** ** The serialization of a Manga *)

Section serialization.
Context `{!Collaborators}.

(** X3.  Line 249 keeps element 0 of the payload's ['serialization'].  When
    the call of the Manga constructor returns, the attribute is the first
    element of that list, or the first character when the payload gives a
    string.  For a payload that binds no parameter, once the date range,
    the author and the genres are accepted, a payload without
    ['serialization'] raises a TypeError and one with an empty list or an
    empty string an IndexError, in the store the author block has already
    written the author's identifier into. *)
Theorem X3_manga_serialization_first (id : value) (kw : gmap string value)
    (h : gmap loc object) :
  (∀ x h', call Manga_parameters (Manga.__init__ id) kw h = (inr x, h') →
     (∀ l xs, kw !! "serialization" = Some (VRef l) →
        h !! l = Some (OList xs) →
        ∃ rest, xs = Manga.serialization x :: rest) ∧
     (∀ s, kw !! "serialization" = Some (VStr s) →
        ∃ c rest, s = String c rest ∧
                  Manga.serialization x
                  = VStr (String c (continuations rest)))) ∧
  (unbound Manga_parameters kw →
   ∀ dates a ha g,
     run (date_range (get "published_string" kw)) h = (inr dates, h) →
     run (Manga.author_from (get "author" kw)) h = (inr a, ha) →
     run (names_of (chosen_genres kw)) ha = (inr g, ha) →
     (kw !! "serialization" = None →
        call Manga_parameters (Manga.__init__ id) kw h = (inl TypeError, ha)) ∧
     (∀ l, kw !! "serialization" = Some (VRef l) →
        h !! l = Some (OList []) →
        call Manga_parameters (Manga.__init__ id) kw h
        = (inl IndexError, ha)) ∧
     (kw !! "serialization" = Some (VStr EmptyString) →
        call Manga_parameters (Manga.__init__ id) kw h
        = (inl IndexError, ha))).
Proof.
  split.
  - intros x h' [_ Hx]%call_returns.
    apply (by_parts_ok _ _ _ _ _ _ _ _ Manga_construct) in Hx as (p & Hp & ->).
    apply Manga_parts_ok in Hp
      as ([s0 e0] & [a0 a1] & g & s & rel & h1 & _ & Ha & _ & Hs & _ & ->).
    pose proof (frames_run ["id"] _ h (frames_author_from (get "author" kw)))
      as Hf.
    rewrite Ha in Hf. cbn [snd] in Hf.
    split.
    + intros l xs Hkw Hl. unfold get in Hs. rewrite Hkw in Hs.
      change (default VNone (Some (VRef l))) with (VRef l) in Hs.
      apply (frame_list _ _ _ l xs Hf) in Hl.
      destruct xs as [|x0 rest].
      * rewrite (run_first_empty _ _ Hl) in Hs. discriminate.
      * rewrite (run_first_list _ _ _ _ Hl) in Hs. injection Hs as <-.
        by exists rest.
    + intros t Hkw. unfold get in Hs. rewrite Hkw in Hs.
      destruct t as [|c rest]; [discriminate|].
      injection Hs as <-. by exists c, rest.
  - intros Hu [s0 e0] [a0 a1] ha g Hd Ha Hg.
    pose proof (frames_run ["id"] _ h (frames_author_from (get "author" kw)))
      as Hf.
    rewrite Ha in Hf. cbn [snd] in Hf.
    assert (∀ e, run (first (get "serialization" kw)) ha = (inl e, ha) →
                 call Manga_parameters (Manga.__init__ id) kw h = (inl e, ha))
      as Hraise.
    { intros e He. apply (call_raises _ _ _ _ _ _ Hu).
      apply (by_parts_raise _ _ _ id kw h _ _ Manga_construct).
      unfold Manga.parts.
      rewrite run_bind, Hd by apply kwargs_free_date_range. cbn beta iota.
      rewrite run_bind, Ha by apply kwargs_free_author_from. cbn beta iota.
      rewrite run_bind, Hg by apply kwargs_free_names_of. cbn beta iota.
      by rewrite run_bind, He by apply kwargs_free_first. }
    split_and!.
    + intros Hkw. apply Hraise. unfold get. by rewrite Hkw.
    + intros l Hkw Hl. apply Hraise. unfold get. rewrite Hkw.
      apply run_first_empty. by apply (frame_list _ _ _ l [] Hf).
    + intros Hkw. apply Hraise. unfold get. by rewrite Hkw.
Qed.

End serialization.

(** The sample Manga is serialized in "Magazine"; of the string "Étoile",
    whose first character takes two bytes, the constructor keeps "É";
    without the field it raises after it has written the identifier of the
    author. *)
Lemma X3_witness :
  (∃ x h', call Manga_parameters (Manga.__init__ (VInt 1))
             (sample_manga (VStr "2020") (VRef 4)) sample_store = (inr x, h') ∧
           ∃ rest, [VStr "Magazine"] = Manga.serialization x :: rest) ∧
  (∃ x h', call Manga_parameters (Manga.__init__ (VInt 1))
             (<["serialization" := VStr "Étoile"]>
                (sample_manga (VStr "2020") (VRef 4))) sample_store
           = (inr x, h') ∧
           Manga.serialization x = VStr "É") ∧
  (∃ a ha, run (Manga.author_from (VRef 7)) sample_store = (inr a, ha) ∧
           ha ≠ sample_store ∧
           call Manga_parameters (Manga.__init__ (VInt 1))
             (delete "serialization" (sample_manga (VStr "2020") (VRef 4)))
             sample_store = (inl TypeError, ha)).
Proof.
  split_and!.
  - destruct (call Manga_parameters (Manga.__init__ (VInt 1))
                (sample_manga (VStr "2020") (VRef 4)) sample_store)
      as [[e|x] h'] eqn:Hx; [vm_compute in Hx; discriminate|].
    exists x, h'. split; [reflexivity|].
    apply (proj1 (proj1 (X3_manga_serialization_first (VInt 1)
      (sample_manga (VStr "2020") (VRef 4)) sample_store) x h' Hx)
      14%positive [VStr "Magazine"]); reflexivity.
  - destruct (call Manga_parameters (Manga.__init__ (VInt 1))
                (<["serialization" := VStr "Étoile"]>
                   (sample_manga (VStr "2020") (VRef 4))) sample_store)
      as [[e|x] h'] eqn:Hx; [vm_compute in Hx; discriminate|].
    exists x, h'. split; [reflexivity|].
    destruct (proj2 (proj1 (X3_manga_serialization_first (VInt 1)
      (<["serialization" := VStr "Étoile"]>
         (sample_manga (VStr "2020") (VRef 4))) sample_store) x h' Hx)
      "Étoile" (lookup_insert_eq _ _ _)) as (c & rest & Hs & ->).
    injection Hs as <- <-. reflexivity.
  - destruct (run (Manga.author_from (VRef 7)) sample_store)
      as [[e|a] ha] eqn:Ha; [vm_compute in Ha; discriminate|].
    exists a, ha. split; [reflexivity|].
    pose proof Ha as Hc. vm_compute in Hc. injection Hc as Ea Eh.
    split.
    + intros Hh. rewrite Hh in Eh. vm_compute in Eh. discriminate.
    + assert (unbound Manga_parameters
                (delete "serialization" (sample_manga (VStr "2020") (VRef 4))))
        as Hu by sample_unbound.
      assert (run (date_range (get "published_string"
                (delete "serialization" (sample_manga (VStr "2020") (VRef 4)))))
                sample_store = (inr (VStr "2020", VNone), sample_store)) as Hd
        by (vm_compute; reflexivity).
      assert (run (names_of (chosen_genres
                (delete "serialization" (sample_manga (VStr "2020") (VRef 4)))))
                ha = (inr (Some [VStr "Action"; VStr "Drama"]), ha)) as Hg
        by (rewrite <- Eh; vm_compute; reflexivity).
      apply (proj1 (proj2 (X3_manga_serialization_first (VInt 1)
        (delete "serialization" (sample_manga (VStr "2020") (VRef 4)))
        sample_store) Hu (VStr "2020", VNone) a ha
        (Some [VStr "Action"; VStr "Drama"]) Hd Ha Hg)).
      reflexivity.
Defined.

(** ** A payload without a mapping of related titles *)

Lemma run_items_list l xs h :
  h !! l = Some (OList xs) → run (items (VRef l)) h = (inl AttributeError, h).
Proof.
  intros Hl. unfold run, items. rewrite bind_unfold. unfold deref.
  cbn [heap]. by rewrite Hl.
Qed.

Section no_related.
Context `{!Collaborators}.

Lemma related_from_raise x h e :
  run (items x) h = (inl e, h) → run (related_from x) h = (inl e, h).
Proof.
  intros Hx. unfold related_from. by rewrite run_bind, Hx by eauto with free.
Qed.

Lemma related_from_empty d h :
  h !! d = Some (ODict []) → run (related_from (VRef d)) h = (inr [], h).
Proof.
  intros Hd. unfold related_from.
  rewrite run_bind, (run_items _ _ _ Hd) by eauto with free. cbn beta iota.
  unfold run. rewrite bind_unfold. unfold deref. cbn [heap]. rewrite Hd.
  cbn beta iota zeta. cbn [length for_items].
  rewrite bind_unfold. unfold deref. cbn [heap]. by rewrite Hd.
Qed.

(** X4.  Lines 136-137 and 258-259 call [items()] on whatever the payload
    gives for ['related'].  For a payload that binds no parameter, once the
    blocks before the loop are accepted, a payload without ['related'], or
    with a list there, raises an AttributeError: the Anime constructor
    leaves the store as it was, the Manga constructor leaves it with the
    identifier of the author written.  An empty mapping gives an empty
    [related] list. *)
Theorem X4_related_needs_a_mapping (id : value) (kw : gmap string value)
    (h : gmap loc object) :
  (unbound Anime_parameters kw →
   ∀ dates g,
     run (date_range (get "aired_string" kw)) h = (inr dates, h) →
     run (names_of (chosen_genres kw)) h = (inr g, h) →
     (kw !! "related" = None →
        call Anime_parameters (Anime.__init__ id) kw h = (inl AttributeError, h)) ∧
     (∀ l xs, kw !! "related" = Some (VRef l) → h !! l = Some (OList xs) →
        call Anime_parameters (Anime.__init__ id) kw h = (inl AttributeError, h)) ∧
     (∀ l, kw !! "related" = Some (VRef l) → h !! l = Some (ODict []) →
        ∃ x, call Anime_parameters (Anime.__init__ id) kw h = (inr x, h) ∧
             Anime.related x = [])) ∧
  (unbound Manga_parameters kw →
   ∀ dates a ha g s,
     run (date_range (get "published_string" kw)) h = (inr dates, h) →
     run (Manga.author_from (get "author" kw)) h = (inr a, ha) →
     run (names_of (chosen_genres kw)) ha = (inr g, ha) →
     run (first (get "serialization" kw)) ha = (inr s, ha) →
     (kw !! "related" = None →
        call Manga_parameters (Manga.__init__ id) kw h = (inl AttributeError, ha)) ∧
     (∀ l xs, kw !! "related" = Some (VRef l) → ha !! l = Some (OList xs) →
        call Manga_parameters (Manga.__init__ id) kw h = (inl AttributeError, ha)) ∧
     (∀ l, kw !! "related" = Some (VRef l) → ha !! l = Some (ODict []) →
        ∃ x, call Manga_parameters (Manga.__init__ id) kw h = (inr x, ha) ∧
             Manga.related x = [])).
Proof.
  split.
  - intros Hu [s0 e0] g Hd Hg. rewrite (call_unbound _ _ _ _ Hu).
    assert (∀ r, run (related_from (get "related" kw)) h = (r, h) →
                 run (Anime.parts kw) h
                 = (match r with
                    | inr rel => inr (s0, e0, g, rel)
                    | inl e => inl e
                    end, h)) as Hparts.
    { intros r Hr. unfold Anime.parts.
      rewrite run_bind, Hd by apply kwargs_free_date_range. cbn beta iota.
      rewrite run_bind, Hg by apply kwargs_free_names_of. cbn beta iota.
      rewrite run_bind, Hr by apply kwargs_free_related_from.
      by destruct r. }
    split_and!.
    + intros Hkw. rewrite Anime_construct, (Hparts (inl AttributeError)); [done|].
      apply related_from_raise. unfold get. by rewrite Hkw.
    + intros l xs Hkw Hl.
      rewrite Anime_construct, (Hparts (inl AttributeError)); [done|].
      apply related_from_raise. unfold get. rewrite Hkw.
      by apply (run_items_list l xs).
    + intros l Hkw Hl. eexists.
      rewrite Anime_construct, (Hparts (inr [])); [done|].
      unfold get. rewrite Hkw. by apply related_from_empty.
  - intros Hu [s0 e0] [a0 a1] ha g s Hd Ha Hg Hs.
    rewrite (call_unbound _ _ _ _ Hu).
    assert (∀ r, run (related_from (get "related" kw)) ha = (r, ha) →
                 run (Manga.parts kw) h
                 = (match r with
                    | inr rel => inr (s0, e0, (a0, a1), g, s, rel)
                    | inl e => inl e
                    end, ha)) as Hparts.
    { intros r Hr. unfold Manga.parts.
      rewrite run_bind, Hd by apply kwargs_free_date_range. cbn beta iota.
      rewrite run_bind, Ha by apply kwargs_free_author_from. cbn beta iota.
      rewrite run_bind, Hg by apply kwargs_free_names_of. cbn beta iota.
      rewrite run_bind, Hs by apply kwargs_free_first. cbn beta iota.
      rewrite run_bind, Hr by apply kwargs_free_related_from.
      by destruct r. }
    split_and!.
    + intros Hkw. rewrite Manga_construct, (Hparts (inl AttributeError)); [done|].
      apply related_from_raise. unfold get. by rewrite Hkw.
    + intros l xs Hkw Hl.
      rewrite Manga_construct, (Hparts (inl AttributeError)); [done|].
      apply related_from_raise. unfold get. rewrite Hkw.
      by apply (run_items_list l xs).
    + intros l Hkw Hl. eexists.
      rewrite Manga_construct, (Hparts (inr [])); [done|].
      unfold get. rewrite Hkw. by apply related_from_empty.
Qed.

End no_related.

(** The sample Anime without its related titles, and with the empty list of
    the sample store in their place. *)
Lemma X4_witness :
  call Anime_parameters (Anime.__init__ (VInt 1))
    (delete "related" (sample_anime (VStr "2020") (VRef 4))) sample_store
  = (inl AttributeError, sample_store) ∧
  call Anime_parameters (Anime.__init__ (VInt 1))
    (<["related" := VRef 9]> (sample_anime (VStr "2020") (VRef 4)))
    sample_store
  = (inl AttributeError, sample_store).
Proof.
  split.
  - assert (run (date_range (get "aired_string"
              (delete "related" (sample_anime (VStr "2020") (VRef 4)))))
              sample_store = (inr (VStr "2020", VNone), sample_store)) as Hd
      by (vm_compute; reflexivity).
    assert (run (names_of (chosen_genres
              (delete "related" (sample_anime (VStr "2020") (VRef 4)))))
              sample_store
            = (inr (Some [VStr "Action"; VStr "Drama"]), sample_store)) as Hg
      by (vm_compute; reflexivity).
    apply (proj1 (proj1 (X4_related_needs_a_mapping (VInt 1)
      (delete "related" (sample_anime (VStr "2020") (VRef 4))) sample_store)
      ltac:(sample_unbound)
      (VStr "2020", VNone) (Some [VStr "Action"; VStr "Drama"]) Hd Hg)).
    reflexivity.
  - assert (run (date_range (get "aired_string"
              (<["related" := VRef 9]> (sample_anime (VStr "2020") (VRef 4)))))
              sample_store = (inr (VStr "2020", VNone), sample_store)) as Hd
      by (vm_compute; reflexivity).
    assert (run (names_of (chosen_genres
              (<["related" := VRef 9]> (sample_anime (VStr "2020") (VRef 4)))))
              sample_store
            = (inr (Some [VStr "Action"; VStr "Drama"]), sample_store)) as Hg
      by (vm_compute; reflexivity).
    apply (proj1 (proj2 (proj1 (X4_related_needs_a_mapping (VInt 1)
      (<["related" := VRef 9]> (sample_anime (VStr "2020") (VRef 4)))
      sample_store) ltac:(sample_unbound)
      (VStr "2020", VNone) (Some [VStr "Action"; VStr "Drama"]) Hd Hg))
      9%positive []); reflexivity.
Defined.

(** ** The date range, read back *)

Lemma startswith_spec p s :
  startswith p s = true → s = p +:+ skip (String.length p) s.
Proof.
  revert s. induction p as [|x p IH]; intros [|y s]; simpl; try done.
  destruct (Ascii.eqb_spec x y) as [->|]; [|done].
  intros Hs. rewrite append_cons. f_equal. by apply IH.
Qed.

(** [partition] cuts its argument at an occurrence of the separator. *)
Lemma partition_spec sep s a b :
  partition sep s = Some (a, b) → s = a +:+ sep +:+ b.
Proof.
  revert a b. induction s as [|c s IH]; intros a b; cbn [partition].
  - destruct (startswith sep "") eqn:Hs; [|done].
    intros [= <- <-]. by apply startswith_spec in Hs.
  - destruct (startswith sep (String c s)) eqn:Hs.
    + intros [= <- <-]. by apply startswith_spec in Hs.
    + destruct (partition sep s) as [[a' b']|] eqn:Hp; [|done].
      intros [= <- <-]. rewrite append_cons. f_equal. by apply IH.
Qed.

(** The occurrence [partition] cuts at is the first one. *)
Lemma partition_before s a b :
  partition " to " s = Some (a, b) →
  str_contains " to " (a +:+ " to") = false.
Proof.
  revert a b. induction s as [|c s IH]; intros a b; cbn [partition].
  - done.
  - destruct (startswith " to " (String c s)) eqn:Hs.
    + by intros [= <- <-].
    + destruct (partition " to " s) as [[a' b']|] eqn:Hp; [|done].
      intros [= <- <-]. specialize (IH a' b' eq_refl).
      apply partition_spec in Hp. subst s.
      unfold str_contains in *. rewrite append_cons. cbn [partition].
      replace (String c (a' +:+ " to " +:+ b'))
        with (String c (a' +:+ " to") +:+ (" " +:+ b')) in Hs
        by (rewrite append_cons, append_assoc; reflexivity).
      rewrite startswith_app in Hs
        by (cbn [String.length]; rewrite length_app; cbn [String.length]; lia).
      rewrite Hs. by destruct (partition " to " (a' +:+ " to")).
Qed.

Lemma split_upto_none sep n s :
  partition sep s = None → split_upto n sep s = [s].
Proof. intros Hp. destruct n; simpl; [done|by rewrite Hp]. Qed.

Lemma split_upto_nonempty n sep s : split_upto n sep s ≠ [].
Proof.
  destruct n; simpl; [done|]. by destruct (partition sep s) as [[??]|].
Qed.

Lemma str_split_cons sep s a b :
  sep ≠ EmptyString → partition sep s = Some (a, b) →
  str_split sep s = a :: str_split sep b.
Proof.
  intros Hsep Hp. pose proof (partition_length _ _ _ _ Hp) as Hlen.
  assert (0 < String.length sep)%nat by (destruct sep; [done|simpl; lia]).
  unfold str_split at 1.
  destruct (String.length s) as [|n] eqn:Hn; [lia|].
  cbn [split_upto]. rewrite Hp. f_equal.
  apply split_upto_enough; [done|lia].
Qed.

(** Lines 107-111 on a string: no separator, one, or more than one. *)
Lemma date_range_string s σ :
  date_range (VStr s) σ =
  match partition " to " s with
  | None => Ok (VStr s, VNone) σ
  | Some (a, b) =>
      if str_contains " to " b then Raise ValueError σ
      else Ok (VStr a, VStr b) σ
  end.
Proof.
  assert (" to " ≠ EmptyString) as Hsep by done.
  unfold date_range, contains. rewrite bind_ret. unfold str_contains.
  destruct (partition " to " s) as [[a b]|] eqn:Hp; cbn [negb]; [|done].
  unfold split. rewrite bind_ret, (str_split_cons _ _ _ _ Hsep Hp).
  destruct (partition " to " b) as [[a' b']|] eqn:Hb.
  - rewrite (str_split_cons _ _ _ _ Hsep Hb). cbn [fmap list_fmap].
    unfold str_split.
    pose proof (split_upto_nonempty (String.length b') " to " b') as Hne.
    by destruct (split_upto _ _ b').
  - unfold str_split. by rewrite split_upto_none.
Qed.

Lemma run_date_range_string s h :
  run (date_range (VStr s)) h =
  match partition " to " s with
  | None => (inr (VStr s, VNone), h)
  | Some (a, b) =>
      if str_contains " to " b then (inl ValueError, h)
      else (inr (VStr a, VStr b), h)
  end.
Proof.
  unfold run. rewrite date_range_string.
  destruct (partition " to " s) as [[a b]|]; [|done].
  by destruct (str_contains " to " b).
Qed.

Section rejoin.
Context `{!Collaborators}.

(** X5.  Whenever the call of the Anime (resp. Manga) constructor returns
    for a payload whose date range is a string, either the end is None, the
    start is the whole string and the string has no separator, or the start
    and the end are two strings that give the date range back when joined
    by [" to "], the separator after the start being the first one and the
    end holding none.  For a payload that binds no parameter, a string in
    which the text after the first separator holds another separator makes
    the call raise a ValueError and leave the store as it was. *)
Theorem X5_date_range_rejoins (id : value) (kw : gmap string value)
    (h : gmap loc object) (time : string) :
  (kw !! "aired_string" = Some (VStr time) →
     (∀ x h', call Anime_parameters (Anime.__init__ id) kw h = (inr x, h') →
        (Anime.air_start x = VStr time ∧ Anime.air_end x = VNone ∧
         str_contains " to " time = false) ∨
        (∃ a b, Anime.air_start x = VStr a ∧ Anime.air_end x = VStr b ∧
                time = a +:+ " to " +:+ b ∧
                str_contains " to " (a +:+ " to") = false ∧
                str_contains " to " b = false)) ∧
     (unbound Anime_parameters kw →
      ∀ a b, partition " to " time = Some (a, b) →
        str_contains " to " b = true →
        call Anime_parameters (Anime.__init__ id) kw h = (inl ValueError, h))) ∧
  (kw !! "published_string" = Some (VStr time) →
     (∀ x h', call Manga_parameters (Manga.__init__ id) kw h = (inr x, h') →
        (Manga.publish_start x = VStr time ∧ Manga.publish_end x = VNone ∧
         str_contains " to " time = false) ∨
        (∃ a b, Manga.publish_start x = VStr a ∧ Manga.publish_end x = VStr b ∧
                time = a +:+ " to " +:+ b ∧
                str_contains " to " (a +:+ " to") = false ∧
                str_contains " to " b = false)) ∧
     (unbound Manga_parameters kw →
      ∀ a b, partition " to " time = Some (a, b) →
        str_contains " to " b = true →
        call Manga_parameters (Manga.__init__ id) kw h = (inl ValueError, h))).
Proof.
  assert (∀ s e, run (date_range (VStr time)) h = (inr (s, e), h) →
            (s = VStr time ∧ e = VNone ∧ str_contains " to " time = false) ∨
            (∃ a b, s = VStr a ∧ e = VStr b ∧ time = a +:+ " to " +:+ b ∧
                    str_contains " to " (a +:+ " to") = false ∧
                    str_contains " to " b = false)) as Hcases.
  { intros s e. rewrite run_date_range_string. unfold str_contains at 2.
    destruct (partition " to " time) as [[a b]|] eqn:Hp.
    - destruct (str_contains " to " b) eqn:Hb; [done|].
      intros [= <- <-]. right. exists a, b. split_and!; try done.
      + by apply partition_spec in Hp.
      + by apply (partition_before time a b).
    - intros [= <- <-]. by left. }
  split; intros Hkw; split.
  - intros x h' [_ Hx]%call_returns.
    apply (by_parts_ok _ _ _ _ _ _ _ _ Anime_construct) in Hx as (p & Hp & ->).
    apply Anime_parts_ok in Hp as ([s e] & g & r & Hd & _ & _ & ->).
    unfold get in Hd. rewrite Hkw in Hd. by apply Hcases.
  - intros Hu a b Hp Hb. apply (call_raises _ _ _ _ _ _ Hu).
    apply (by_parts_raise _ _ _ _ _ _ _ _ Anime_construct).
    unfold Anime.parts. apply run_bind_raise; [apply kwargs_free_date_range|].
    unfold get. rewrite Hkw.
    change (default VNone (Some (VStr time))) with (VStr time).
    by rewrite run_date_range_string, Hp, Hb.
  - intros x h' [_ Hx]%call_returns.
    apply (by_parts_ok _ _ _ _ _ _ _ _ Manga_construct) in Hx as (p & Hp & ->).
    apply Manga_parts_ok in Hp
      as ([s e] & [a0 a1] & g & z & r & h1 & Hd & _ & _ & _ & _ & ->).
    unfold get in Hd. rewrite Hkw in Hd. by apply Hcases.
  - intros Hu a b Hp Hb. apply (call_raises _ _ _ _ _ _ Hu).
    apply (by_parts_raise _ _ _ _ _ _ _ _ Manga_construct).
    unfold Manga.parts. apply run_bind_raise; [apply kwargs_free_date_range|].
    unfold get. rewrite Hkw.
    change (default VNone (Some (VStr time))) with (VStr time).
    by rewrite run_date_range_string, Hp, Hb.
Qed.

End rejoin.

(** The date range of the spec read back, and a date range with two
    separators. *)
Lemma X5_witness :
  (∃ x h', call Anime_parameters (Anime.__init__ (VInt 1))
             (sample_anime (VStr "Apr 3, 2020 to ?") (VRef 4)) sample_store
           = (inr x, h') ∧
     ((Anime.air_start x = VStr "Apr 3, 2020 to ?" ∧ Anime.air_end x = VNone ∧
       str_contains " to " "Apr 3, 2020 to ?" = false) ∨
      (∃ a b, Anime.air_start x = VStr a ∧ Anime.air_end x = VStr b ∧
              "Apr 3, 2020 to ?" = a +:+ " to " +:+ b ∧
              str_contains " to " (a +:+ " to") = false ∧
              str_contains " to " b = false))) ∧
  call Manga_parameters (Manga.__init__ (VInt 1))
    (sample_manga (VStr "a to b to c") (VRef 4)) sample_store
  = (inl ValueError, sample_store).
Proof.
  split.
  - destruct (call Anime_parameters (Anime.__init__ (VInt 1))
                (sample_anime (VStr "Apr 3, 2020 to ?") (VRef 4)) sample_store)
      as [[e|x] h'] eqn:Hx; [vm_compute in Hx; discriminate|].
    exists x, h'. split; [reflexivity|].
    exact (proj1 (proj1 (X5_date_range_rejoins (VInt 1)
      (sample_anime (VStr "Apr 3, 2020 to ?") (VRef 4)) sample_store
      "Apr 3, 2020 to ?") eq_refl) x h' Hx).
  - apply (proj2 (proj2 (X5_date_range_rejoins (VInt 1)
      (sample_manga (VStr "a to b to c") (VRef 4)) sample_store
      "a to b to c") eq_refl) ltac:(sample_unbound) "a" "b to c"); reflexivity.
Defined.

(** ** The store the related titles leave *)

Lemma apply_steps_lookup S h r : apply_steps S h !! r = labelled S h r.
Proof.
  unfold labelled. revert h. induction S as [|[k r'] S IH]; intros h; [done|].
  rewrite apply_steps_cons, IH. cbn [last_label].
  destruct (last_label S r) as [k'|].
  - destruct (decide (r' = r)) as [->|Hne].
    + rewrite lookup_alter_eq. destruct (h !! r); [|done].
      simpl. by rewrite label_label.
    + by rewrite lookup_alter_ne.
  - destruct (decide (r' = r)) as [->|Hne].
    + by rewrite lookup_alter_eq.
    + by rewrite lookup_alter_ne.
Qed.

Lemma last_label_elem S r k : last_label S r = Some k → (k, r) ∈ S.
Proof.
  induction S as [|[k' r'] S IH]; [done|]. cbn [last_label].
  destruct (last_label S r) as [k0|].
  - intros [= <-]. right. by apply IH.
  - destruct (decide (r' = r)) as [->|]; [|done]. intros [= <-]. by left.
Qed.

Section related_store.
Context `{!Collaborators}.

Lemma item_spec_length h its objss :
  Forall2 (item_spec h) its objss →
  length (concat objss) = length (steps h its).
Proof.
  induction 1 as [|[k v] objs its objss [_ Hobjs] _ IH]; [done|].
  rewrite steps_cons. cbn [concat]. rewrite !List.length_app, length_fmap, IH.
  f_equal. symmetry. exact (Forall2_length _ _ _ Hobjs).
Qed.

Context `{!TypedRelations}.

(** X6.  When [Anime.__init__] returns, its [related] list has one entry
    for every record the lists of the mapping hold, repetitions counted,
    and the store it leaves is the one it found but for the visited
    records: each holds under ['relation'] the relation type of the last
    list of the mapping that holds it.  The same is true of
    [Manga.__init__], read in the store the author block leaves. *)
Theorem X6_related_labels_in_store (id : value) (kw : gmap string value)
    (h : gmap loc object) :
  (∀ x h', construct (Anime.__init__ id) kw h = (inr x, h') →
     ∃ d its,
       kw !! "related" = Some (VRef d) ∧ h !! d = Some (ODict its) ∧
       length (Anime.related x) = length (steps h its) ∧
       (∀ r, h' !! r = labelled (steps h its) h r) ∧
       (∀ k r, last_label (steps h its) r = Some k →
          ∃ rec, h !! r = Some (ODict rec) ∧
                 h' !! r = Some (ODict (dict_set "relation" (VStr k) rec)))) ∧
  (∀ x h', construct (Manga.__init__ id) kw h = (inr x, h') →
     ∃ a ha d its,
       run (Manga.author_from (get "author" kw)) h = (inr a, ha) ∧
       kw !! "related" = Some (VRef d) ∧ ha !! d = Some (ODict its) ∧
       length (Manga.related x) = length (steps ha its) ∧
       (∀ r, h' !! r = labelled (steps ha its) ha r) ∧
       (∀ k r, last_label (steps ha its) r = Some k →
          ∃ rec, ha !! r = Some (ODict rec) ∧
                 h' !! r = Some (ODict (dict_set "relation" (VStr k) rec)))).
Proof.
  assert (∀ g its objss k r,
            Forall2 (item_spec g) its objss →
            last_label (steps g its) r = Some k →
            ∃ rec, g !! r = Some (ODict rec) ∧
                   apply_steps (steps g its) g !! r
                   = Some (ODict (dict_set "relation" (VStr k) rec)))
    as Hvisited.
  { intros g its objss k r Hall Hk.
    assert (∃ rec, g !! r = Some (ODict rec)) as [rec Hrec].
    { apply last_label_elem in Hk. clear -Hall Hk.
      induction Hall as [|[k' v] objs its objss [_ Hobjs] _ IH];
        [by apply elem_of_nil in Hk|].
      rewrite steps_cons in Hk. apply elem_of_app in Hk as [Hk|Hk]; [|by apply IH].
      apply list_elem_of_fmap in Hk as (r' & [= <- <-] & Hr).
      cbn [fst snd] in Hobjs.
      apply list_elem_of_lookup in Hr as [i Hi].
      destruct (Forall2_lookup_l _ _ _ _ _ Hobjs Hi) as (obj & _ & d & Hd & _).
      by exists d. }
    exists rec. split; [done|].
    rewrite apply_steps_lookup. unfold labelled. by rewrite Hk, Hrec. }
  split.
  - intros x h' Hx.
    apply (by_parts_ok _ _ _ _ _ _ _ _ Anime_construct) in Hx as (p & Hp & ->).
    apply Anime_parts_ok in Hp as ([s e] & g & r & _ & _ & Hr & ->).
    apply related_from_sound in Hr
      as (d & its & objss & Hd & Hits & _ & Hall & -> & -> & _).
    exists d, its. split_and!; [by apply get_ref|done| | |].
    + by apply item_spec_length.
    + intros r. apply apply_steps_lookup.
    + intros k r. by apply (Hvisited h its objss).
  - intros x h' Hx.
    apply (by_parts_ok _ _ _ _ _ _ _ _ Manga_construct) in Hx as (p & Hp & ->).
    apply Manga_parts_ok in Hp
      as ([s e] & [a0 a1] & g & z & r & ha & _ & Ha & _ & _ & Hr & ->).
    apply related_from_sound in Hr
      as (d & its & objss & Hd & Hits & _ & Hall & -> & -> & _).
    exists (a0, a1), ha, d, its. split_and!; [done|by apply get_ref|done| | |].
    + by apply item_spec_length.
    + intros r. apply apply_steps_lookup.
    + intros k r. by apply (Hvisited ha its objss).
Qed.

End related_store.

(** The sample Anime: one related title, and its record is left labelled
    "Sequel". *)
Lemma X6_witness :
  ∃ x h', construct (Anime.__init__ (VInt 1))
            (sample_anime (VStr "2020") (VRef 4)) sample_store = (inr x, h') ∧
    length (Anime.related x) = 1 ∧
    h' !! 3%positive
    = Some (ODict [("type", VStr "anime");
                   ("url", VStr "https://myanimelist.net/anime/5/Name");
                   ("title", VStr "Name"); ("relation", VStr "Sequel")]) ∧
    h' !! 5%positive = sample_store !! 5%positive.
Proof.
  destruct (construct (Anime.__init__ (VInt 1))
              (sample_anime (VStr "2020") (VRef 4)) sample_store)
    as [[e|x] h'] eqn:Hx; [vm_compute in Hx; discriminate|].
  exists x, h'. split; [reflexivity|].
  destruct (proj1 (X6_related_labels_in_store (VInt 1)
              (sample_anime (VStr "2020") (VRef 4)) sample_store) x h' Hx)
    as (d & its & Hkw & Hd & Hlen & Hall & _).
  vm_compute in Hkw. injection Hkw as <-.
  vm_compute in Hd. injection Hd as <-.
  split_and!.
  - rewrite Hlen. reflexivity.
  - rewrite Hall. reflexivity.
  - rewrite Hall. reflexivity.
Defined.

(** ** Raw genres the comprehension rejects *)

Lemma comprehension_raise {A} (f : value → M A) pre g post h e :
  (∀ x, kwargs_free (f x)) →
  Forall (λ x, ∃ v, run (f x) h = (inr v, h)) pre →
  run (f g) h = (inl e, h) →
  run (comprehension f (pre ++ g :: post)%list) h = (inl e, h).
Proof.
  intros Hfree Hpre Hg. induction Hpre as [|x pre [v Hx] _ IH].
  - cbn [app comprehension]. by rewrite run_bind, Hg by done.
  - cbn [app comprehension]. rewrite run_bind, Hx by done. cbn beta iota.
    by rewrite run_bind, IH by (by apply kwargs_free_comprehension).
Qed.

Lemma run_getitem_name h g n :
  name_in h g n → run (getitem g "name") h = (inr n, h).
Proof. intros (r & d & -> & Hr & Hn). by apply (run_getitem _ _ _ r d). Qed.

Section rejected_genres.
Context `{!Collaborators}.

(** X7.  Line 124 (and 247) indexes every element of truthy raw genres by
    ['name'].  The first element that is a record without a ['name'] raises
    a KeyError and the first that is a plain string a TypeError; raw genres
    that are a non-empty string or a non-zero number raise a TypeError.
    For a payload that binds no parameter, the error is the outcome of the
    call of the Anime constructor once the date range is accepted, with the
    store as it was, and of the Manga constructor once the date range and
    the author are, with the store the author block left. *)
Theorem X7_genres_rejected (id : value) (kw : gmap string value)
    (h : gmap loc object) :
  (∀ l pre g post,
     h !! l = Some (OList (pre ++ g :: post)%list) →
     Forall (λ x, ∃ n, name_in h x n) pre →
     (∀ r d, g = VRef r → h !! r = Some (ODict d) →
        dict_get "name" d = None →
        run (names_of (VRef l)) h = (inl KeyError, h)) ∧
     (∀ s, g = VStr s → run (names_of (VRef l)) h = (inl TypeError, h))) ∧
  (∀ s, s ≠ EmptyString → run (names_of (VStr s)) h = (inl TypeError, h)) ∧
  (∀ n, n ≠ 0%Z → run (names_of (VInt n)) h = (inl TypeError, h)) ∧
  (unbound Anime_parameters kw →
   ∀ dates e,
     run (date_range (get "aired_string" kw)) h = (inr dates, h) →
     run (names_of (chosen_genres kw)) h = (inl e, h) →
     call Anime_parameters (Anime.__init__ id) kw h = (inl e, h)) ∧
  (unbound Manga_parameters kw →
   ∀ dates a ha e,
     run (date_range (get "published_string" kw)) h = (inr dates, h) →
     run (Manga.author_from (get "author" kw)) h = (inr a, ha) →
     run (names_of (chosen_genres kw)) ha = (inl e, ha) →
     call Manga_parameters (Manga.__init__ id) kw h = (inl e, ha)).
Proof.
  split_and!.
  - intros l pre g post Hl Hpre.
    assert (∀ e, run (getitem g "name") h = (inl e, h) →
                 run (names_of (VRef l)) h = (inl e, h)) as Hraise.
    { intros e He. rewrite (names_of_ref_list _ _ _ Hl).
      assert (run (comprehension (λ x, getitem x "name")
                (pre ++ g :: post)%list) h = (inl e, h)) as ->.
      { apply comprehension_raise; [|
          |done].
        - intros x. apply kwargs_free_getitem.
        - eapply Forall_impl; [exact Hpre|]. intros x [n Hn]. exists n.
          by apply run_getitem_name. }
      by destruct pre. }
    split.
    + intros r d -> Hr Hn. apply Hraise.
      unfold run, getitem. rewrite bind_unfold. unfold deref. cbn [heap].
      by rewrite Hr, Hn.
    + intros s ->. by apply Hraise.
  - intros s Hs. destruct s as [|c s]; [done|].
    destruct (chars_cons c s) as (g0 & rest & Hcs).
    unfold run, names_of, truthy, iter. rewrite !bind_ret.
    change (String.eqb (String c s) "") with false. cbn [negb].
    rewrite !bind_ret, Hcs. done.
  - intros n Hn. unfold run, names_of, truthy. rewrite bind_ret.
    by destruct (Z.eqb_spec n 0).
  - intros Hu dates e Hd He. apply (call_raises _ _ _ _ _ _ Hu).
    apply (by_parts_raise _ _ _ _ _ _ _ _ Anime_construct). unfold Anime.parts.
    rewrite run_bind, Hd by apply kwargs_free_date_range. cbn beta iota.
    by rewrite run_bind, He by apply kwargs_free_names_of.
  - intros Hu dates a ha e Hd Ha He. apply (call_raises _ _ _ _ _ _ Hu).
    apply (by_parts_raise _ _ _ _ _ _ _ _ Manga_construct). unfold Manga.parts.
    rewrite run_bind, Hd by apply kwargs_free_date_range. cbn beta iota.
    rewrite run_bind, Ha by apply kwargs_free_author_from. cbn beta iota.
    by rewrite run_bind, He by apply kwargs_free_names_of.
Qed.

End rejected_genres.

(** Genres given as the list of the related titles of the sample store,
    whose record has no name, and genres given as a string. *)
Lemma X7_witness :
  run (names_of (VRef 2)) sample_store = (inl KeyError, sample_store) ∧
  call Anime_parameters (Anime.__init__ (VInt 1))
    (sample_anime (VStr "2020") (VStr "Action")) sample_store
  = (inl TypeError, sample_store).
Proof.
  split.
  - apply (proj1 (proj1 (X7_genres_rejected (VInt 1) (∅ : gmap string value) sample_store)
      2%positive [] (VRef 3) [] eq_refl (Forall_nil_2 _)) 3%positive
      [("type", VStr "anime");
       ("url", VStr "https://myanimelist.net/anime/5/Name");
       ("title", VStr "Name")]); reflexivity.
  - assert (run (date_range (get "aired_string"
              (sample_anime (VStr "2020") (VStr "Action")))) sample_store
            = (inr (VStr "2020", VNone), sample_store)) as Hd
      by (vm_compute; reflexivity).
    apply (proj1 (proj2 (proj2 (proj2 (X7_genres_rejected (VInt 1)
      (sample_anime (VStr "2020") (VStr "Action")) sample_store))))
      ltac:(sample_unbound) (VStr "2020", VNone) TypeError Hd).
    apply (proj1 (proj2 (X7_genres_rejected (VInt 1)
      (sample_anime (VStr "2020") (VStr "Action")) sample_store)) "Action").
    discriminate.
Defined.

(** ** One construction after another *)

Section in_turn.
Context `{!Collaborators, !TypedRelations}.

Lemma Anime_relabelled id kw h g x h' :
  relabelled h g →
  construct (Anime.__init__ id) kw h = (inr x, h') →
  ∃ g', construct (Anime.__init__ id) kw g = (inr x, g') ∧ relabelled h h'.
Proof.
  intros Hrel Hx.
  apply (by_parts_ok _ _ _ _ _ _ _ _ Anime_construct) in Hx as (p & Hp & ->).
  apply Anime_parts_ok in Hp as (dts & gs & r & Hd & Hg & Hr & ->).
  apply related_from_sound in Hr
    as (d & its & objss & Hx & Hits & Hnt & Hall & -> & -> & Hrel').
  exists (apply_steps (steps h its) g). split; [|done].
  apply (by_parts_returns _ _ _ id kw g _ _ Anime_construct).
  apply Anime_parts_returns.
  - rewrite (date_range_frame ["relation"] h g), Hd;
      [done|by apply relabelled_frame|by intros Hin%list_elem_of_singleton].
  - by apply (names_of_relabelled h g _ _ h).
  - rewrite Hx. by apply (related_from_complete h g d its objss).
Qed.

(** X8.  The object [Anime.__init__] returns does not depend on relation
    labels that records with a type discriminator already carry: in a store
    that differs from [h] by such labels only, the constructor returns the
    same object.  So when two Anime are constructed from payloads that
    share records, each object is the one the constructor returns when it
    runs alone, whichever runs first. *)
Theorem X8_anime_after_anime (id1 id2 : value) (kw1 kw2 : gmap string value)
    (h : gmap loc object) :
  (∀ g x h', relabelled h g →
     construct (Anime.__init__ id1) kw1 h = (inr x, h') →
     ∃ g', construct (Anime.__init__ id1) kw1 g = (inr x, g')) ∧
  (∀ x1 h1 x2 h2,
     construct (Anime.__init__ id1) kw1 h = (inr x1, h1) →
     construct (Anime.__init__ id2) kw2 h = (inr x2, h2) →
     (∃ h12, construct (Anime.__init__ id2) kw2 h1 = (inr x2, h12)) ∧
     (∃ h21, construct (Anime.__init__ id1) kw1 h2 = (inr x1, h21))).
Proof.
  split.
  - intros g x h' Hrel Hx.
    destruct (Anime_relabelled _ _ _ _ _ _ Hrel Hx) as (g' & Hg & _).
    by exists g'.
  - intros x1 h1 x2 h2 H1 H2.
    destruct (Anime_relabelled _ _ _ _ _ _ (relabelled_refl h) H1)
      as (_ & _ & Hrel1).
    destruct (Anime_relabelled _ _ _ _ _ _ (relabelled_refl h) H2)
      as (_ & _ & Hrel2).
    split.
    + destruct (Anime_relabelled _ _ _ _ _ _ Hrel1 H2) as (g' & Hg & _).
      by exists g'.
    + destruct (Anime_relabelled _ _ _ _ _ _ Hrel2 H1) as (g' & Hg & _).
      by exists g'.
Qed.

End in_turn.

(** Two Anime whose payloads share the mapping of related titles of the
    sample store. *)
Lemma X8_witness :
  ∃ x1 h1 x2 h2,
    construct (Anime.__init__ (VInt 1)) (sample_anime (VStr "2020") (VRef 4))
      sample_store = (inr x1, h1) ∧
    construct (Anime.__init__ (VInt 2))
      (sample_anime (VStr "Apr 3, 2020 to ?") (VRef 9)) sample_store
    = (inr x2, h2) ∧
    (∃ h12, construct (Anime.__init__ (VInt 2))
              (sample_anime (VStr "Apr 3, 2020 to ?") (VRef 9)) h1
            = (inr x2, h12)) ∧
    (∃ h21, construct (Anime.__init__ (VInt 1))
              (sample_anime (VStr "2020") (VRef 4)) h2 = (inr x1, h21)).
Proof.
  destruct (construct (Anime.__init__ (VInt 1))
              (sample_anime (VStr "2020") (VRef 4)) sample_store)
    as [[e|x1] h1] eqn:H1; [vm_compute in H1; discriminate|].
  destruct (construct (Anime.__init__ (VInt 2))
              (sample_anime (VStr "Apr 3, 2020 to ?") (VRef 9)) sample_store)
    as [[e|x2] h2] eqn:H2; [vm_compute in H2; discriminate|].
  exists x1, h1, x2, h2. split; [reflexivity|]. split; [reflexivity|].
  exact (proj2 (X8_anime_after_anime (VInt 1) (VInt 2)
    (sample_anime (VStr "2020") (VRef 4))
    (sample_anime (VStr "Apr 3, 2020 to ?") (VRef 9)) sample_store)
    x1 h1 x2 h2 H1 H2).
Defined.

(** ** A date range that is not a string *)

Lemma get_some k kw v : kw !! k = Some v → get k kw = v.
Proof. unfold get. by intros ->. Qed.

Lemma run_date_range_number v h :
  (∀ s, v ≠ VStr s) → (∀ l, v ≠ VRef l) →
  run (date_range v) h = (inl TypeError, h).
Proof. intros Hs Hl. destruct v; try done; [by destruct (Hs s)|by destruct (Hl l)]. Qed.

Lemma run_date_range_container l h found :
  run (contains " to " (VRef l)) h = (inr found, h) →
  run (date_range (VRef l)) h
  = (if found then inl AttributeError else inr (VRef l, VNone), h).
Proof.
  intros Hc. unfold date_range.
  rewrite run_bind, Hc by apply kwargs_free_contains. by destruct found.
Qed.

Section other_dates.
Context `{!Collaborators}.

(** X9.  The membership test of lines 107 and 234 runs on whatever the
    payload gives.  For a payload that binds no parameter, a number or a
    boolean raises a TypeError, as None does, and a list or a mapping that
    holds [" to "], as an element or as a key, raises an AttributeError at
    the split; the store is left as it was.  Whenever the call returns for
    a list or a mapping, it holds no [" to "] and is stored whole as the
    start, with None as the end. *)
Theorem X9_date_range_not_a_string (id : value) (kw : gmap string value)
    (h : gmap loc object) :
  (∀ v, kw !! "aired_string" = Some v →
     (unbound Anime_parameters kw → (∀ s, v ≠ VStr s) → (∀ l, v ≠ VRef l) →
        call Anime_parameters (Anime.__init__ id) kw h = (inl TypeError, h)) ∧
     (unbound Anime_parameters kw → ∀ l, v = VRef l →
        run (contains " to " v) h = (inr true, h) →
        call Anime_parameters (Anime.__init__ id) kw h = (inl AttributeError, h)) ∧
     (∀ l x h', v = VRef l →
        call Anime_parameters (Anime.__init__ id) kw h = (inr x, h') →
        Anime.air_start x = v ∧ Anime.air_end x = VNone ∧
        run (contains " to " v) h = (inr false, h))) ∧
  (∀ v, kw !! "published_string" = Some v →
     (unbound Manga_parameters kw → (∀ s, v ≠ VStr s) → (∀ l, v ≠ VRef l) →
        call Manga_parameters (Manga.__init__ id) kw h = (inl TypeError, h)) ∧
     (unbound Manga_parameters kw → ∀ l, v = VRef l →
        run (contains " to " v) h = (inr true, h) →
        call Manga_parameters (Manga.__init__ id) kw h = (inl AttributeError, h)) ∧
     (∀ l x h', v = VRef l →
        call Manga_parameters (Manga.__init__ id) kw h = (inr x, h') →
        Manga.publish_start x = v ∧ Manga.publish_end x = VNone ∧
        run (contains " to " v) h = (inr false, h))).
Proof.
  assert (∀ l s e, run (date_range (VRef l)) h = (inr (s, e), h) →
            s = VRef l ∧ e = VNone ∧
            run (contains " to " (VRef l)) h = (inr false, h)) as Hpass.
  { intros l s e Hd.
    destruct (run (contains " to " (VRef l)) h) as [[err|found] h1] eqn:Hc.
    - unfold date_range in Hd.
      by rewrite run_bind, Hc in Hd by apply kwargs_free_contains.
    - pose proof (read_only_run _ _ _ _ (read_only_contains " to " (VRef l)) Hc)
        as ->.
      rewrite (run_date_range_container _ _ _ Hc) in Hd.
      destruct found; [done|]. by injection Hd as <- <-. }
  split; intros v Hkw; split_and!.
  - intros Hu Hs Hl. apply (call_raises _ _ _ _ _ _ Hu).
    apply (by_parts_raise _ _ _ _ _ _ _ _ Anime_construct).
    unfold Anime.parts. apply run_bind_raise; [apply kwargs_free_date_range|].
    rewrite (get_some _ _ _ Hkw). by apply run_date_range_number.
  - intros Hu l -> Hc. apply (call_raises _ _ _ _ _ _ Hu).
    apply (by_parts_raise _ _ _ _ _ _ _ _ Anime_construct).
    unfold Anime.parts. apply run_bind_raise; [apply kwargs_free_date_range|].
    rewrite (get_some _ _ _ Hkw). by rewrite (run_date_range_container _ _ true).
  - intros l x h' -> [_ Hx]%call_returns.
    apply (by_parts_ok _ _ _ _ _ _ _ _ Anime_construct) in Hx as (p & Hp & ->).
    apply Anime_parts_ok in Hp as ([s e] & g & r & Hd & _ & _ & ->).
    rewrite (get_some _ _ _ Hkw) in Hd. by apply Hpass.
  - intros Hu Hs Hl. apply (call_raises _ _ _ _ _ _ Hu).
    apply (by_parts_raise _ _ _ _ _ _ _ _ Manga_construct).
    unfold Manga.parts. apply run_bind_raise; [apply kwargs_free_date_range|].
    rewrite (get_some _ _ _ Hkw). by apply run_date_range_number.
  - intros Hu l -> Hc. apply (call_raises _ _ _ _ _ _ Hu).
    apply (by_parts_raise _ _ _ _ _ _ _ _ Manga_construct).
    unfold Manga.parts. apply run_bind_raise; [apply kwargs_free_date_range|].
    rewrite (get_some _ _ _ Hkw). by rewrite (run_date_range_container _ _ true).
  - intros l x h' -> [_ Hx]%call_returns.
    apply (by_parts_ok _ _ _ _ _ _ _ _ Manga_construct) in Hx as (p & Hp & ->).
    apply Manga_parts_ok in Hp
      as ([s e] & [a0 a1] & g & z & r & h1 & Hd & _ & _ & _ & _ & ->).
    rewrite (get_some _ _ _ Hkw) in Hd. by apply Hpass.
Qed.

End other_dates.

(** A year given as a number, and a date range given as the list of
    serializations of the sample store. *)
Lemma X9_witness :
  call Anime_parameters (Anime.__init__ (VInt 1)) (sample_anime (VInt 2020) (VRef 4))
    sample_store = (inl TypeError, sample_store) ∧
  ∃ x h', call Anime_parameters (Anime.__init__ (VInt 1))
            (sample_anime (VRef 14) (VRef 4)) sample_store = (inr x, h') ∧
          Anime.air_start x = VRef 14 ∧ Anime.air_end x = VNone ∧
          run (contains " to " (VRef 14)) sample_store
          = (inr false, sample_store).
Proof.
  split.
  - apply (proj1 (proj1 (X9_date_range_not_a_string (VInt 1)
      (sample_anime (VInt 2020) (VRef 4)) sample_store) (VInt 2020) eq_refl)
      ltac:(sample_unbound)); discriminate.
  - destruct (call Anime_parameters (Anime.__init__ (VInt 1))
                (sample_anime (VRef 14) (VRef 4)) sample_store)
      as [[e|x] h'] eqn:Hx; [vm_compute in Hx; discriminate|].
    exists x, h'. split; [reflexivity|].
    exact (proj2 (proj2 (proj1 (X9_date_range_not_a_string (VInt 1)
      (sample_anime (VRef 14) (VRef 4)) sample_store) (VRef 14) eq_refl))
      14%positive x h' eq_refl Hx).
Defined.

(** ** An appearance the loop of a Character rejects *)

Section bad_appearance.
Context `{!Collaborators}.

Lemma for_appearances_app f xs ys acc σ :
  for_appearances f (xs ++ ys)%list acc σ
  = (for_appearances f xs acc ≫= for_appearances f ys) σ.
Proof.
  revert acc σ. induction xs as [|x xs IH]; intros acc σ; [done|].
  cbn [app for_appearances].
  repeat (rewrite bind_bind, 2!bind_unfold;
          match goal with
          | |- context [match ?m ?s with _ => _ end] => destruct (m s); [|done]
          end).
  apply IH.
Qed.

Lemma run_for_appearances_app f xs ys acc h :
  run (for_appearances f (xs ++ ys)%list acc) h =
  match run (for_appearances f xs acc) h with
  | (inr mid, h1) => run (for_appearances f ys mid) h1
  | (inl e, h1) => (inl e, h1)
  end.
Proof.
  rewrite <- run_bind by apply kwargs_free_for_appearances.
  unfold run. by rewrite for_appearances_app.
Qed.

(** The loop fails where its body first does. *)
Lemma appearances_from_raise f la pre x post h out h1 e h2 :
  h !! la = Some (OList (pre ++ x :: post)%list) →
  run (for_appearances f pre []) h = (inr out, h1) →
  run (for_appearances f [x] out) h1 = (inl e, h2) →
  run (Character.appearances_from f (VRef la)) h = (inl e, h2).
Proof.
  intros Hla Hpre Hx. unfold Character.appearances_from.
  rewrite run_bind, (run_iter_list _ _ _ Hla) by eauto with free.
  cbn beta iota. rewrite run_for_appearances_app, Hpre.
  change (x :: post) with ([x] ++ post)%list.
  by rewrite run_for_appearances_app, Hx.
Qed.

(** X10.  The body of the loops of lines 312-315 and 319-322 on a record
    [d]: without a ['url'] it raises a KeyError, and when [parse_id] rejects
    the URL its error, in both cases before anything is written; when the
    reference constructor rejects the record its error is raised after the
    identifier was written into the record.  An element that is not a
    record raises a TypeError.  For a payload that binds no parameter, the
    call of the Character constructor raises what the body raises on the
    first appearance it rejects, and leaves the store the body left: the
    records before it enriched. *)
Theorem X10_character_rejected_appearance (id : value)
    (kw : gmap string value) (h : gmap loc object) :
  (∀ f r d acc h1, h1 !! r = Some (ODict d) →
     (dict_get "url" d = None →
        run (for_appearances f [VRef r] acc) h1 = (inl KeyError, h1)) ∧
     (∀ url e, dict_get "url" d = Some url → parse_id url = inl e →
        run (for_appearances f [VRef r] acc) h1 = (inl e, h1)) ∧
     (∀ url i e, dict_get "url" d = Some url → parse_id url = inr i →
        f (dict_set "id" i d) = inl e →
        run (for_appearances f [VRef r] acc) h1
        = (inl e, <[r := ODict (dict_set "id" i d)]> h1))) ∧
  (∀ f x acc h1, (∀ r, x ≠ VRef r) →
     run (for_appearances f [x] acc) h1 = (inl TypeError, h1)) ∧
  (unbound Character_parameters kw →
   ∀ la pre x post out h1 e h2,
     kw !! "animeography" = Some (VRef la) →
     h !! la = Some (OList (pre ++ x :: post)%list) →
     run (for_appearances PartialAnime_from_character pre []) h
     = (inr out, h1) →
     run (for_appearances PartialAnime_from_character [x] out) h1
     = (inl e, h2) →
     call Character_parameters (Character.__init__ id) kw h = (inl e, h2)) ∧
  (unbound Character_parameters kw →
   ∀ a ha lm pre x post out h1 e h2,
     run (Character.appearances_from PartialAnime_from_character
            (get "animeography" kw)) h = (inr a, ha) →
     kw !! "mangaography" = Some (VRef lm) →
     ha !! lm = Some (OList (pre ++ x :: post)%list) →
     run (for_appearances PartialManga_from_character pre []) ha
     = (inr out, h1) →
     run (for_appearances PartialManga_from_character [x] out) h1
     = (inl e, h2) →
     call Character_parameters (Character.__init__ id) kw h = (inl e, h2)).
Proof.
  split_and!.
  - intros f r d acc h1 Hr. split_and!.
    + intros Hn. cbn [for_appearances].
      apply run_bind_raise; [eauto with free|].
      unfold run, getitem. rewrite bind_unfold. unfold deref. cbn [heap].
      by rewrite Hr, Hn.
    + intros url e Hu Hp. cbn [for_appearances].
      rewrite run_bind, (run_getitem _ _ _ r d url eq_refl Hr Hu)
        by eauto with free.
      cbn beta iota. apply run_bind_raise; [eauto with free|]. by rewrite Hp.
    + intros url i e Hu Hp Hf. cbn [for_appearances].
      rewrite run_bind, (run_getitem _ _ _ r d url eq_refl Hr Hu)
        by eauto with free.
      cbn beta iota. rewrite run_bind, Hp, run_lift by eauto with free.
      cbn beta iota. rewrite run_bind, (run_setitem _ _ _ _ _ Hr)
        by eauto with free.
      cbn beta iota. apply run_bind_raise; [eauto with free|].
      unfold run, on_record. rewrite bind_unfold. unfold deref. cbn [heap].
      by rewrite lookup_insert_eq, Hf.
  - intros f x acc h1 Hx. cbn [for_appearances].
    apply run_bind_raise; [eauto with free|].
    destruct x as [| | | | |r]; try done. by destruct (Hx r).
  - intros Hu la pre x post out h1 e h2 Hkw Hla Hpre Hx.
    apply (call_raises _ _ _ _ _ _ Hu).
    apply (by_parts_raise _ _ _ _ _ _ _ _ Character_construct).
    unfold Character.parts.
    apply run_bind_raise; [apply kwargs_free_appearances_from|].
    rewrite (get_some _ _ _ Hkw).
    by apply (appearances_from_raise _ la pre x post h out h1).
  - intros Hu a ha lm pre x post out h1 e h2 Ha Hkw Hlm Hpre Hx.
    apply (call_raises _ _ _ _ _ _ Hu).
    apply (by_parts_raise _ _ _ _ _ _ _ _ Character_construct).
    unfold Character.parts.
    rewrite run_bind, Ha by apply kwargs_free_appearances_from.
    cbn beta iota.
    apply run_bind_raise; [apply kwargs_free_appearances_from|].
    rewrite (get_some _ _ _ Hkw).
    by apply (appearances_from_raise _ lm pre x post ha out h1).
Qed.

End bad_appearance.

(** The appearances of the sample character followed by a record without a
    URL: the constructor raises a KeyError after it has enriched the first
    record. *)
Lemma X10_witness :
  ∃ h1,
    h1 !! 11%positive
    = Some (ODict [("name", VStr "Name");
                   ("url", VStr "https://myanimelist.net/anime/5/Name");
                   ("id", VInt 5)]) ∧
    call Character_parameters (Character.__init__ (VInt 1)) sample_character
      (<[10%positive := OList [VRef 11; VRef 5]]> sample_store)
    = (inl KeyError, h1).
Proof.
  destruct (run (for_appearances PartialAnime_from_character [VRef 11] [])
              (<[10%positive := OList [VRef 11; VRef 5]]> sample_store))
    as [[e|out] h1] eqn:Hpre; [vm_compute in Hpre; discriminate|].
  exists h1.
  pose proof Hpre as Hc. vm_compute in Hc. injection Hc as Eo Eh.
  split; [by rewrite <- Eh|].
  apply (proj1 (proj2 (proj2 (X10_character_rejected_appearance (VInt 1)
    sample_character (<[10%positive := OList [VRef 11; VRef 5]]> sample_store))))
    ltac:(sample_unbound) 10%positive [VRef 11] (VRef 5) [] out h1 KeyError h1 eq_refl
    (lookup_insert_eq _ _ _) Hpre).
  apply (proj1 (proj1 (X10_character_rejected_appearance (VInt 1)
    sample_character (<[10%positive := OList [VRef 11; VRef 5]]> sample_store))
    PartialAnime_from_character 5%positive [("name", VStr "Action")] out h1
    ltac:(by rewrite <- Eh))).
  reflexivity.
Defined.

(** ** An author the author block of a Manga rejects *)

Section bad_author.
Context `{!Collaborators}.

Lemma Manga_author_raise id kw h dates e h' :
  unbound Manga_parameters kw →
  run (date_range (get "published_string" kw)) h = (inr dates, h) →
  run (Manga.author_from (get "author" kw)) h = (inl e, h') →
  call Manga_parameters (Manga.__init__ id) kw h = (inl e, h').
Proof.
  intros Hu Hd Ha. apply (call_raises _ _ _ _ _ _ Hu).
  apply (by_parts_raise _ _ _ _ _ _ _ _ Manga_construct).
  unfold Manga.parts.
  rewrite run_bind, Hd by apply kwargs_free_date_range. cbn beta iota.
  by rewrite run_bind, Ha by apply kwargs_free_author_from.
Qed.

(** X11.  Lines 240-242 on the first author, for a payload that binds no
    parameter and once the date range is accepted.  A record without a
    ['url'] makes the call of the Manga constructor raise a KeyError and a
    URL [parse_id] rejects its error, the store being left as it was; when
    [PartialPerson.from_author] rejects the record its error is raised with
    the identifier already written into the record.  A first author that
    is not a record, and an ['author'] given as a non-empty string, raise a
    TypeError. *)
Theorem X11_manga_rejected_author (id : value) (kw : gmap string value)
    (h : gmap loc object) (dates : value * value) :
  unbound Manga_parameters kw →
  run (date_range (get "published_string" kw)) h = (inr dates, h) →
  (∀ la r rest d,
     kw !! "author" = Some (VRef la) →
     h !! la = Some (OList (VRef r :: rest)) → h !! r = Some (ODict d) →
     (dict_get "url" d = None →
        call Manga_parameters (Manga.__init__ id) kw h = (inl KeyError, h)) ∧
     (∀ url e, dict_get "url" d = Some url → parse_id url = inl e →
        call Manga_parameters (Manga.__init__ id) kw h = (inl e, h)) ∧
     (∀ url i e, dict_get "url" d = Some url → parse_id url = inr i →
        PartialPerson_from_author (dict_set "id" i d) = inl e →
        call Manga_parameters (Manga.__init__ id) kw h
        = (inl e, <[r := ODict (dict_set "id" i d)]> h))) ∧
  (∀ la v rest,
     kw !! "author" = Some (VRef la) →
     h !! la = Some (OList (v :: rest)) → (∀ r, v ≠ VRef r) →
     call Manga_parameters (Manga.__init__ id) kw h = (inl TypeError, h)) ∧
  (∀ s, kw !! "author" = Some (VStr s) → s ≠ EmptyString →
     call Manga_parameters (Manga.__init__ id) kw h = (inl TypeError, h)).
Proof.
  intros Hub Hd. split_and!.
  - intros la r rest d Hkw Hla Hr.
    assert (∀ e h', run (url ← getitem (VRef r) "url";
                         i ← lift (parse_id url);
                         setitem (VRef r) "id" i;;
                         author ← on_record PartialPerson_from_author (VRef r);
                         mret (VRef r, author)) h = (inl e, h') →
              call Manga_parameters (Manga.__init__ id) kw h = (inl e, h')) as Hraise.
    { intros e h' He. apply (Manga_author_raise _ _ _ dates); [done|done|].
      rewrite (get_some _ _ _ Hkw). unfold Manga.author_from.
      by rewrite run_bind, (run_first_list _ _ _ _ Hla) by eauto with free. }
    split_and!.
    + intros Hn. apply Hraise. apply run_bind_raise; [eauto with free|].
      unfold run, getitem. rewrite bind_unfold. unfold deref. cbn [heap].
      by rewrite Hr, Hn.
    + intros url e Hu Hp. apply Hraise.
      rewrite run_bind, (run_getitem _ _ _ r d url eq_refl Hr Hu)
        by eauto with free.
      cbn beta iota. apply run_bind_raise; [eauto with free|]. by rewrite Hp.
    + intros url i e Hu Hp Hf. apply Hraise.
      rewrite run_bind, (run_getitem _ _ _ r d url eq_refl Hr Hu)
        by eauto with free.
      cbn beta iota. rewrite run_bind, Hp, run_lift by eauto with free.
      cbn beta iota. rewrite run_bind, (run_setitem _ _ _ _ _ Hr)
        by eauto with free.
      cbn beta iota. apply run_bind_raise; [eauto with free|].
      unfold run, on_record. rewrite bind_unfold. unfold deref. cbn [heap].
      by rewrite lookup_insert_eq, Hf.
  - intros la v rest Hkw Hla Hv. apply (Manga_author_raise _ _ _ dates); [done|done|].
    rewrite (get_some _ _ _ Hkw). unfold Manga.author_from.
    rewrite run_bind, (run_first_list _ _ _ _ Hla) by eauto with free.
    cbn beta iota. apply run_bind_raise; [eauto with free|].
    destruct v as [| | | | |r]; try done. by destruct (Hv r).
  - intros s Hkw Hs. apply (Manga_author_raise _ _ _ dates); [done|done|].
    rewrite (get_some _ _ _ Hkw). by destruct s.
Qed.

End bad_author.

(** The sample Manga with its genres for authors: the first genre has no
    URL. *)
Lemma X11_witness :
  call Manga_parameters (Manga.__init__ (VInt 1))
    (<["author" := VRef 4]> (sample_manga (VStr "2020") (VRef 4))) sample_store
  = (inl KeyError, sample_store).
Proof.
  assert (run (date_range (get "published_string"
            (<["author" := VRef 4]> (sample_manga (VStr "2020") (VRef 4)))))
            sample_store = (inr (VStr "2020", VNone), sample_store)) as Hd
    by (vm_compute; reflexivity).
  apply (proj1 (proj1 (X11_manga_rejected_author (VInt 1)
    (<["author" := VRef 4]> (sample_manga (VStr "2020") (VRef 4))) sample_store
    (VStr "2020", VNone) ltac:(sample_unbound) Hd) 4%positive 5%positive [VRef 6]
    [("name", VStr "Action")] eq_refl eq_refl eq_refl)).
  reflexivity.
Defined.

(** ** A related title the loop rejects *)

Section bad_relation.
Context `{!Collaborators}.

Lemma for_relation_app k xs ys acc σ :
  for_relation k (xs ++ ys)%list acc σ
  = (for_relation k xs acc ≫= for_relation k ys) σ.
Proof.
  revert acc σ. induction xs as [|x xs IH]; intros acc σ; [done|].
  cbn [app for_relation].
  repeat (rewrite bind_bind, 2!bind_unfold;
          match goal with
          | |- context [match ?m ?s with _ => _ end] => destruct (m s); [|done]
          end).
  apply IH.
Qed.

Lemma run_for_relation_app k xs ys acc h :
  run (for_relation k (xs ++ ys)%list acc) h =
  match run (for_relation k xs acc) h with
  | (inr mid, h1) => run (for_relation k ys mid) h1
  | (inl e, h1) => (inl e, h1)
  end.
Proof.
  rewrite <- run_bind by apply kwargs_free_for_relation.
  unfold run. by rewrite for_relation_app.
Qed.

Context `{!TypedRelations}.

(** The loop over the mapping fails where the loop over one of its lists
    does, once the items before it are accepted. *)
Lemma for_items_raise h0 d its done k lv xs rest objss e g2 :
  h0 !! d = Some (ODict its) → ¬ typed its → h0 !! lv = Some (OList xs) →
  ∀ fuel pos acc g,
    relabelled h0 g → pos + fuel = length its →
    drop pos its = (done ++ (k, VRef lv) :: rest)%list →
    Forall2 (item_spec h0) done objss →
    run (for_relation k xs (acc ++ concat objss)%list)
      (apply_steps (steps h0 done) g) = (inl e, g2) →
    run (for_items fuel pos (length its) d acc) g = (inl e, g2).
Proof.
  intros Hd Hnt Hlv. revert objss.
  induction done as [|[k' v'] done IH];
    intros objss fuel pos acc g Hrel Hlen Hdrop Hall Hrun.
  - apply Forall2_nil_inv_l in Hall as ->.
    cbn [concat] in Hrun. rewrite app_nil_r in Hrun.
    assert (its !! pos = Some (k, VRef lv)) as Hkv.
    { rewrite <- (Nat.add_0_r pos), <- lookup_drop, Hdrop. done. }
    pose proof (lookup_lt_Some _ _ _ Hkv) as Hlt.
    destruct fuel as [|fuel]; [lia|].
    rewrite for_items_unfold.
    destruct (relabelled_dict _ _ _ _ Hrel Hd) as (d' & Hg & _ & _ & Hsame).
    rewrite (Hsame Hnt) in Hg.
    rewrite run_bind, (run_deref _ _ _ Hg) by eauto with free.
    rewrite Nat.eqb_refl. cbn [negb]. rewrite Hkv.
    apply (relabelled_list _ _ _ _ Hrel) in Hlv.
    rewrite run_bind, (run_iter_list _ _ _ Hlv) by eauto with free.
    cbn beta iota. apply run_bind_raise; [apply kwargs_free_for_relation|].
    exact Hrun.
  - apply Forall2_cons_inv_l in Hall as (objs & objss' & [Hi Hobjs] & Hall & ->).
    cbn [fst snd] in Hi, Hobjs.
    assert (its !! pos = Some (k', v')) as Hkv.
    { rewrite <- (Nat.add_0_r pos), <- lookup_drop, Hdrop. done. }
    pose proof (lookup_lt_Some _ _ _ Hkv) as Hlt.
    destruct fuel as [|fuel]; [lia|].
    rewrite (drop_S _ _ _ Hkv) in Hdrop. injection Hdrop as Hdrop.
    rewrite for_items_unfold.
    destruct (relabelled_dict _ _ _ _ Hrel Hd) as (d' & Hg & _ & _ & Hsame).
    rewrite (Hsame Hnt) in Hg.
    rewrite run_bind, (run_deref _ _ _ Hg) by eauto with free.
    rewrite Nat.eqb_refl. cbn [negb]. rewrite Hkv.
    rewrite run_bind by eauto with free.
    rewrite (iter_relabelled _ _ _ Hrel Hi).
    rewrite run_bind by apply kwargs_free_for_relation.
    pose proof (for_relation_complete _ _ _ _ acc _ Hrel Hobjs) as Hok.
    rewrite Hok.
    apply (for_relation_sound h0) in Hok as (_ & _ & _ & _ & _ & Hrel1); [|done].
    apply (IH objss'); [done|lia|done|done|].
    rewrite steps_cons, apply_steps_app, concat_cons, app_assoc in Hrun.
    exact Hrun.
Qed.

(** X12.  The body of the loop of lines 138-141 writes the relation type
    into the record before it calls [create_relation]: when the factory
    rejects the record, its error is raised and the record is left
    labelled; an element that is not a record raises a TypeError.  A list
    fails where the body first does.  For a payload that binds no
    parameter, the call of the Anime constructor raises what the loop over
    the first list it rejects raises, and leaves the store that loop left,
    once the date range, the genres and the lists before it are accepted;
    so does the Manga constructor with lines 260-263, once the author and
    the serialization are accepted too. *)
Theorem X12_rejected_relation (id : value) (kw : gmap string value)
    (h : gmap loc object) :
  (∀ k r d acc g e,
     g !! r = Some (ODict d) →
     create_relation (dict_set "relation" (VStr k) d) = inl e →
     run (for_relation k [VRef r] acc) g
     = (inl e, <[r := ODict (dict_set "relation" (VStr k) d)]> g)) ∧
  (∀ k x acc g, (∀ r, x ≠ VRef r) →
     run (for_relation k [x] acc) g = (inl TypeError, g)) ∧
  (∀ k pre x post acc g out g1 e g2,
     run (for_relation k pre acc) g = (inr out, g1) →
     run (for_relation k [x] out) g1 = (inl e, g2) →
     run (for_relation k (pre ++ x :: post)%list acc) g = (inl e, g2)) ∧
  (unbound Anime_parameters kw →
   ∀ dates gs dm done k lv xs rest objss e g2,
     run (date_range (get "aired_string" kw)) h = (inr dates, h) →
     run (names_of (chosen_genres kw)) h = (inr gs, h) →
     kw !! "related" = Some (VRef dm) →
     h !! dm = Some (ODict (done ++ (k, VRef lv) :: rest)%list) →
     ¬ typed (done ++ (k, VRef lv) :: rest)%list →
     Forall2 (item_spec h) done objss →
     h !! lv = Some (OList xs) →
     run (for_relation k xs (concat objss)) (apply_steps (steps h done) h)
     = (inl e, g2) →
     call Anime_parameters (Anime.__init__ id) kw h = (inl e, g2)) ∧
  (unbound Manga_parameters kw →
   ∀ dates a ha gs s dm done k lv xs rest objss e g2,
     run (date_range (get "published_string" kw)) h = (inr dates, h) →
     run (Manga.author_from (get "author" kw)) h = (inr a, ha) →
     run (names_of (chosen_genres kw)) ha = (inr gs, ha) →
     run (first (get "serialization" kw)) ha = (inr s, ha) →
     kw !! "related" = Some (VRef dm) →
     ha !! dm = Some (ODict (done ++ (k, VRef lv) :: rest)%list) →
     ¬ typed (done ++ (k, VRef lv) :: rest)%list →
     Forall2 (item_spec ha) done objss →
     ha !! lv = Some (OList xs) →
     run (for_relation k xs (concat objss)) (apply_steps (steps ha done) ha)
     = (inl e, g2) →
     call Manga_parameters (Manga.__init__ id) kw h = (inl e, g2)).
Proof.
  split_and!.
  - intros k r d acc g e Hr Hc. cbn [for_relation].
    rewrite run_bind, (run_setitem _ _ _ _ _ Hr) by eauto with free.
    cbn beta iota. apply run_bind_raise; [eauto with free|].
    unfold run, on_record. rewrite bind_unfold. unfold deref. cbn [heap].
    by rewrite lookup_insert_eq, Hc.
  - intros k x acc g Hx. cbn [for_relation].
    apply run_bind_raise; [eauto with free|].
    destruct x as [| | | | |r]; try done. by destruct (Hx r).
  - intros k pre x post acc g out g1 e g2 Hpre Hx.
    rewrite run_for_relation_app, Hpre.
    change (x :: post) with ([x] ++ post)%list.
    by rewrite run_for_relation_app, Hx.
  - intros Hu [s0 e0] gs dm done k lv xs rest objss e g2
      Hd Hg Hkw Hdm Hnt Hall Hlv Hrun.
    apply (call_raises _ _ _ _ _ _ Hu).
    apply (by_parts_raise _ _ _ _ _ _ _ _ Anime_construct). unfold Anime.parts.
    rewrite run_bind, Hd by apply kwargs_free_date_range. cbn beta iota.
    rewrite run_bind, Hg by apply kwargs_free_names_of. cbn beta iota.
    apply run_bind_raise; [apply kwargs_free_related_from|].
    rewrite (get_some _ _ _ Hkw). unfold related_from.
    rewrite run_bind, (run_items _ _ _ Hdm) by eauto with free.
    rewrite run_bind, (run_deref _ _ _ Hdm) by eauto with free.
    cbn zeta beta iota.
    apply (for_items_raise h dm _ done k lv xs rest objss e g2 Hdm Hnt Hlv);
      [apply relabelled_refl|lia|done|done|done].
  - intros Hu [s0 e0] [a0 a1] ha gs s dm done k lv xs rest objss e g2
      Hd Ha Hg Hs Hkw Hdm Hnt Hall Hlv Hrun.
    apply (call_raises _ _ _ _ _ _ Hu).
    apply (by_parts_raise _ _ _ _ _ _ _ _ Manga_construct). unfold Manga.parts.
    rewrite run_bind, Hd by apply kwargs_free_date_range. cbn beta iota.
    rewrite run_bind, Ha by apply kwargs_free_author_from. cbn beta iota.
    rewrite run_bind, Hg by apply kwargs_free_names_of. cbn beta iota.
    rewrite run_bind, Hs by apply kwargs_free_first. cbn beta iota.
    apply run_bind_raise; [apply kwargs_free_related_from|].
    rewrite (get_some _ _ _ Hkw). unfold related_from.
    rewrite run_bind, (run_items _ _ _ Hdm) by eauto with free.
    rewrite run_bind, (run_deref _ _ _ Hdm) by eauto with free.
    cbn zeta beta iota.
    apply (for_items_raise ha dm _ done k lv xs rest objss e g2 Hdm Hnt Hlv);
      [apply relabelled_refl|lia|done|done|done].
Qed.

End bad_relation.

(** The related title of the sample store with a type the factory of the
    spec does not know: the constructor raises and the record is left
    labelled. *)
Lemma X12_witness :
  call Anime_parameters (Anime.__init__ (VInt 1)) (sample_anime (VStr "2020") (VRef 4))
    (<[3%positive := ODict [("type", VStr "film")]]> sample_store)
  = (inl UnknownEntityKindError,
     <[3%positive := ODict [("type", VStr "film"); ("relation", VStr "Sequel")]]>
       (<[3%positive := ODict [("type", VStr "film")]]> sample_store)).
Proof.
  assert (run (date_range (get "aired_string"
            (sample_anime (VStr "2020") (VRef 4))))
            (<[3%positive := ODict [("type", VStr "film")]]> sample_store)
          = (inr (VStr "2020", VNone),
             <[3%positive := ODict [("type", VStr "film")]]> sample_store))
    as Hd by (vm_compute; reflexivity).
  assert (run (names_of (chosen_genres (sample_anime (VStr "2020") (VRef 4))))
            (<[3%positive := ODict [("type", VStr "film")]]> sample_store)
          = (inr (Some [VStr "Action"; VStr "Drama"]),
             <[3%positive := ODict [("type", VStr "film")]]> sample_store))
    as Hg by (vm_compute; reflexivity).
  apply (proj1 (proj2 (proj2 (proj2 (X12_rejected_relation (VInt 1)
    (sample_anime (VStr "2020") (VRef 4))
    (<[3%positive := ODict [("type", VStr "film")]]> sample_store)))))
    ltac:(sample_unbound) (VStr "2020", VNone) (Some [VStr "Action"; VStr "Drama"]) 1%positive
    [] "Sequel" 2%positive [VRef 3] [] [] UnknownEntityKindError _ Hd Hg
    eq_refl).
  - vm_compute. reflexivity.
  - intros (s & Hs & _). vm_compute in Hs. discriminate.
  - constructor.
  - vm_compute. reflexivity.
  - apply (proj1 (X12_rejected_relation (VInt 1)
      (sample_anime (VStr "2020") (VRef 4))
      (<[3%positive := ODict [("type", VStr "film")]]> sample_store))
      "Sequel" 3%positive [("type", VStr "film")] []
      (<[3%positive := ODict [("type", VStr "film")]]> sample_store)
      UnknownEntityKindError (lookup_insert_eq _ _ _)).
    reflexivity.
Defined.

(** ** A Character whose appearances are all accepted *)

Section character_returns.
Context `{!Collaborators}.

Lemma for_appearances_complete f h0 rs objs acc h :
  enriched h0 h →
  Forall2 (accepted f h0) rs objs →
  ∃ h', run (for_appearances f rs acc) h = (inr (acc ++ objs)%list, h') ∧
        enriched h0 h'.
Proof.
  intros He Hall. revert acc h He.
  induction Hall as [|x obj rs objs (r & d' & -> & Hen & Hf) _ IH];
    intros acc h He.
  - exists h. cbn [for_appearances]. by rewrite run_ret, app_nil_r.
  - destruct Hen as (d & url & i & Hd & Hu & Hp & ->).
    assert (enriches h0 r (dict_set "id" i d)) as Hen
      by (by exists d, url, i).
    assert (∃ dcur, h !! r = Some (ODict dcur) ∧
                    dict_get "url" dcur = Some url) as (dcur & Hcur & Hucur).
    { destruct (He r) as [Hsame|(d'' & Hen' & Hr)].
      - exists d. by rewrite Hsame.
      - exists d''. split; [done|].
        rewrite (enriches_fun _ _ _ _ Hen' Hen).
        by rewrite dict_get_set_ne. }
    pose proof (enriched_step _ _ _ _ _ _ He Hcur Hucur Hp) as Hen'.
    pose proof (enriches_fun _ _ _ _ Hen' Hen) as Heq.
    destruct (IH (acc ++ [obj])%list (<[r := ODict (dict_set "id" i d)]> h))
      as (h' & Hrun & He'); [by apply enriched_insert|].
    exists h'. split; [|done].
    cbn [for_appearances].
    rewrite run_bind, (run_getitem _ _ _ r dcur url eq_refl Hcur Hucur)
      by eauto with free.
    cbn beta iota. rewrite run_bind, Hp, run_lift by eauto with free.
    cbn beta iota. rewrite run_bind, (run_setitem _ _ _ _ _ Hcur), Heq
      by eauto with free.
    cbn beta iota.
    rewrite run_bind, (run_on_record _ _ _ _ _ (lookup_insert_eq _ _ _) Hf)
      by eauto with free.
    cbn beta iota. by rewrite Hrun, <- app_assoc.
Qed.

(** X13.  The call of the Character constructor returns whenever the
    payload binds no parameter and gives two lists of records, each record
    with a URL [parse_id] accepts and, once it holds the identifier,
    accepted by the reference constructor of its list; the animeography and
    the mangaography are then the references of the records, in the order
    of the lists.  A record may occur more than once and in both lists. *)
Theorem X13_character_returns (id : value) (kw : gmap string value)
    (h : gmap loc object) (la lm : loc) (ra rm : list value)
    (anime manga : list reference) :
  unbound Character_parameters kw →
  kw !! "animeography" = Some (VRef la) → h !! la = Some (OList ra) →
  kw !! "mangaography" = Some (VRef lm) → h !! lm = Some (OList rm) →
  Forall2 (accepted PartialAnime_from_character h) ra anime →
  Forall2 (accepted PartialManga_from_character h) rm manga →
  ∃ x h', call Character_parameters (Character.__init__ id) kw h = (inr x, h') ∧
          Character.animeography x = anime ∧
          Character.mangaography x = manga.
Proof.
  intros Hu Hka Hla Hkm Hlm Ha Hm.
  destruct (for_appearances_complete _ h ra anime [] h (enriched_refl h) Ha)
    as (h1 & Hr1 & He1).
  destruct (for_appearances_complete _ h rm manga [] h1 He1 Hm)
    as (h2 & Hr2 & He2).
  exists (Character.of_parts id kw (anime, manga)), h2. split; [|done].
  rewrite (call_unbound _ _ _ _ Hu).
  apply (by_parts_returns _ _ _ id kw h _ _ Character_construct).
  unfold Character.parts.
  rewrite (get_some _ _ _ Hka), (get_some _ _ _ Hkm).
  assert (∀ f l rs g out g',
            g !! l = Some (OList rs) →
            run (for_appearances f rs []) g = (inr out, g') →
            run (Character.appearances_from f (VRef l)) g = (inr out, g'))
    as Hfrom.
  { intros f l rs g out g' Hl Hr. unfold Character.appearances_from.
    by rewrite run_bind, (run_iter_list _ _ _ Hl) by eauto with free. }
  rewrite run_bind, (Hfrom _ _ _ _ _ _ Hla Hr1)
    by apply kwargs_free_appearances_from.
  cbn beta iota. apply (enriched_list _ _ _ _ He1) in Hlm.
  rewrite run_bind, (Hfrom _ _ _ _ _ _ Hlm Hr2)
    by apply kwargs_free_appearances_from.
  cbn beta iota. by rewrite run_ret.
Qed.

End character_returns.

(** The sample character. *)
Lemma X13_witness :
  ∃ x h', call Character_parameters (Character.__init__ (VInt 1)) sample_character
            sample_store = (inr x, h') ∧
    Character.animeography x
    = [Reference AnimeReference (VInt 5) (VStr "Name")
         (VStr "https://myanimelist.net/anime/5/Name") VNone] ∧
    Character.mangaography x
    = [Reference MangaReference (VInt 2) (VStr "Name")
         (VStr "https://myanimelist.net/manga/2/Name") VNone].
Proof.
  apply (X13_character_returns (VInt 1) sample_character sample_store
           10%positive 12%positive [VRef 11] [VRef 13]); try reflexivity.
  - sample_unbound.
  - constructor; [|constructor].
    exists 11%positive, (dict_set "id" (VInt 5)
      [("name", VStr "Name");
       ("url", VStr "https://myanimelist.net/anime/5/Name")]).
    split_and!; [reflexivity| |reflexivity].
    exists [("name", VStr "Name");
            ("url", VStr "https://myanimelist.net/anime/5/Name")],
      (VStr "https://myanimelist.net/anime/5/Name"), (VInt 5).
    split_and!; reflexivity.
  - constructor; [|constructor].
    exists 13%positive, (dict_set "id" (VInt 2)
      [("name", VStr "Name");
       ("url", VStr "https://myanimelist.net/manga/2/Name")]).
    split_and!; [reflexivity| |reflexivity].
    exists [("name", VStr "Name");
            ("url", VStr "https://myanimelist.net/manga/2/Name")],
      (VStr "https://myanimelist.net/manga/2/Name"), (VInt 2).
    split_and!; reflexivity.
Defined.

(** ** Constructing twice *)



Section twice.
Context `{!Collaborators, !TypedRelations}.



End twice.



